(** * IFS customization translator: the CS/CE block format

    A shallow embedding of the block encoders ([lng_generator.py],
    [trs_generator.py]) and of the block validator ([validator.py]),
    with the properties of the format that the specification states;
    then of the filter and the statistics of the parser ([parser.py]) and
    of the dictionary backend and the cache of the translator
    ([translator.py]), with properties of the code around the format.

    Python values are modelled as follows.
    - A [str] is the list of its Unicode code points, each an [N].
    - A dict that is iterated over ([logical_units], [views],
      [columns]) is the list of its items in insertion order; where such a
      dict is built, a key is set with [dict_set].
    - The translation dict, which is only looked up, is a [gmap].
    - A [for] loop is a left fold over the iterated list; the validator's
      [self.errors] and [self.warnings] are threaded through explicitly.
    - A file holds the text that was written to it; reading it back in
      text mode applies Python's universal-newline translation.  Files are
      written in UTF-8: the write of a text with a surrogate code point
      raises [UnicodeEncodeError] and leaves the file empty, and any other
      text is read back as it was written. *)

From Stdlib Require Import List NArith PeanoNat Bool Lia String Ascii Decimal.
From stdpp Require Import base option list gmap.
Import ListNotations.

Local Open Scope nat_scope.
Local Open Scope list_scope.

(** ** Python strings *)

Abbreviation str := (list N).

(** An ASCII literal of the source, as code points. *)
Definition lit (s : string) : str :=
  map (fun a => N_of_ascii a) (list_ascii_of_string s).

Definition TAB : N := 9.
Definition LF : N := 10.
Definition CR : N := 13.
Definition SPACE : N := 32.
Definition CARET : N := 94.

(** ['\r\n'] *)
Definition crlf : str := [CR; LF].

(** [str.isspace] on one character: the code points of Unicode category Zs
    or of bidirectional class WS, B or S. *)
Definition isspace (c : N) : bool :=
  ((9 <=? c) && (c <=? 13) || (28 <=? c) && (c <=? 32)
   || (c =? 133) || (c =? 160) || (c =? 5760)
   || (8192 <=? c) && (c <=? 8202)
   || (c =? 8232) || (c =? 8233) || (c =? 8239) || (c =? 8287)
   || (c =? 12288))%N.

Fixpoint lstrip (s : str) : str :=
  match s with
  | [] => []
  | c :: r => if isspace c then lstrip r else s
  end.

Definition rstrip (s : str) : str := rev (lstrip (rev s)).

(** [s.strip()] *)
Definition strip (s : str) : str := rstrip (lstrip s).

(** [s.startswith(p)] *)
Fixpoint startswith (s p : str) {struct p} : bool :=
  match p with
  | [] => true
  | a :: p' =>
      match s with
      | [] => false
      | b :: s' => (a =? b)%N && startswith s' p'
      end
  end.

(** [s.endswith(p)] *)
Definition endswith (s p : str) : bool := startswith (rev s) (rev p).

(** [p in s] *)
Fixpoint str_in (p s : str) : bool :=
  startswith s p ||
  match s with
  | [] => false
  | _ :: s' => str_in p s'
  end.

(** [s.split(c)] for a one-character separator. *)
Fixpoint split (s : str) (c : N) : list str :=
  match s with
  | [] => [[]]
  | x :: r =>
      if (x =? c)%N then [] :: split r c
      else match split r c with
           | [] => [[x]]
           | h :: t => (x :: h) :: t
           end
  end.

(** ['\t' * n] and the like. *)
Definition str_mul (c : N) (n : nat) : str := repeat c n.

(** [sep.join(l)] *)
Fixpoint join (sep : str) (l : list str) : str :=
  match l with
  | [] => []
  | x :: r =>
      match r with
      | [] => x
      | _ :: _ => x ++ sep ++ join sep r
      end
  end.

(** [str(n)] for a non-negative int. *)
Fixpoint str_of_uint (d : Decimal.uint) : str :=
  match d with
  | Nil => []
  | D0 d => 48%N :: str_of_uint d
  | D1 d => 49%N :: str_of_uint d
  | D2 d => 50%N :: str_of_uint d
  | D3 d => 51%N :: str_of_uint d
  | D4 d => 52%N :: str_of_uint d
  | D5 d => 53%N :: str_of_uint d
  | D6 d => 54%N :: str_of_uint d
  | D7 d => 55%N :: str_of_uint d
  | D8 d => 56%N :: str_of_uint d
  | D9 d => 57%N :: str_of_uint d
  end.

Definition str_of_nat (n : nat) : str := str_of_uint (Nat.to_uint n).

(** The longest prefix of [s] without the character [c]. *)
Fixpoint span_not (c : N) (s : str) : str :=
  match s with
  | [] => []
  | x :: r => if (x =? c)%N then [] else x :: span_not c r
  end.

(** [re.match(r'CS:([^^]+)', s)]: the group, when the pattern matches.  The
    negated class matches every character but the caret, and the greedy
    [+] takes the longest such run, which must not be empty. *)
Definition re_match_CS (s : str) : option str :=
  if startswith s (lit "CS:") then
    match span_not CARET (skipn 3 s) with
    | [] => None
    | g => Some g
    end
  else None.

(** [enumerate(l)] *)
Fixpoint enumerate_from {A} (i : nat) (l : list A) : list (nat * A) :=
  match l with
  | [] => []
  | x :: r => (i, x) :: enumerate_from (S i) r
  end.

Definition enumerate {A} (l : list A) : list (nat * A) := enumerate_from 0 l.

(** ** Text files *)

(** Universal newlines: on reading, ['\r\n'] and a lone ['\r'] become
    ['\n']. *)
Fixpoint universal_newlines (s : str) : str :=
  match s with
  | [] => []
  | c :: r =>
      if (c =? CR)%N then
        LF :: match r with
              | [] => []
              | c' :: r' =>
                  if (c' =? LF)%N then universal_newlines r'
                  else universal_newlines r
              end
      else c :: universal_newlines r
  end.

(** The lines of a text, each with its terminating ['\n'], the last one
    possibly without. *)
Fixpoint keepends (s : str) : list str :=
  match s with
  | [] => []
  | c :: r =>
      if (c =? LF)%N then [LF] :: keepends r
      else match keepends r with
           | [] => [[c]]
           | l :: ls => (c :: l) :: ls
           end
  end.

(** [f.readlines()] of a file opened with [open(path, 'r')]. *)
Definition readlines (text : str) : list str :=
  keepends (universal_newlines text).

(** A [pathlib.Path], by its text and the suffix pathlib gives it. *)
Record Path := { path_str : str; suffix : str }.

(** What the file system holds at a path. *)
Inductive entry :=
| Absent
| Unreadable (e : str)
| Stored (text : str).

Definition FS := Path -> entry.

Definition str_eqb (a b : str) : bool := bool_decide (a = b).

(** The file system in which the file at [p] holds [text]. *)
Definition fs_write (fs : FS) (p : Path) (text : str) : FS :=
  fun q => if str_eqb (path_str q) (path_str p) then Stored text else fs q.

(** A code point that UTF-8 encodes: a Unicode scalar value, that is, any
    code point of a [str] (they end at U+10FFFF) but a surrogate, U+D800 to
    U+DFFF. *)
Definition encodable_char (c : N) : bool :=
  ((c <? 55296) || (57343 <? c) && (c <? 1114112))%N.

(** [text.encode('utf-8')] does not raise. *)
Definition encodable (text : str) : bool := forallb encodable_char text.

Inductive exception := UnicodeEncodeError.

(** What a call comes to: it returns a value or it raises. *)
Inductive outcome (A : Type) :=
| Returned (value : A)
| Raised (e : exception).

Arguments Returned {A} value.
Arguments Raised {A} e.

(** [with open(p, 'w', encoding='utf-8', newline='') as f: f.write(text)].
    [open] creates the file, or empties the one that is there; [write]
    encodes the whole text before it writes any of it, and raises
    [UnicodeEncodeError] when the text cannot be encoded: the file is then
    closed empty.  With [newline=''] the text is stored as it is. *)
Definition write_text (fs : FS) (p : Path) (text : str) : outcome unit * FS :=
  if encodable text then (Returned tt, fs_write fs p text)
  else (Raised UnicodeEncodeError, fs_write fs p []).

(** ** The resource tree *)

Record Column := {
  col_control : str;
  col_label : str;
  is_custom : bool
}.

Record View := {
  view_control : str;
  view_label : str;
  columns : list (str * Column)
}.

Record LogicalUnit := {
  lu_name : str;
  lu_label : str;
  views : list (str * View)
}.

Record ResourceTree := {
  tree_module : str;
  tree_layer : str;
  logical_units : list (str * LogicalUnit)
}.

(** The translation dict; [translations.get(label, label)]. *)
Definition translations_get (translations : gmap (list N) (list N))
    (label : str) : str :=
  default label (translations !! label).

Definition separator : str :=
  lit "-------------------------------------------------------".

(** ** [lng_generator.py] *)

Module LNGGenerator.

Record t := {
  module : str;
  layer : str;
  main_type : str;
  sub_type : str
}.

(** [LNGGenerator(module, layer)] with the default main and sub type. *)
Definition init (module layer : str) : t :=
  {| module := module; layer := layer;
     main_type := lit "LU"; sub_type := lit "Logical Unit" |}.

Definition header (self : t) : list str :=
  [ separator;
    lit "File Type: IFS Foundation Language File";
    lit "Type version: 10.00";
    separator;
    lit "Module: " ++ module self;
    lit "Layer: " ++ layer self;
    lit "Main Type: " ++ main_type self;
    lit "Sub Type: " ++ sub_type self;
    lit "Content: ";
    separator ].

Definition generate_header (self : t) : str :=
  join crlf (header self) ++ crlf.

Definition _generate_column_block (col_data : Column) (indent_level : nat)
    : list str :=
  let indent := str_mul TAB indent_level in
  [ indent ++ lit "CS:" ++ col_control col_data ++ lit "^LU^Column^N^N" ++ crlf;
    indent ++ [TAB] ++ lit "A:Prompt^" ++ col_label col_data ++ lit "^" ++ crlf;
    indent ++ lit "CE:" ++ crlf ].

Definition _generate_view_block (view_data : View) (indent_level : nat)
    : list str :=
  let indent := str_mul TAB indent_level in
  [ indent ++ lit "CS:" ++ view_control view_data ++ lit "^LU^View^N^N" ++ crlf ]
  ++ fold_left
       (fun lines item =>
          if is_custom (snd item)
          then lines ++ _generate_column_block (snd item) (indent_level + 1)
          else lines)
       (columns view_data) []
  ++ [ indent ++ lit "CE:" ++ crlf ].

Definition _generate_lu_block (lu_data : LogicalUnit) (indent_level : nat)
    : list str :=
  let indent := str_mul TAB indent_level in
  [ indent ++ lit "CS:" ++ lu_name lu_data ++ lit "^LU^Logical Unit^N^N" ++ crlf;
    indent ++ [TAB] ++ lit "A:Prompt^" ++ lu_label lu_data ++ lit "^" ++ crlf ]
  ++ fold_left
       (fun lines item => lines ++ _generate_view_block (snd item) (indent_level + 1))
       (views lu_data) []
  ++ [ indent ++ lit "CE:" ++ crlf ].

(** The list [lines] that [generate_content] builds. *)
Definition content_lines (data : ResourceTree) : list str :=
  fold_left
    (fun lines item => lines ++ _generate_lu_block (snd item) 0)
    (logical_units data) [].

Definition generate_content (data : ResourceTree) : str :=
  join [] (content_lines data).

(** [generate_file]: the path that it returns, or the exception of the
    write, which it lets through, and the file system afterwards.  The
    directories, which [mkdir] makes where they are missing, are not part
    of the file system. *)
Definition generate_file (self : t) (data : ResourceTree) (output_path : Path)
    (fs : FS) : outcome str * FS :=
  let header := generate_header self in
  let content := generate_content data in
  let full_content := header ++ content in
  match write_text fs output_path full_content with
  | (Returned _, fs) => (Returned (path_str output_path), fs)
  | (Raised e, fs) => (Raised e, fs)
  end.

End LNGGenerator.

(** ** [trs_generator.py] *)

Module TRSGenerator.

Record t := {
  module : str;
  layer : str;
  language : str;
  main_type : str;
  sub_type : str;
  lang_code : str;
  culture : str
}.

(** The class attribute [LANGUAGES], by its ['code'] entries. *)
Definition LANGUAGES : list (str * str) :=
  [ (lit "sv-SE", lit "sv"); (lit "nb-NO", lit "no") ].

Fixpoint LANGUAGES_code (table : list (str * str)) (language : str)
    : option str :=
  match table with
  | [] => None
  | (k, code) :: rest =>
      if str_eqb language k then Some code else LANGUAGES_code rest language
  end.

(** [__init__] *)
Definition init_with (module layer language main_type sub_type : str) : t :=
  {| module := module; layer := layer; language := language;
     main_type := main_type; sub_type := sub_type;
     lang_code :=
       match LANGUAGES_code LANGUAGES language with
       | Some code => code
       | None => hd [] (split language 45%N)
       end;
     culture := language |}.

(** [TRSGenerator(module, layer, language)] with the default main and sub
    type. *)
Definition init (module layer language : str) : t :=
  init_with module layer language (lit "LU") (lit "Logical Unit").

Definition header (self : t) : list str :=
  [ separator;
    lit "File Type: IFS Foundation Translation File";
    lit "Type version: 10.00";
    separator;
    lit "Module: " ++ module self;
    lit "Language: " ++ lang_code self;
    lit "Culture: " ++ culture self;
    lit "Layer: " ++ layer self;
    lit "Main Type: " ++ main_type self;
    lit "Sub Type: " ++ sub_type self;
    lit "Content: ";
    separator ].

Definition generate_header (self : t) : str :=
  join crlf (header self) ++ crlf.

Definition _generate_column_block (col_data : Column)
    (translations : gmap (list N) (list N)) (indent_level : nat) : list str :=
  let indent := str_mul TAB indent_level in
  let original_label := col_label col_data in
  let translated_label := translations_get translations original_label in
  [ indent ++ lit "CS:" ++ col_control col_data ++ lit "^LU" ++ crlf;
    indent ++ [TAB] ++ lit "P:" ++ original_label ++ lit "^" ++ crlf;
    indent ++ [TAB] ++ lit "A:Prompt^" ++ translated_label ++ lit "^" ++ crlf;
    indent ++ lit "CE:" ++ crlf ].

Definition _generate_view_block (view_data : View)
    (translations : gmap (list N) (list N)) (indent_level : nat) : list str :=
  let indent := str_mul TAB indent_level in
  [ indent ++ lit "CS:" ++ view_control view_data ++ lit "^LU" ++ crlf ]
  ++ fold_left
       (fun lines item =>
          if is_custom (snd item)
          then lines ++ _generate_column_block (snd item) translations (indent_level + 1)
          else lines)
       (columns view_data) []
  ++ [ indent ++ lit "CE:" ++ crlf ].

Definition _generate_lu_block (lu_data : LogicalUnit)
    (translations : gmap (list N) (list N)) (indent_level : nat) : list str :=
  let indent := str_mul TAB indent_level in
  [ indent ++ lit "CS:" ++ lu_name lu_data ++ lit "^LU" ++ crlf ]
  ++ fold_left
       (fun lines item =>
          lines ++ _generate_view_block (snd item) translations (indent_level + 1))
       (views lu_data) []
  ++ [ indent ++ lit "CE:" ++ crlf ].

(** The list [lines] that [generate_content] builds. *)
Definition content_lines (data : ResourceTree)
    (translations : gmap (list N) (list N)) : list str :=
  fold_left
    (fun lines item => lines ++ _generate_lu_block (snd item) translations 0)
    (logical_units data) [].

Definition generate_content (data : ResourceTree)
    (translations : gmap (list N) (list N)) : str :=
  join [] (content_lines data translations).

(** [generate_file]: the path that it returns, or the exception of the
    write, which it lets through, and the file system afterwards. *)
Definition generate_file (self : t) (data : ResourceTree)
    (translations : gmap (list N) (list N)) (output_path : Path) (fs : FS)
    : outcome str * FS :=
  let header := generate_header self in
  let content := generate_content data translations in
  let full_content := header ++ content in
  match write_text fs output_path full_content with
  | (Returned _, fs) => (Returned (path_str output_path), fs)
  | (Raised e, fs) => (Raised e, fs)
  end.

End TRSGenerator.

(** ** [validator.py] *)

Module IFSValidator.

Record t := {
  errors : list str;
  warnings : list str
}.

(** [IFSValidator()] *)
Definition init : t := {| errors := []; warnings := [] |}.

(** [self.errors.append(m)] *)
Definition errors_append (m : str) (self : t) : t :=
  {| errors := errors self ++ [m]; warnings := warnings self |}.

(** [self.warnings.append(m)] *)
Definition warnings_append (m : str) (self : t) : t :=
  {| errors := errors self; warnings := warnings self ++ [m] |}.

Definition line_prefix (line_num : nat) : str :=
  lit "Line " ++ str_of_nat line_num ++ lit ": ".

Definition required_fields : list str :=
  [ lit "Module:"; lit "Layer:"; lit "Main Type:"; lit "Sub Type:" ].

Definition _validate_header (lines : list str) (is_lng : bool) (self : t) : t :=
  if length lines <? 10 then
    errors_append (lit "File too short, missing header") self
  else
    let expected_type :=
      if is_lng then lit "IFS Foundation Language File"
      else lit "IFS Foundation Translation File" in
    let header_text := join [] (firstn 15 lines) in
    let self :=
      if negb (str_in expected_type header_text)
      then errors_append
             (lit "Invalid file type header. Expected: " ++ expected_type) self
      else self in
    let self :=
      if negb (str_in (lit "Type version: 10.00") header_text)
      then warnings_append (lit "Type version is not 10.00") self
      else self in
    fold_left
      (fun self field =>
         if negb (str_in field header_text)
         then errors_append (lit "Missing required header field: " ++ field) self
         else self)
      required_fields self.

Fixpoint first_CS (numbered : list (nat * str)) : option nat :=
  match numbered with
  | [] => None
  | (i, line) :: rest =>
      if startswith (strip line) (lit "CS:") then Some i else first_CS rest
  end.

Definition _find_content_start (lines : list str) : option nat :=
  first_CS (enumerate lines).

(** One iteration of the pairing loop, on the validator and the local
    [stack]; the stack grows at its end and is popped there. *)
Definition cs_ce_step (offset : nat) (st : t * list (str * nat))
    (il : nat * str) : t * list (str * nat) :=
  let (self, stack) := st in
  let (i, line) := il in
  let line_num := i + offset + 1 in
  let stripped := strip line in
  if startswith stripped (lit "CS:") then
    match re_match_CS stripped with
    | Some identifier => (self, stack ++ [(identifier, line_num)])
    | None =>
        (errors_append
           (line_prefix line_num ++ lit "Malformed CS line: " ++ stripped) self,
         stack)
    end
  else if startswith stripped (lit "CE:") then
    match stack with
    | [] =>
        (errors_append (line_prefix line_num ++ lit "CE without matching CS") self,
         stack)
    | _ :: _ => (self, removelast stack)
    end
  else st.

(** The pairing loop: the validator and the stack at the end of the scan. *)
Definition cs_ce_scan (content_lines : list str) (offset : nat) (self : t)
    : t * list (str * nat) :=
  fold_left (cs_ce_step offset) (enumerate content_lines) (self, []).

Definition _validate_cs_ce_pairing (content_lines : list str) (offset : nat)
    (self : t) : t :=
  let (self, stack) := cs_ce_scan content_lines offset self in
  fold_left
    (fun self entry =>
       errors_append
         (line_prefix (snd entry) ++ lit "CS '" ++ fst entry
            ++ lit "' not closed with CE") self)
    stack self.

(** One iteration of the indentation loop.  The count of leading tabs that
    the source computes next is not used and is left out. *)
Definition indentation_step (offset : nat) (self : t) (il : nat * str) : t :=
  let (i, line) := il in
  let line_num := i + offset + 1 in
  match strip line with
  | [] => self
  | _ :: _ =>
      if startswith line [SPACE] && negb (startswith line [TAB])
      then warnings_append
             (line_prefix line_num
                ++ lit "Uses spaces instead of tabs for indentation") self
      else self
  end.

Definition _validate_indentation (content_lines : list str) (offset : nat)
    (self : t) : t :=
  fold_left (indentation_step offset) (enumerate content_lines) self.

(** One iteration of the [.lng] structure loop. *)
Definition lng_structure_step (offset : nat) (self : t) (il : nat * str) : t :=
  let (i, line) := il in
  let line_num := i + offset + 1 in
  let stripped := strip line in
  let self :=
    if startswith stripped (lit "CS:") then
      let parts := split stripped CARET in
      if negb (length parts =? 5)
      then errors_append
             (line_prefix line_num ++ lit "Invalid CS format. Expected 5 parts, got "
                ++ str_of_nat (length parts)) self
      else self
    else self in
  if startswith stripped (lit "A:Prompt^") then
    if negb (endswith stripped [CARET])
    then errors_append (line_prefix line_num ++ lit "A:Prompt should end with ^") self
    else self
  else self.

Definition _validate_lng_structure (content_lines : list str) (offset : nat)
    (self : t) : t :=
  fold_left (lng_structure_step offset) (enumerate content_lines) self.

(** One iteration of the [.trs] structure loop. *)
Definition trs_structure_step (offset : nat) (self : t) (il : nat * str) : t :=
  let (i, line) := il in
  let line_num := i + offset + 1 in
  let stripped := strip line in
  let self :=
    if startswith stripped (lit "CS:") then
      let parts := split stripped CARET in
      if negb (length parts =? 2)
      then errors_append
             (line_prefix line_num
                ++ lit "Invalid CS format for .trs. Expected 2 parts, got "
                ++ str_of_nat (length parts)) self
      else self
    else self in
  let self :=
    if startswith stripped (lit "P:") then
      if negb (endswith stripped [CARET])
      then errors_append (line_prefix line_num ++ lit "P: line should end with ^") self
      else self
    else self in
  if startswith stripped (lit "A:Prompt^") then
    if negb (endswith stripped [CARET])
    then errors_append (line_prefix line_num ++ lit "A:Prompt should end with ^") self
    else self
  else self.

Definition _validate_trs_structure (content_lines : list str) (offset : nat)
    (self : t) : t :=
  fold_left (trs_structure_step offset) (enumerate content_lines) self.

(** What [validate_file] returns: [(is_valid, errors, warnings)]. *)
Definition verdict : Type := bool * list str * list str.

(** [validate_file]: the returned tuple and the validator afterwards. *)
Definition validate_file (self : t) (file_path : Path) (fs : FS) : verdict * t :=
  let self := {| errors := []; warnings := [] |} in
  match fs file_path with
  | Absent =>
      let self :=
        errors_append (lit "File does not exist: " ++ path_str file_path) self in
      ((false, errors self, warnings self), self)
  | Unreadable e =>
      let self := errors_append (lit "Failed to read file: " ++ e) self in
      ((false, errors self, warnings self), self)
  | Stored text =>
      let lines := readlines text in
      let is_lng := str_eqb (suffix file_path) (lit ".lng") in
      let is_trs := str_eqb (suffix file_path) (lit ".trs") in
      if negb (is_lng || is_trs) then
        let self :=
          errors_append (lit "Unknown file type: " ++ suffix file_path) self in
        ((false, errors self, warnings self), self)
      else
        let self := _validate_header lines is_lng self in
        match _find_content_start lines with
        | None =>
            let self := errors_append (lit "Could not find content section") self in
            ((false, errors self, warnings self), self)
        | Some content_start =>
            let self :=
              _validate_cs_ce_pairing (skipn content_start lines) content_start self in
            let self :=
              _validate_indentation (skipn content_start lines) content_start self in
            let self :=
              if is_lng
              then _validate_lng_structure (skipn content_start lines) content_start self
              else _validate_trs_structure (skipn content_start lines) content_start self in
            let is_valid := length (errors self) =? 0 in
            ((is_valid, errors self, warnings self), self)
        end
  end.

End IFSValidator.

(** ** The scenarios of the specification *)

Definition C_TEST_FIELD : Column :=
  {| col_control := lit "C_TEST_FIELD"; col_label := lit "Test Field";
     is_custom := true |}.

Definition TEST_VIEW : View :=
  {| view_control := lit "TEST_VIEW"; view_label := lit "Test View";
     columns := [ (lit "C_TEST_FIELD", C_TEST_FIELD) ] |}.

Definition TestLU : LogicalUnit :=
  {| lu_name := lit "TestLU"; lu_label := lit "Test Logical Unit";
     views := [ (lit "TEST_VIEW", TEST_VIEW) ] |}.

Definition test_data : ResourceTree :=
  {| tree_module := lit "ESSPRO"; tree_layer := lit "Cust";
     logical_units := [ (lit "TestLU", TestLU) ] |}.

(** ["Testfält"]; the letter ä is U+00E4. *)
Definition Testfalt : str := lit "Testf" ++ [228%N] ++ lit "lt".

Definition test_translations : gmap (list N) (list N) :=
  {[ lit "Test Field" := Testfalt ]}.

Definition lng_path : Path :=
  {| path_str := lit "out/Esspro_LU_LogicalUnit-Cust.lng"; suffix := lit ".lng" |}.

Definition trs_path : Path :=
  {| path_str := lit "out/Esspro_LU_LogicalUnit-Cust-sv.trs"; suffix := lit ".trs" |}.

Definition no_files : FS := fun _ => Absent.

(** The header of the scenarios: module [ESSPRO], layer [Cust]. *)
Definition lng_generator : LNGGenerator.t :=
  LNGGenerator.init (lit "ESSPRO") (lit "Cust").

Definition trs_generator : TRSGenerator.t :=
  TRSGenerator.init (lit "ESSPRO") (lit "Cust") (lit "sv-SE").

(** Scenario A, the content as the specification gives it. *)
Definition scenario_A_content : str :=
  lit "CS:TestLU^LU^Logical Unit^N^N" ++ crlf
  ++ [TAB] ++ lit "A:Prompt^Test Logical Unit^" ++ crlf
  ++ [TAB] ++ lit "CS:TEST_VIEW^LU^View^N^N" ++ crlf
  ++ [TAB; TAB] ++ lit "CS:C_TEST_FIELD^LU^Column^N^N" ++ crlf
  ++ [TAB; TAB; TAB] ++ lit "A:Prompt^Test Field^" ++ crlf
  ++ [TAB; TAB] ++ lit "CE:" ++ crlf
  ++ [TAB] ++ lit "CE:" ++ crlf
  ++ lit "CE:" ++ crlf.

(** Scenario B, the column block as the specification gives it. *)
Definition scenario_B_block_of_spec : str :=
  lit "CS:C_TEST_FIELD^LU" ++ crlf
  ++ [TAB; TAB] ++ lit "P:Test Field^" ++ crlf
  ++ [TAB; TAB] ++ lit "A:Prompt^" ++ Testfalt ++ lit "^" ++ crlf
  ++ [TAB] ++ lit "CE:" ++ crlf.

(** Scenario B, the column block as the encoder writes it, at depth 2. *)
Definition scenario_B_block : str :=
  [TAB; TAB] ++ lit "CS:C_TEST_FIELD^LU" ++ crlf
  ++ [TAB; TAB; TAB] ++ lit "P:Test Field^" ++ crlf
  ++ [TAB; TAB; TAB] ++ lit "A:Prompt^" ++ Testfalt ++ lit "^" ++ crlf
  ++ [TAB; TAB] ++ lit "CE:" ++ crlf.

(** Scenario C, one [CE:] missing. *)
Definition scenario_C_text : str :=
  lit "CS:A^LU" ++ crlf ++ lit "CS:B^LU" ++ crlf ++ lit "CE:" ++ crlf.



(** ** The grammar of the content section *)

(** [s] contains the character [c]. *)
Definition has_char (c : N) (s : str) : bool := existsb (N.eqb c) s.

(** [s] has no line break: neither ['\r'] nor ['\n']. *)
Definition single_line (s : str) : bool :=
  negb (has_char CR s) && negb (has_char LF s).

(** The fields that follow the identifier on a [CS:] line. *)
Inductive cs_fields := LngLU | LngView | LngColumn | TrsFields.

Definition fields_text (f : cs_fields) : str :=
  match f with
  | LngLU => lit "^LU^Logical Unit^N^N"
  | LngView => lit "^LU^View^N^N"
  | LngColumn => lit "^LU^Column^N^N"
  | TrsFields => lit "^LU"
  end.

(** The lines the encoders write, without indentation and line end. *)
Inductive block_line :=
| CS_line (identifier : str) (f : cs_fields)
| Prompt_line (label : str)
| P_line (label : str)
| CE_line.

Definition line_text (b : block_line) : str :=
  match b with
  | CS_line identifier f => lit "CS:" ++ identifier ++ fields_text f
  | Prompt_line label => lit "A:Prompt^" ++ label ++ lit "^"
  | P_line label => lit "P:" ++ label ++ lit "^"
  | CE_line => lit "CE:"
  end.

(** A line at its depth. *)
Definition render (it : nat * block_line) : str :=
  str_mul TAB (fst it) ++ line_text (snd it).

(** The element of [lines] the encoder appends for it. *)
Definition emit (it : nat * block_line) : str := render it ++ crlf.

(** The line the validator reads for it. *)
Definition as_read (s : str) : str := s ++ [LF].

Definition lng_column_items (c : Column) (d : nat) : list (nat * block_line) :=
  [ (d, CS_line (col_control c) LngColumn);
    (S d, Prompt_line (col_label c));
    (d, CE_line) ].

Definition lng_view_items (v : View) (d : nat) : list (nat * block_line) :=
  (d, CS_line (view_control v) LngView)
  :: flat_map
       (fun item =>
          if is_custom (snd item) then lng_column_items (snd item) (d + 1) else [])
       (columns v)
  ++ [ (d, CE_line) ].

Definition lng_lu_items (lu : LogicalUnit) (d : nat) : list (nat * block_line) :=
  (d, CS_line (lu_name lu) LngLU)
  :: (S d, Prompt_line (lu_label lu))
  :: flat_map (fun item => lng_view_items (snd item) (d + 1)) (views lu)
  ++ [ (d, CE_line) ].

Definition lng_items (data : ResourceTree) : list (nat * block_line) :=
  flat_map (fun item => lng_lu_items (snd item) 0) (logical_units data).

Definition trs_column_items (tr : gmap (list N) (list N)) (c : Column) (d : nat)
    : list (nat * block_line) :=
  [ (d, CS_line (col_control c) TrsFields);
    (S d, P_line (col_label c));
    (S d, Prompt_line (translations_get tr (col_label c)));
    (d, CE_line) ].

Definition trs_view_items (tr : gmap (list N) (list N)) (v : View) (d : nat)
    : list (nat * block_line) :=
  (d, CS_line (view_control v) TrsFields)
  :: flat_map
       (fun item =>
          if is_custom (snd item) then trs_column_items tr (snd item) (d + 1) else [])
       (columns v)
  ++ [ (d, CE_line) ].

Definition trs_lu_items (tr : gmap (list N) (list N)) (lu : LogicalUnit) (d : nat)
    : list (nat * block_line) :=
  (d, CS_line (lu_name lu) TrsFields)
  :: flat_map (fun item => trs_view_items tr (snd item) (d + 1)) (views lu)
  ++ [ (d, CE_line) ].

Definition trs_items (tr : gmap (list N) (list N)) (data : ResourceTree)
    : list (nat * block_line) :=
  flat_map (fun item => trs_lu_items tr (snd item) 0) (logical_units data).

(** Sequences of lines in which every [CS:] has its [CE:]. *)
Inductive nested : list (nat * block_line) -> Prop :=
| nested_nil : nested []
| nested_prompt d label rest :
    nested rest -> nested ((d, Prompt_line label) :: rest)
| nested_P d label rest :
    nested rest -> nested ((d, P_line label) :: rest)
| nested_block d identifier f inner d' rest :
    nested inner -> nested rest ->
    nested ((d, CS_line identifier f) :: inner ++ (d', CE_line) :: rest).

(** The first and the last character of [s] are not white space. *)
Definition edges_ok (s : str) : bool :=
  match s with c :: _ => negb (isspace c) | [] => false end
  && match rev s with c :: _ => negb (isspace c) | [] => false end.

Definition is_CS (b : block_line) : bool :=
  match b with CS_line _ _ => true | _ => false end.

Definition is_CE (b : block_line) : bool :=
  match b with CE_line => true | _ => false end.

Definition is_Prompt (b : block_line) : bool :=
  match b with Prompt_line _ => true | _ => false end.

Definition is_P (b : block_line) : bool :=
  match b with P_line _ => true | _ => false end.

(** The number of carets that follow the identifier on a [CS:] line. *)
Definition fields_carets (f : cs_fields) : nat :=
  match f with TrsFields => 1 | _ => 4 end.

(** What the pairing loop does on a line the encoders write. *)
Definition cs_ce_effect (offset : nat) (st : IFSValidator.t * list (str * nat))
    (i : nat) (b : block_line) : IFSValidator.t * list (str * nat) :=
  match b with
  | CS_line identifier f =>
      match span_not CARET identifier with
      | [] =>
          (IFSValidator.errors_append
             (IFSValidator.line_prefix (i + offset + 1)
                ++ lit "Malformed CS line: " ++ line_text b) (fst st),
           snd st)
      | g => (fst st, snd st ++ [(g, i + offset + 1)])
      end
  | CE_line =>
      match snd st with
      | [] =>
          (IFSValidator.errors_append
             (IFSValidator.line_prefix (i + offset + 1)
                ++ lit "CE without matching CS") (fst st),
           snd st)
      | _ :: _ => (fst st, removelast (snd st))
      end
  | _ => st
  end.

(** An identifier the validator accepts on a [CS:] line of either kind: not
    empty and without a caret. *)
Definition identifier_ok (identifier : str) : bool :=
  match identifier with [] => false | _ :: _ => negb (has_char CARET identifier) end.

(** A line that passes the checks of the definition kind. *)
Definition lng_line_ok (b : block_line) : bool :=
  match b with
  | CS_line identifier f =>
      identifier_ok identifier && (fields_carets f =? 4)
  | _ => true
  end.

(** A line that passes the checks of the translation kind. *)
Definition trs_line_ok (b : block_line) : bool :=
  match b with
  | CS_line identifier f =>
      identifier_ok identifier && (fields_carets f =? 1)
  | _ => true
  end.

(** The identifier or label a line carries has no line break. *)
Definition line_single (b : block_line) : bool :=
  match b with
  | CS_line identifier _ => single_line identifier
  | Prompt_line label => single_line label
  | P_line label => single_line label
  | CE_line => true
  end.

(** ** Well-formed input of the encoders *)

(** A column the encoders write (a custom one) has an accepted identifier,
    and neither it nor the label has a line break. *)
Definition column_ok (c : Column) : bool :=
  negb (is_custom c)
  || identifier_ok (col_control c) && single_line (col_control c)
     && single_line (col_label c).

Definition view_ok (v : View) : bool :=
  identifier_ok (view_control v) && single_line (view_control v)
  && forallb (fun item => column_ok (snd item)) (columns v).

Definition lu_ok (lu : LogicalUnit) : bool :=
  identifier_ok (lu_name lu) && single_line (lu_name lu)
  && single_line (lu_label lu)
  && forallb (fun item => view_ok (snd item)) (views lu).

Definition tree_ok (data : ResourceTree) : bool :=
  forallb (fun item => lu_ok (snd item)) (logical_units data).

(** The translated labels the translation encoder writes have no line
    break. *)
Definition translations_ok (tr : gmap (list N) (list N)) (data : ResourceTree)
    : bool :=
  forallb
    (fun lu =>
       forallb
         (fun v =>
            forallb
              (fun c =>
                 negb (is_custom (snd c))
                 || single_line (translations_get tr (col_label (snd c))))
              (columns (snd v)))
         (views (snd lu)))
    (logical_units data).

(** The fields of the header have no line break. *)
Definition lng_header_ok (g : LNGGenerator.t) : bool :=
  forallb single_line
    [ LNGGenerator.module g; LNGGenerator.layer g;
      LNGGenerator.main_type g; LNGGenerator.sub_type g ].

Definition trs_header_ok (g : TRSGenerator.t) : bool :=
  forallb single_line
    [ TRSGenerator.module g; TRSGenerator.lang_code g; TRSGenerator.culture g;
      TRSGenerator.layer g; TRSGenerator.main_type g; TRSGenerator.sub_type g ].

(** ** Strings that the encoders write *)

(** The identifier or label that a line carries satisfies [p]. *)
Definition line_holds (p : str -> bool) (b : block_line) : bool :=
  match b with
  | CS_line identifier _ => p identifier
  | Prompt_line label => p label
  | P_line label => p label
  | CE_line => true
  end.

(** Every string of the tree that an encoder writes satisfies [p]: the name
    and the label of every logical unit, the control of every view, the
    control and the label of every custom column. *)
Definition column_written (p : str -> bool) (c : Column) : bool :=
  negb (is_custom c) || p (col_control c) && p (col_label c).

Definition view_written (p : str -> bool) (v : View) : bool :=
  p (view_control v)
  && forallb (fun item => column_written p (snd item)) (columns v).

Definition lu_written (p : str -> bool) (lu : LogicalUnit) : bool :=
  p (lu_name lu) && p (lu_label lu)
  && forallb (fun item => view_written p (snd item)) (views lu).

Definition tree_written (p : str -> bool) (data : ResourceTree) : bool :=
  forallb (fun item => lu_written p (snd item)) (logical_units data).

(** Every translated label that the translation encoder writes satisfies
    [p]. *)
Definition translated_written (p : str -> bool) (tr : gmap (list N) (list N))
    (data : ResourceTree) : bool :=
  forallb
    (fun lu =>
       forallb
         (fun v =>
            forallb
              (fun c =>
                 negb (is_custom (snd c))
                 || p (translations_get tr (col_label (snd c))))
              (columns (snd v)))
         (views (snd lu)))
    (logical_units data).

(** The fields that the headers are made of. *)
Definition lng_header_fields (g : LNGGenerator.t) : list str :=
  [ LNGGenerator.module g; LNGGenerator.layer g;
    LNGGenerator.main_type g; LNGGenerator.sub_type g ].


(** The line is one that begins, trimmed, with [CS:]. *)
Definition starts_block (line : str) : bool :=
  startswith (strip line) (lit "CS:").

(** What [validate_file] computes from the lines of a file of a known
    kind. *)
Definition check_lines (is_lng : bool) (lines : list str) : IFSValidator.verdict :=
  let self := IFSValidator._validate_header lines is_lng IFSValidator.init in
  match IFSValidator._find_content_start lines with
  | None =>
      let self :=
        IFSValidator.errors_append (lit "Could not find content section") self in
      (false, IFSValidator.errors self, IFSValidator.warnings self)
  | Some content_start =>
      let content := skipn content_start lines in
      let self := IFSValidator._validate_cs_ce_pairing content content_start self in
      let self := IFSValidator._validate_indentation content content_start self in
      let self :=
        if is_lng
        then IFSValidator._validate_lng_structure content content_start self
        else IFSValidator._validate_trs_structure content content_start self in
      (length (IFSValidator.errors self) =? 0,
       IFSValidator.errors self, IFSValidator.warnings self)
  end.

(** The stack of open blocks when the pairing loop of [validate_file] ends,
    if the file has a content section. *)
Definition stack_at_end (lines : list str) : option (list (str * nat)) :=
  match IFSValidator._find_content_start lines with
  | None => None
  | Some content_start =>
      Some (snd (IFSValidator.cs_ce_scan (skipn content_start lines) content_start
                   IFSValidator.init))
  end.

(** A line passes the checks of its kind and is written on one line. *)
Definition lng_item_ok (it : nat * block_line) : bool :=
  lng_line_ok (snd it) && line_single (snd it).

Definition trs_item_ok (it : nat * block_line) : bool :=
  trs_line_ok (snd it) && line_single (snd it).

(** ** Files that differ in translated labels only *)

(** A prompt line as the validator reads it, with a label on one line. *)
Definition quiet (l : str) : Prop :=
  exists d label, l = as_read (render (d, Prompt_line label)).

(** Two lines are the same, or both are prompt lines. *)
Definition same_or_quiet (x y : str) : Prop := x = y \/ (quiet x /\ quiet y).

(** Two written lines are the same, or prompt lines at one depth whose
    labels have no line break. *)
Definition same_or_prompt (x y : nat * block_line) : Prop :=
  x = y
  \/ exists d label label',
       x = (d, Prompt_line label) /\ y = (d, Prompt_line label')
       /\ single_line label = true /\ single_line label' = true.

(** Two lists are related element by element and equal on their first [k]
    elements. *)
Definition agree {A} (R : A -> A -> Prop) (k : nat) (l l' : list A) : Prop :=
  Forall2 R l l' /\ firstn k l = firstn k l'.

(** ** Inputs that the round trip rejects *)



(** The tree is filtered: only custom columns, no view without a column, no
    logical unit without a view. *)
Definition custom_only (data : ResourceTree) : bool :=
  forallb
    (fun lu =>
       negb (length (views (snd lu)) =? 0)
       && forallb
            (fun v =>
               negb (length (columns (snd v)) =? 0)
               && forallb (fun c => is_custom (snd c)) (columns (snd v)))
            (views (snd lu)))
    (logical_units data).


(** A translation with a line break in it. *)
Definition broken_translations : gmap (list N) (list N) :=
  {[ lit "Test Field" := lit "Test" ++ [LF] ++ lit "Field" ]}.


(** A translation that is a lone surrogate, U+D800, as [json.load] returns
    it for the escape [\ud800]. *)
Definition surrogate_translations : gmap (list N) (list N) :=
  {[ lit "Test Field" := [55296%N] ]}.

(** The tree of the scenarios, its logical unit with a line break in its
    name. *)
Definition split_name_data : ResourceTree :=
  {| tree_module := lit "ESSPRO"; tree_layer := lit "Cust";
     logical_units :=
       [ (lit "TestLU",
          {| lu_name := lit "Order" ++ [LF] ++ lit "Line";
             lu_label := lit "Test Logical Unit";
             views := [ (lit "TEST_VIEW", TEST_VIEW) ] |}) ] |}.

(** The identifiers of the nodes of a tree. *)
Definition identifiers (data : ResourceTree) : list str :=
  flat_map
    (fun lu =>
       lu_name (snd lu)
       :: flat_map
            (fun v =>
               view_control (snd v)
               :: map (fun c => col_control (snd c)) (columns (snd v)))
            (views (snd lu)))
    (logical_units data).


Definition malformed_CS_text : str :=
  lit "CS:A^LU" ++ crlf ++ lit "CS:^LU" ++ crlf
  ++ lit "CE:" ++ crlf ++ lit "CE:" ++ crlf.

(** ** Dicts that are built *)

(** [d[k] = v] on a dict given by its items in insertion order: the value of
    a key that is there is replaced where it stands, and a new key goes to
    the end. *)
Fixpoint dict_set {V} (k : str) (v : V) (d : list (str * V)) : list (str * V) :=
  match d with
  | [] => [(k, v)]
  | (k', v') :: r =>
      if str_eqb k' k then (k', v) :: r else (k', v') :: dict_set k v r
  end.

(** The keys of a tree are distinct at every level, as they are in the
    dicts that the tree stands for. *)
Definition keys_distinct (data : ResourceTree) : Prop :=
  NoDup (map fst (logical_units data))
  /\ Forall
       (fun lu =>
          NoDup (map fst (views (snd lu)))
          /\ Forall (fun v => NoDup (map fst (columns (snd v)))) (views (snd lu)))
       (logical_units data).

(** ** [parser.py] *)

Module IFSXMLParser.

(** The dict comprehension of [extract_custom_fields]: the columns of a view
    that are custom. *)
Definition custom_columns_of (view_data : View) : list (str * Column) :=
  fold_left
    (fun custom_columns col =>
       if is_custom (snd col)
       then dict_set (fst col) (snd col) custom_columns
       else custom_columns)
    (columns view_data) [].

(** The loop over the views of a logical unit: [filtered_lu['views']] when
    it ends. *)
Definition filtered_views (lu_data : LogicalUnit) : list (str * View) :=
  fold_left
    (fun views view =>
       let custom_columns := custom_columns_of (snd view) in
       match custom_columns with
       | [] => views
       | _ :: _ =>
           dict_set (fst view)
             {| view_control := view_control (snd view);
                view_label := view_label (snd view);
                columns := custom_columns |}
             views
       end)
    (views lu_data) [].

(** [extract_custom_fields].  The entries ['id'], ['type'] and ['version'],
    which are copied as they are and which no generator reads, are not part
    of the records. *)
Definition extract_custom_fields (parsed_data : ResourceTree) : ResourceTree :=
  {| tree_module := tree_module parsed_data;
     tree_layer := tree_layer parsed_data;
     logical_units :=
       fold_left
         (fun logical_units lu =>
            let filtered_lu :=
              {| lu_name := lu_name (snd lu);
                 lu_label := lu_label (snd lu);
                 views := filtered_views (snd lu) |} in
            match views filtered_lu with
            | [] => logical_units
            | _ :: _ => dict_set (fst lu) filtered_lu logical_units
            end)
         (logical_units parsed_data) [] |}.

(** The dict [stats] of [get_statistics]. *)
Record Statistics := {
  total_logical_units : nat;
  total_views : nat;
  total_columns : nat;
  custom_columns : nat;
  standard_columns : nat
}.

(** The innermost loop body of [get_statistics]. *)
Definition count_column (stats : Statistics) (col : str * Column) : Statistics :=
  let stats :=
    {| total_logical_units := total_logical_units stats;
       total_views := total_views stats;
       total_columns := total_columns stats + 1;
       custom_columns := custom_columns stats;
       standard_columns := standard_columns stats |} in
  if is_custom (snd col) then
    {| total_logical_units := total_logical_units stats;
       total_views := total_views stats;
       total_columns := total_columns stats;
       custom_columns := custom_columns stats + 1;
       standard_columns := standard_columns stats |}
  else
    {| total_logical_units := total_logical_units stats;
       total_views := total_views stats;
       total_columns := total_columns stats;
       custom_columns := custom_columns stats;
       standard_columns := standard_columns stats + 1 |}.

Definition count_view (stats : Statistics) (view : str * View) : Statistics :=
  let stats :=
    {| total_logical_units := total_logical_units stats;
       total_views := total_views stats + 1;
       total_columns := total_columns stats;
       custom_columns := custom_columns stats;
       standard_columns := standard_columns stats |} in
  fold_left count_column (columns (snd view)) stats.

Definition count_logical_unit (stats : Statistics) (lu : str * LogicalUnit)
    : Statistics :=
  let stats :=
    {| total_logical_units := total_logical_units stats + 1;
       total_views := total_views stats;
       total_columns := total_columns stats;
       custom_columns := custom_columns stats;
       standard_columns := standard_columns stats |} in
  fold_left count_view (views (snd lu)) stats.

Definition get_statistics (parsed_data : ResourceTree) : Statistics :=
  fold_left count_logical_unit (logical_units parsed_data)
    {| total_logical_units := 0; total_views := 0; total_columns := 0;
       custom_columns := 0; standard_columns := 0 |}.

End IFSXMLParser.

(** What the loops of [extract_custom_fields] keep of a column, of a view
    and of a logical unit. *)
Definition kept_column (col : str * Column) : option Column :=
  if is_custom (snd col) then Some (snd col) else None.

Definition kept_view (view : str * View) : option View :=
  match IFSXMLParser.custom_columns_of (snd view) with
  | [] => None
  | _ :: _ =>
      Some {| view_control := view_control (snd view);
              view_label := view_label (snd view);
              columns := IFSXMLParser.custom_columns_of (snd view) |}
  end.

Definition kept_lu (lu : str * LogicalUnit) : option LogicalUnit :=
  match IFSXMLParser.filtered_views (snd lu) with
  | [] => None
  | _ :: _ =>
      Some {| lu_name := lu_name (snd lu);
              lu_label := lu_label (snd lu);
              views := IFSXMLParser.filtered_views (snd lu) |}
  end.

(** A view, and a logical unit, as the filter leaves them: not empty, and
    with custom columns only. *)
Definition view_filtered (v : View) : bool :=
  negb (length (columns v) =? 0)
  && forallb (fun c => is_custom (snd c)) (columns v).

Definition lu_filtered (lu : LogicalUnit) : bool :=
  negb (length (views lu) =? 0)
  && forallb (fun v => view_filtered (snd v)) (views lu).

Definition lu_keys_distinct (lu : LogicalUnit) : Prop :=
  NoDup (map fst (views lu))
  /\ Forall (fun v => NoDup (map fst (columns (snd v)))) (views lu).



(** ** [translator.py], the dictionary backend *)

Module IFSTranslator.

(** The dictionary [term_dict] that [_translate_with_dictionary] uses.
    [loaded] is what [_load_dictionary_file] returns when a dictionary
    directory is set, and [None] when none is set; [builtin] is what
    [_get_builtin_terms] returns for the language. *)
Definition term_dict (loaded : option (gmap (list N) (list N)))
    (builtin : gmap (list N) (list N)) : gmap (list N) (list N) :=
  match loaded with
  | Some loaded => if bool_decide (loaded = ∅) then builtin else loaded
  | None => builtin
  end.

Definition _translate_with_dictionary (loaded : option (gmap (list N) (list N)))
    (builtin : gmap (list N) (list N)) (texts : list str)
    : gmap (list N) (list N) :=
  let term_dict := term_dict loaded builtin in
  fold_left
    (fun translations text =>
       <[ text := default text (term_dict !! text) ]> translations)
    texts ∅.

(** The first loop of [translate_batch]: the texts found in the cache, with
    their cached translations, and the texts still to translate. *)
Definition from_cache (cached : gmap (list N) (list N)) (texts : list str)
    : gmap (list N) (list N) * list str :=
  fold_left
    (fun st text =>
       match cached !! text with
       | Some translated => (<[ text := translated ]> (fst st), snd st)
       | None => (fst st, snd st ++ [text])
       end)
    texts (∅, []).

(** [translate_batch]: the returned dict and [self.translation_cache]
    afterwards.  [backend texts language] is what the backend in use
    returns for the texts that are not cached. *)
Definition translate_batch
    (backend : list str -> str -> gmap (list N) (list N))
    (translation_cache : gmap (list N) (gmap (list N) (list N)))
    (texts : list str) (target_language : str)
    : gmap (list N) (list N) * gmap (list N) (gmap (list N) (list N)) :=
  let cache_key := target_language in
  let translation_cache :=
    match translation_cache !! cache_key with
    | None => <[ cache_key := ∅ ]> translation_cache
    | Some _ => translation_cache
    end in
  let cached := default ∅ (translation_cache !! cache_key) in
  let (translations, texts_to_translate) := from_cache cached texts in
  match texts_to_translate with
  | [] => (translations, translation_cache)
  | _ :: _ =>
      let new_translations := backend texts_to_translate target_language in
      (new_translations ∪ translations,
       <[ cache_key := new_translations ∪ cached ]> translation_cache)
  end.

End IFSTranslator.

(** ** The shape of a content section *)

(** What the pairing loop does with a line. *)
Inductive line_kind := Opens | Malformed | Closes | Other.

Definition classify (line : str) : line_kind :=
  let stripped := strip line in
  if startswith stripped (lit "CS:") then
    match re_match_CS stripped with
    | Some _ => Opens
    | None => Malformed
    end
  else if startswith stripped (lit "CE:") then Closes
  else Other.

(** The lines are balanced from [depth] open blocks on: no opening line is
    malformed, no closing line comes with no block open, and no block is
    open at the end. *)
Fixpoint balanced_from (depth : nat) (kinds : list line_kind) : bool :=
  match kinds with
  | [] => depth =? 0
  | Opens :: rest => balanced_from (S depth) rest
  | Malformed :: _ => false
  | Closes :: rest =>
      match depth with
      | 0 => false
      | S depth => balanced_from depth rest
      end
  | Other :: rest => balanced_from depth rest
  end.

(** The indentation loop warns about this line: it is not blank and its
    first character is a space. *)
Definition space_indented (line : str) : bool :=
  match strip line with
  | [] => false
  | _ :: _ => match line with c :: _ => (c =? SPACE)%N | [] => false end
  end.

(** The views and the columns of a tree, in the order of the loops that go
    through them, and the labels of its custom columns. *)
Definition all_views (data : ResourceTree) : list (str * View) :=
  flat_map (fun lu => views (snd lu)) (logical_units data).

Definition all_columns (data : ResourceTree) : list (str * Column) :=
  flat_map (fun v => columns (snd v)) (all_views data).

Definition custom_labels (data : ResourceTree) : list str :=
  map (fun c => col_label (snd c))
    (List.filter (fun c => is_custom (snd c)) (all_columns data)).

(** The counters [stats], with so many logical units, views and columns
    more. *)
Definition counted (stats : IFSXMLParser.Statistics) (lus vs : nat)
    (cols : list (str * Column)) : IFSXMLParser.Statistics :=
  {| IFSXMLParser.total_logical_units :=
       IFSXMLParser.total_logical_units stats + lus;
     IFSXMLParser.total_views := IFSXMLParser.total_views stats + vs;
     IFSXMLParser.total_columns := IFSXMLParser.total_columns stats + length cols;
     IFSXMLParser.custom_columns :=
       IFSXMLParser.custom_columns stats
       + length (List.filter (fun c => is_custom (snd c)) cols);
     IFSXMLParser.standard_columns :=
       IFSXMLParser.standard_columns stats
       + length (List.filter (fun c => negb (is_custom (snd c))) cols) |}.

(** A tree with a standard column beside the custom one, a view without a
    custom column and a logical unit without one. *)
Definition mixed_data : ResourceTree :=
  {| tree_module := lit "ESSPRO"; tree_layer := lit "Cust";
     logical_units :=
       [ (lit "TestLU",
          {| lu_name := lit "TestLU"; lu_label := lit "Test Logical Unit";
             views :=
               [ (lit "TEST_VIEW",
                  {| view_control := lit "TEST_VIEW"; view_label := lit "Test View";
                     columns :=
                       [ (lit "PART_NO",
                          {| col_control := lit "PART_NO"; col_label := lit "Part No";
                             is_custom := false |});
                         (lit "C_TEST_FIELD", C_TEST_FIELD) ] |});
                 (lit "PLAIN_VIEW",
                  {| view_control := lit "PLAIN_VIEW"; view_label := lit "Plain View";
                     columns :=
                       [ (lit "PART_NO",
                          {| col_control := lit "PART_NO"; col_label := lit "Part No";
                             is_custom := false |}) ] |}) ] |});
         (lit "PlainLU",
          {| lu_name := lit "PlainLU"; lu_label := lit "Plain Logical Unit";
             views := [] |}) ] |}.


(** The dictionary backend with the terms of the scenario built in and no
    dictionary directory. *)
Definition dictionary_backend (texts : list str) (target_language : str)
    : gmap (list N) (list N) :=
  IFSTranslator._translate_with_dictionary None test_translations texts.

(** * Properties *)

(** ** Strings *)

Lemma lstrip_cons_nonspace c r : isspace c = false -> lstrip (c :: r) = c :: r.
Proof. intros H. simpl. rewrite H. reflexivity. Qed.

Lemma lstrip_app_nonspace x c y :
  isspace c = false -> lstrip (x ++ c :: y) = lstrip x ++ c :: y.
Proof.
  intros H. induction x as [|a x IH]; simpl.
  - rewrite H. reflexivity.
  - destruct (isspace a); [exact IH | reflexivity].
Qed.

Lemma lstrip_spaces pre s :
  forallb isspace pre = true -> lstrip (pre ++ s) = lstrip s.
Proof.
  induction pre as [|a pre IH]; simpl; [reflexivity|].
  intros H. apply andb_true_iff in H as [Ha Hp]. rewrite Ha. auto.
Qed.

Lemma lstrip_all_spaces s : forallb isspace s = true -> lstrip s = [].
Proof.
  intros H. rewrite <- (app_nil_r s). rewrite lstrip_spaces by exact H. reflexivity.
Qed.

Lemma rstrip_app_nonspace x c y :
  isspace c = false -> rstrip (x ++ c :: y) = x ++ c :: rstrip y.
Proof.
  intros H. unfold rstrip.
  rewrite rev_app_distr. simpl. rewrite <- app_assoc. simpl.
  rewrite lstrip_app_nonspace by exact H.
  rewrite rev_app_distr. simpl. rewrite rev_involutive.
  rewrite <- app_assoc. reflexivity.
Qed.

Lemma forallb_rev {A} (f : A -> bool) l : forallb f (rev l) = forallb f l.
Proof.
  induction l as [|a l IH]; simpl; [reflexivity|].
  rewrite forallb_app, IH. simpl. rewrite andb_true_r. apply andb_comm.
Qed.

Lemma rstrip_all_spaces s : forallb isspace s = true -> rstrip s = [].
Proof.
  intros H. unfold rstrip. rewrite lstrip_all_spaces; [reflexivity|].
  rewrite forallb_rev. exact H.
Qed.

(** A text framed by white space is what [strip] returns, when its first
    and its last character are not white space. *)
Lemma strip_framed pre c mid c' post :
  forallb isspace pre = true -> forallb isspace post = true ->
  isspace c = false -> isspace c' = false ->
  strip (pre ++ (c :: mid ++ [c']) ++ post) = c :: mid ++ [c'].
Proof.
  intros Hpre Hpost Hc Hc'. unfold strip.
  rewrite lstrip_spaces by exact Hpre.
  simpl. rewrite Hc.
  change (c :: (mid ++ [c']) ++ post) with ((c :: mid ++ [c']) ++ post).
  replace ((c :: mid ++ [c']) ++ post) with ((c :: mid) ++ c' :: post)
    by (simpl; rewrite <- app_assoc; reflexivity).
  rewrite rstrip_app_nonspace by exact Hc'.
  rewrite rstrip_all_spaces by exact Hpost. reflexivity.
Qed.

Lemma strip_framed1 pre c post :
  forallb isspace pre = true -> forallb isspace post = true ->
  isspace c = false ->
  strip (pre ++ [c] ++ post) = [c].
Proof.
  intros Hpre Hpost Hc. unfold strip.
  rewrite lstrip_spaces by exact Hpre.
  simpl. rewrite Hc.
  change (c :: post) with ([] ++ c :: post).
  rewrite rstrip_app_nonspace by exact Hc.
  rewrite rstrip_all_spaces by exact Hpost. reflexivity.
Qed.

Lemma forallb_isspace_tabs d : forallb isspace (str_mul TAB d) = true.
Proof. induction d; simpl; auto. Qed.

Lemma startswith_app s p : startswith (p ++ s) p = true.
Proof.
  induction p as [|a p IH]; simpl; [reflexivity|].
  rewrite N.eqb_refl. exact IH.
Qed.

Lemma startswith_app_l s t p :
  startswith s p = true -> startswith (s ++ t) p = true.
Proof.
  revert s. induction p as [|a p IH]; intros s; simpl; [reflexivity|].
  destruct s as [|b s]; simpl; [discriminate|].
  intros H. apply andb_true_iff in H as [H1 H2].
  rewrite H1. simpl. auto.
Qed.

Lemma startswith_spec s p :
  startswith s p = true <-> exists r, s = p ++ r.
Proof.
  split.
  - revert s. induction p as [|a p IH]; intros s; simpl.
    + exists s. reflexivity.
    + destruct s as [|b s]; [discriminate|].
      intros H. apply andb_true_iff in H as [H1 H2].
      apply N.eqb_eq in H1. subst b.
      destruct (IH _ H2) as [r ->]. exists r. reflexivity.
  - intros [r ->]. apply startswith_app.
Qed.

Lemma str_in_prefix p s : startswith s p = true -> str_in p s = true.
Proof. intros H. destruct s; simpl; rewrite H; reflexivity. Qed.

Lemma str_in_app_l p a b : str_in p a = true -> str_in p (a ++ b) = true.
Proof.
  induction a as [|x a IH]; simpl.
  - rewrite orb_false_r. intros H. apply str_in_prefix.
    destruct p; [reflexivity | discriminate].
  - intros H. apply orb_true_iff in H as [H|H].
    + change (x :: a ++ b) with ((x :: a) ++ b).
      rewrite (startswith_app_l _ _ _ H). reflexivity.
    + rewrite (IH H). apply orb_true_r.
Qed.

Lemma str_in_app_r p a b : str_in p b = true -> str_in p (a ++ b) = true.
Proof.
  intros H. induction a as [|x a IH]; simpl; [exact H|].
  rewrite IH. apply orb_true_r.
Qed.

(** Occurrences of a character. *)
Lemma length_split s c :
  length (split s c) = S (length (List.filter (N.eqb c) s)).
Proof.
  induction s as [|x s IH]; [reflexivity|].
  cbn [split List.filter].
  destruct (N.eqb_spec x c) as [->|Hne].
  - rewrite N.eqb_refl. cbn [length]. rewrite IH. reflexivity.
  - assert (Hf : (c =? x)%N = false) by (apply N.eqb_neq; congruence).
    rewrite Hf.
    destruct (split s c) as [|h t]; cbn [length] in *; [discriminate | exact IH].
Qed.

Lemma endswith_snoc s c : endswith (s ++ [c]) [c] = true.
Proof.
  unfold endswith. rewrite rev_app_distr. simpl. rewrite N.eqb_refl. reflexivity.
Qed.

Lemma span_not_app c s t :
  forallb (fun x => negb (x =? c)%N) s = true ->
  span_not c (s ++ c :: t) = s.
Proof.
  induction s as [|x s IH]; simpl.
  - rewrite N.eqb_refl. reflexivity.
  - intros H. apply andb_true_iff in H as [H1 H2].
    apply negb_true_iff in H1. rewrite H1. f_equal. auto.
Qed.

(** ** Reading lines *)

Lemma has_char_app c s t : has_char c (s ++ t) = has_char c s || has_char c t.
Proof. apply existsb_app. Qed.

Lemma single_line_app s t :
  single_line (s ++ t) = single_line s && single_line t.
Proof.
  unfold single_line. rewrite !has_char_app.
  destruct (has_char CR s), (has_char LF s), (has_char CR t), (has_char LF t);
    reflexivity.
Qed.

Lemma single_line_cons c s :
  single_line (c :: s) = negb (c =? CR)%N && negb (c =? LF)%N && single_line s.
Proof.
  unfold single_line, has_char. cbn [existsb].
  rewrite (N.eqb_sym CR c), (N.eqb_sym LF c).
  destruct (c =? CR)%N, (c =? LF)%N, (existsb (N.eqb CR) s), (existsb (N.eqb LF) s);
    reflexivity.
Qed.

Lemma universal_newlines_single s t :
  single_line s = true ->
  universal_newlines (s ++ t) = s ++ universal_newlines t.
Proof.
  induction s as [|c s IH]; [reflexivity|].
  rewrite single_line_cons. intros H.
  apply andb_true_iff in H as [H Hs]. apply andb_true_iff in H as [Hc _].
  apply negb_true_iff in Hc.
  cbn [app universal_newlines]. rewrite Hc. f_equal. auto.
Qed.

Lemma universal_newlines_crlf b :
  universal_newlines (crlf ++ b) = LF :: universal_newlines b.
Proof. reflexivity. Qed.

Lemma universal_newlines_cut_bounded n : forall p b,
  length p <= n ->
  universal_newlines (p ++ crlf ++ b)
  = universal_newlines (p ++ crlf) ++ universal_newlines b.
Proof.
  induction n as [|n IH]; intros p b Hn.
  - destruct p; [reflexivity | simpl in Hn; lia].
  - destruct p as [|c p]; [reflexivity|].
    simpl in Hn.
    cbn [app universal_newlines].
    destruct (c =? CR)%N.
    + destruct p as [|c' p].
      * reflexivity.
      * cbn [app]. simpl in Hn.
        destruct (c' =? LF)%N.
        -- rewrite IH by lia. reflexivity.
        -- change (c' :: p ++ crlf ++ b) with ((c' :: p) ++ crlf ++ b).
           change (c' :: p ++ crlf) with ((c' :: p) ++ crlf).
           rewrite IH by (simpl; lia). reflexivity.
    + rewrite IH by lia. reflexivity.
Qed.

Lemma universal_newlines_cut p b :
  universal_newlines (p ++ crlf ++ b)
  = universal_newlines (p ++ crlf) ++ universal_newlines b.
Proof. apply (universal_newlines_cut_bounded (length p)). lia. Qed.

Lemma universal_newlines_ends_bounded n : forall p,
  length p <= n -> exists q, universal_newlines (p ++ crlf) = q ++ [LF].
Proof.
  induction n as [|n IH]; intros p Hn.
  - destruct p; [exists []; reflexivity | simpl in Hn; lia].
  - destruct p as [|c p]; [exists []; reflexivity|].
    simpl in Hn.
    cbn [app universal_newlines].
    destruct (c =? CR)%N.
    + destruct p as [|c' p].
      * exists [LF]. reflexivity.
      * cbn [app]. simpl in Hn.
        destruct (c' =? LF)%N.
        -- destruct (IH p ltac:(lia)) as [q Hq]. rewrite Hq.
           exists (LF :: q). reflexivity.
        -- change (c' :: p ++ crlf) with ((c' :: p) ++ crlf).
           destruct (IH (c' :: p) ltac:(simpl; lia)) as [q Hq]. rewrite Hq.
           exists (LF :: q). reflexivity.
    + destruct (IH p ltac:(lia)) as [q Hq]. rewrite Hq.
      exists (c :: q). reflexivity.
Qed.

Lemma universal_newlines_ends p :
  exists q, universal_newlines (p ++ crlf) = q ++ [LF].
Proof. apply (universal_newlines_ends_bounded (length p)). lia. Qed.

Lemma keepends_nonempty s : s <> [] -> keepends s <> [].
Proof.
  destruct s as [|c s]; [congruence|]. intros _.
  cbn [keepends]. destruct (c =? LF)%N; [discriminate|].
  destruct (keepends s); discriminate.
Qed.

Lemma keepends_cut q b :
  keepends (q ++ LF :: b) = keepends (q ++ [LF]) ++ keepends b.
Proof.
  induction q as [|c q IH]; [reflexivity|].
  cbn [app keepends].
  destruct (c =? LF)%N.
  - rewrite IH. reflexivity.
  - rewrite IH.
    destruct (keepends (q ++ [LF])) as [|l ls] eqn:E.
    + exfalso. revert E. apply keepends_nonempty. destruct q; discriminate.
    + reflexivity.
Qed.

Lemma keepends_single q :
  has_char LF q = false -> keepends (q ++ [LF]) = [q ++ [LF]].
Proof.
  induction q as [|c q IH]; [reflexivity|].
  unfold has_char. cbn [existsb]. intros H.
  apply orb_false_iff in H as [Hc Hq].
  rewrite N.eqb_sym in Hc.
  cbn [app keepends]. rewrite Hc. rewrite (IH Hq). reflexivity.
Qed.

Lemma readlines_cut p b :
  readlines (p ++ crlf ++ b) = readlines (p ++ crlf) ++ readlines b.
Proof.
  unfold readlines. rewrite universal_newlines_cut.
  destruct (universal_newlines_ends p) as [q ->].
  rewrite <- app_assoc. cbn [app]. apply keepends_cut.
Qed.

Lemma readlines_nonempty p : readlines (p ++ crlf) <> [].
Proof.
  unfold readlines. destruct (universal_newlines_ends p) as [q ->].
  apply keepends_nonempty. destruct q; discriminate.
Qed.

Lemma readlines_single p :
  single_line p = true -> readlines (p ++ crlf) = [as_read p].
Proof.
  intros H. unfold readlines.
  rewrite universal_newlines_single by exact H.
  cbn [universal_newlines crlf]. change (CR =? CR)%N with true. cbn iota.
  change (LF =? LF)%N with true. cbn iota.
  apply keepends_single.
  unfold single_line in H. apply andb_true_iff in H as [_ H].
  apply negb_true_iff in H. exact H.
Qed.

(** The lines of a text made of segments that each end in ['\r\n']. *)
Lemma readlines_segments (segs : list str) :
  readlines (concat (map (fun s => s ++ crlf) segs))
  = concat (map (fun s => readlines (s ++ crlf)) segs).
Proof.
  induction segs as [|s segs IH]; [reflexivity|].
  cbn [map concat]. rewrite <- app_assoc, readlines_cut, IH. reflexivity.
Qed.

Lemma readlines_single_segments (segs : list str) :
  forallb single_line segs = true ->
  readlines (concat (map (fun s => s ++ crlf) segs)) = map as_read segs.
Proof.
  intros H. rewrite readlines_segments.
  induction segs as [|s segs IH]; [reflexivity|].
  cbn [forallb] in H. apply andb_true_iff in H as [Hs H].
  cbn [map concat]. rewrite readlines_single by exact Hs. rewrite IH by exact H.
  reflexivity.
Qed.

(** ** The encoders, line by line *)

Lemma join_empty_sep l : join [] l = concat l.
Proof.
  induction l as [|x l IH]; [reflexivity|].
  cbn [join concat]. destruct l as [|y l].
  - cbn [concat]. rewrite app_nil_r. reflexivity.
  - rewrite IH. reflexivity.
Qed.

Lemma join_terminated sep l :
  l <> [] -> join sep l ++ sep = concat (map (fun s => s ++ sep) l).
Proof.
  induction l as [|x l IH]; [congruence|]. intros _.
  cbn [join map concat]. destruct l as [|y l].
  - cbn [map concat]. rewrite app_nil_r. reflexivity.
  - rewrite <- !app_assoc. rewrite IH by discriminate. reflexivity.
Qed.

Lemma fold_left_extend {A B} (f : A -> list B) (l : list A) (acc : list B) :
  fold_left (fun lines x => lines ++ f x) l acc = acc ++ flat_map f l.
Proof.
  revert acc. induction l as [|x l IH]; intros acc; cbn [fold_left flat_map].
  - rewrite app_nil_r. reflexivity.
  - rewrite IH, <- app_assoc. reflexivity.
Qed.

Lemma fold_left_extend_if {A B} (c : A -> bool) (f : A -> list B)
    (l : list A) (acc : list B) :
  fold_left (fun lines x => if c x then lines ++ f x else lines) l acc
  = acc ++ flat_map (fun x => if c x then f x else []) l.
Proof.
  revert acc. induction l as [|x l IH]; intros acc; cbn [fold_left flat_map].
  - rewrite app_nil_r. reflexivity.
  - rewrite IH. destruct (c x).
    + rewrite <- app_assoc. reflexivity.
    + reflexivity.
Qed.

Lemma map_flat_map {A B C} (g : B -> C) (f : A -> list B) (l : list A) :
  map g (flat_map f l) = flat_map (fun x => map g (f x)) l.
Proof.
  induction l as [|x l IH]; [reflexivity|].
  cbn [flat_map]. rewrite map_app, IH. reflexivity.
Qed.

Lemma str_mul_succ c n : str_mul c n ++ [c] = str_mul c (S n).
Proof. unfold str_mul. symmetry. apply repeat_cons. Qed.

Lemma emit_indented d b :
  emit (d, b) = str_mul TAB d ++ line_text b ++ crlf.
Proof. unfold emit, render. cbn [fst snd]. rewrite <- app_assoc. reflexivity. Qed.

Lemma emit_indented_succ d b :
  emit (S d, b) = str_mul TAB d ++ [TAB] ++ line_text b ++ crlf.
Proof. rewrite emit_indented, <- str_mul_succ, <- app_assoc. reflexivity. Qed.

Lemma lng_column_block c d :
  LNGGenerator._generate_column_block c d = map emit (lng_column_items c d).
Proof.
  unfold LNGGenerator._generate_column_block, lng_column_items.
  cbn [map]. rewrite !emit_indented_succ, !emit_indented.
  cbn [line_text fields_text]. rewrite <- !app_assoc. reflexivity.
Qed.

Lemma lng_view_block v d :
  LNGGenerator._generate_view_block v d = map emit (lng_view_items v d).
Proof.
  unfold LNGGenerator._generate_view_block, lng_view_items.
  rewrite (fold_left_extend_if (fun item => is_custom (snd item))
             (fun item => LNGGenerator._generate_column_block (snd item) (d + 1))).
  cbn [map app]. rewrite map_app, map_flat_map. cbn [map].
  rewrite !emit_indented. cbn [line_text fields_text]. rewrite <- !app_assoc.
  f_equal. f_equal.
  apply flat_map_ext. intros [k c]. cbn [snd].
  destruct (is_custom c); [apply lng_column_block | reflexivity].
Qed.

Lemma lng_lu_block lu d :
  LNGGenerator._generate_lu_block lu d = map emit (lng_lu_items lu d).
Proof.
  unfold LNGGenerator._generate_lu_block, lng_lu_items.
  rewrite (fold_left_extend
             (fun item => LNGGenerator._generate_view_block (snd item) (d + 1))).
  cbn [map app]. rewrite map_app, map_flat_map. cbn [map].
  rewrite !emit_indented_succ, !emit_indented.
  cbn [line_text fields_text]. rewrite <- !app_assoc.
  f_equal. f_equal. f_equal.
  apply flat_map_ext. intros [k v]. apply lng_view_block.
Qed.

Lemma lng_content_lines data :
  LNGGenerator.content_lines data = map emit (lng_items data).
Proof.
  unfold LNGGenerator.content_lines, lng_items.
  rewrite (fold_left_extend (fun item => LNGGenerator._generate_lu_block (snd item) 0)).
  cbn [app]. rewrite map_flat_map.
  apply flat_map_ext. intros [k lu]. apply lng_lu_block.
Qed.

Lemma trs_column_block tr c d :
  TRSGenerator._generate_column_block c tr d = map emit (trs_column_items tr c d).
Proof.
  unfold TRSGenerator._generate_column_block, trs_column_items.
  cbn [map]. rewrite !emit_indented_succ, !emit_indented.
  cbn [line_text fields_text]. rewrite <- !app_assoc. reflexivity.
Qed.

Lemma trs_view_block tr v d :
  TRSGenerator._generate_view_block v tr d = map emit (trs_view_items tr v d).
Proof.
  unfold TRSGenerator._generate_view_block, trs_view_items.
  rewrite (fold_left_extend_if (fun item => is_custom (snd item))
             (fun item => TRSGenerator._generate_column_block (snd item) tr (d + 1))).
  cbn [map app]. rewrite map_app, map_flat_map. cbn [map].
  rewrite !emit_indented. cbn [line_text fields_text]. rewrite <- !app_assoc.
  f_equal. f_equal.
  apply flat_map_ext. intros [k c]. cbn [snd].
  destruct (is_custom c); [apply trs_column_block | reflexivity].
Qed.

Lemma trs_lu_block tr lu d :
  TRSGenerator._generate_lu_block lu tr d = map emit (trs_lu_items tr lu d).
Proof.
  unfold TRSGenerator._generate_lu_block, trs_lu_items.
  rewrite (fold_left_extend
             (fun item => TRSGenerator._generate_view_block (snd item) tr (d + 1))).
  cbn [map app]. rewrite map_app, map_flat_map. cbn [map].
  rewrite !emit_indented. cbn [line_text fields_text]. rewrite <- !app_assoc.
  f_equal. f_equal.
  apply flat_map_ext. intros [k v]. apply trs_view_block.
Qed.

Lemma trs_content_lines tr data :
  TRSGenerator.content_lines data tr = map emit (trs_items tr data).
Proof.
  unfold TRSGenerator.content_lines, trs_items.
  rewrite (fold_left_extend
             (fun item => TRSGenerator._generate_lu_block (snd item) tr 0)).
  cbn [app]. rewrite map_flat_map.
  apply flat_map_ext. intros [k lu]. apply trs_lu_block.
Qed.

(** The text of a generated file, as segments that each end in ['\r\n']. *)
Lemma lng_file_text g data :
  LNGGenerator.generate_header g ++ LNGGenerator.generate_content data
  = concat (map (fun s => s ++ crlf)
              (LNGGenerator.header g ++ map render (lng_items data))).
Proof.
  unfold LNGGenerator.generate_header, LNGGenerator.generate_content.
  rewrite join_terminated by discriminate.
  rewrite join_empty_sep, lng_content_lines.
  rewrite map_app, concat_app, map_map. reflexivity.
Qed.

Lemma trs_file_text g data tr :
  TRSGenerator.generate_header g ++ TRSGenerator.generate_content data tr
  = concat (map (fun s => s ++ crlf)
              (TRSGenerator.header g ++ map render (trs_items tr data))).
Proof.
  unfold TRSGenerator.generate_header, TRSGenerator.generate_content.
  rewrite join_terminated by discriminate.
  rewrite join_empty_sep, trs_content_lines.
  rewrite map_app, concat_app, map_map. reflexivity.
Qed.

(** ** What the validator sees of a written line *)

Lemma strip_edges pre s post :
  forallb isspace pre = true -> forallb isspace post = true ->
  edges_ok s = true ->
  strip (pre ++ s ++ post) = s.
Proof.
  intros Hpre Hpost He. unfold edges_ok in He.
  apply andb_true_iff in He as [Hh Hl].
  destruct s as [|c s]; [discriminate|].
  apply negb_true_iff in Hh.
  destruct (rev (c :: s)) as [|c' r] eqn:Er; [discriminate|].
  apply negb_true_iff in Hl.
  assert (Es : c :: s = rev r ++ [c']).
  { rewrite <- (rev_involutive (c :: s)), Er. reflexivity. }
  unfold strip. rewrite lstrip_spaces by exact Hpre.
  cbn [app lstrip]. rewrite Hh.
  change (c :: s ++ post) with ((c :: s) ++ post).
  rewrite Es, <- app_assoc. cbn [app].
  rewrite rstrip_app_nonspace by exact Hl.
  rewrite rstrip_all_spaces by exact Hpost. reflexivity.
Qed.

Lemma line_text_edges b : edges_ok (line_text b) = true.
Proof.
  unfold edges_ok.
  destruct b as [identifier f|label|label|]; cbn [line_text].
  - rewrite !rev_app_distr. destruct f; reflexivity.
  - rewrite !rev_app_distr. reflexivity.
  - rewrite !rev_app_distr. reflexivity.
  - reflexivity.
Qed.

Lemma strip_rendered d b post :
  forallb isspace post = true ->
  strip (render (d, b) ++ post) = line_text b.
Proof.
  intros H. unfold render. cbn [fst snd]. rewrite <- app_assoc.
  apply strip_edges; [apply forallb_isspace_tabs | exact H | apply line_text_edges].
Qed.

Lemma strip_emit it : strip (emit it) = line_text (snd it).
Proof. destruct it as [d b]. apply strip_rendered. reflexivity. Qed.

Lemma strip_as_read it : strip (as_read (render it)) = line_text (snd it).
Proof. destruct it as [d b]. apply strip_rendered. reflexivity. Qed.

Lemma startswith_CS b : startswith (line_text b) (lit "CS:") = is_CS b.
Proof. destruct b; reflexivity. Qed.

Lemma startswith_CE b : startswith (line_text b) (lit "CE:") = is_CE b.
Proof. destruct b; reflexivity. Qed.

Lemma startswith_Prompt b : startswith (line_text b) (lit "A:Prompt^") = is_Prompt b.
Proof. destruct b; reflexivity. Qed.

Lemma startswith_P b : startswith (line_text b) (lit "P:") = is_P b.
Proof. destruct b; reflexivity. Qed.

Lemma line_text_nonempty b : line_text b <> [].
Proof. destruct b; discriminate. Qed.

Lemma filter_absent c s : has_char c s = false -> List.filter (N.eqb c) s = [].
Proof.
  induction s as [|x s IH]; [reflexivity|].
  unfold has_char. cbn [existsb List.filter]. intros H.
  apply orb_false_iff in H as [Hx Hs]. rewrite Hx. auto.
Qed.

Lemma fields_carets_spec f :
  length (List.filter (N.eqb CARET) (fields_text f)) = fields_carets f.
Proof. destruct f; reflexivity. Qed.

(** The number of fields of a [CS:] line. *)
Lemma CS_line_fields identifier f :
  length (split (line_text (CS_line identifier f)) CARET)
  = S (length (List.filter (N.eqb CARET) identifier) + fields_carets f).
Proof.
  rewrite length_split. cbn [line_text].
  rewrite !List.filter_app, !length_app, fields_carets_spec. reflexivity.
Qed.

Lemma span_not_stop c s t : span_not c (s ++ c :: t) = span_not c s.
Proof.
  induction s as [|x s IH]; cbn [app span_not].
  - rewrite N.eqb_refl. reflexivity.
  - destruct (x =? c)%N; [reflexivity | f_equal; exact IH].
Qed.

Lemma fields_text_caret f : exists t, fields_text f = CARET :: t.
Proof. destruct f; eexists; reflexivity. Qed.

(** The regular expression on a [CS:] line: the identifier up to its first
    caret, which must not be empty. *)
Lemma re_match_CS_line identifier f :
  re_match_CS (line_text (CS_line identifier f))
  = match span_not CARET identifier with [] => None | g => Some g end.
Proof.
  unfold re_match_CS. rewrite startswith_CS. cbn [is_CS line_text].
  change (skipn 3 (lit "CS:" ++ identifier ++ fields_text f))
    with (identifier ++ fields_text f).
  destruct (fields_text_caret f) as [t ->].
  rewrite span_not_stop. reflexivity.
Qed.

Lemma span_not_absent c s : has_char c s = false -> span_not c s = s.
Proof.
  induction s as [|x s IH]; [reflexivity|].
  unfold has_char. cbn [existsb span_not]. intros H.
  apply orb_false_iff in H as [Hx Hs]. rewrite N.eqb_sym in Hx. rewrite Hx.
  f_equal. auto.
Qed.

Lemma identifier_ok_spec identifier :
  identifier_ok identifier = true ->
  identifier <> [] /\ has_char CARET identifier = false.
Proof.
  unfold identifier_ok. destruct identifier; [discriminate|].
  intros H. apply negb_true_iff in H. split; [discriminate | exact H].
Qed.

(** ** The loops of the validator *)

Lemma enumerate_from_app {A} (k : nat) (a b : list A) :
  enumerate_from k (a ++ b)
  = enumerate_from k a ++ enumerate_from (k + length a) b.
Proof.
  revert k. induction a as [|x a IH]; intros k; cbn [app enumerate_from length].
  - rewrite Nat.add_0_r. reflexivity.
  - rewrite IH, Nat.add_succ_r. reflexivity.
Qed.

Lemma fold_left_unchanged {S A} (step : S -> nat * A -> S) (s : S) (l : list A) :
  (forall i x, In x l -> step s (i, x) = s) ->
  forall k, fold_left step (enumerate_from k l) s = s.
Proof.
  induction l as [|x l IH]; intros H k; [reflexivity|].
  cbn [enumerate_from fold_left].
  rewrite H by (left; reflexivity).
  apply IH. intros i y Hy. apply H. right. exact Hy.
Qed.

(** The pairing loop on one line the encoders write, whatever white space
    ends it. *)
Lemma cs_ce_step_rendered offset st i d b post :
  forallb isspace post = true ->
  IFSValidator.cs_ce_step offset st (i, render (d, b) ++ post)
  = cs_ce_effect offset st i b.
Proof.
  intros Hpost. destruct st as [self stack].
  unfold IFSValidator.cs_ce_step, cs_ce_effect.
  rewrite strip_rendered by exact Hpost.
  rewrite startswith_CS, startswith_CE.
  destruct b as [identifier f|label|label|]; cbn [is_CS is_CE fst snd].
  - rewrite re_match_CS_line.
    destruct (span_not CARET identifier); reflexivity.
  - reflexivity.
  - reflexivity.
  - destruct stack; reflexivity.
Qed.

Lemma cs_ce_step_as_read offset st i it :
  IFSValidator.cs_ce_step offset st (i, as_read (render it))
  = cs_ce_effect offset st i (snd it).
Proof. destruct it as [d b]. apply cs_ce_step_rendered. reflexivity. Qed.

(** Nested lines leave the stack as they found it and record no error. *)
Lemma cs_ce_nested offset items :
  nested items ->
  Forall (fun it => is_CS (snd it) = true ->
                    exists identifier f, snd it = CS_line identifier f
                                         /\ identifier_ok identifier = true) items ->
  forall k st,
    fold_left (IFSValidator.cs_ce_step offset)
      (enumerate_from k (map (fun it => as_read (render it)) items)) st = st.
Proof.
  induction 1 as [|d label rest Hn IH|d label rest Hn IH
                 |d identifier f inner d' rest Hi IHi Hr IHr];
    intros Hok k st.
  - reflexivity.
  - cbn [map enumerate_from fold_left].
    rewrite cs_ce_step_as_read. cbn [snd cs_ce_effect].
    apply IH. inversion Hok; assumption.
  - cbn [map enumerate_from fold_left].
    rewrite cs_ce_step_as_read. cbn [snd cs_ce_effect].
    apply IH. inversion Hok; assumption.
  - inversion Hok as [|x l Hx Hrest]; subst.
    apply Forall_app in Hrest as [Hinner Hrest].
    inversion Hrest as [|x l _ Hrest']; subst.
    destruct (Hx eq_refl) as (identifier' & f' & E & Hid).
    cbn [snd] in E. injection E as <- <-.
    apply identifier_ok_spec in Hid as [Hne Hcaret].
    cbn [map enumerate_from fold_left].
    rewrite cs_ce_step_as_read. cbn [snd cs_ce_effect].
    rewrite span_not_absent by exact Hcaret.
    destruct identifier as [|c identifier]; [congruence|].
    rewrite map_app, enumerate_from_app, fold_left_app.
    rewrite IHi by exact Hinner.
    cbn [map enumerate_from fold_left].
    rewrite cs_ce_step_as_read. cbn [snd cs_ce_effect fst].
    destruct st as [self stack]. cbn [fst snd].
    destruct (stack ++ [(c :: identifier, k + offset + 1)]) as [|e es] eqn:E.
    { destruct stack; discriminate. }
    rewrite <- E, removelast_last.
    apply IHr. exact Hrest'.
Qed.

Lemma nested_app a b : nested a -> nested b -> nested (a ++ b).
Proof.
  induction 1 as [|d label rest Hn IH|d label rest Hn IH
                 |d identifier f inner d' rest Hi IHi Hr IHr]; intros Hb.
  - exact Hb.
  - cbn [app]. constructor. auto.
  - cbn [app]. constructor. auto.
  - cbn [app]. rewrite <- app_assoc. cbn [app]. constructor; auto.
Qed.

Lemma nested_flat_map {A} (f : A -> list (nat * block_line)) l :
  (forall x, nested (f x)) -> nested (flat_map f l).
Proof.
  intros H. induction l as [|x l IH]; [constructor|].
  cbn [flat_map]. apply nested_app; auto.
Qed.

Lemma nested_wrap d identifier f inner :
  nested inner -> nested ((d, CS_line identifier f) :: inner ++ [(d, CE_line)]).
Proof. intros H. apply nested_block; [exact H | constructor]. Qed.

Lemma lng_column_nested c d : nested (lng_column_items c d).
Proof.
  unfold lng_column_items.
  apply (nested_block d _ _ [(S d, Prompt_line (col_label c))] d []);
    repeat constructor.
Qed.

Lemma lng_view_nested v d : nested (lng_view_items v d).
Proof.
  unfold lng_view_items. apply nested_wrap. apply nested_flat_map.
  intros [k c]. cbn [snd]. destruct (is_custom c);
    [apply lng_column_nested | constructor].
Qed.

Lemma lng_lu_nested lu d : nested (lng_lu_items lu d).
Proof.
  unfold lng_lu_items.
  change ((d, CS_line (lu_name lu) LngLU)
          :: (S d, Prompt_line (lu_label lu))
          :: flat_map (fun item => lng_view_items (snd item) (d + 1)) (views lu)
          ++ [(d, CE_line)])
    with ((d, CS_line (lu_name lu) LngLU)
          :: ((S d, Prompt_line (lu_label lu))
              :: flat_map (fun item => lng_view_items (snd item) (d + 1)) (views lu))
          ++ [(d, CE_line)]).
  apply nested_wrap. constructor. apply nested_flat_map.
  intros [k v]. apply lng_view_nested.
Qed.

Lemma lng_items_nested data : nested (lng_items data).
Proof. apply nested_flat_map. intros [k lu]. apply lng_lu_nested. Qed.





Lemma indentation_step_rendered offset self i d b post :
  forallb isspace post = true ->
  IFSValidator.indentation_step offset self (i, render (d, b) ++ post) = self.
Proof.
  intros Hpost. unfold IFSValidator.indentation_step.
  rewrite strip_rendered by exact Hpost.
  destruct (line_text b) eqn:E; [reflexivity|].
  assert (H : startswith (render (d, b) ++ post) [SPACE] = false).
  { unfold render. cbn [fst snd]. destruct d; [destruct b|]; reflexivity. }
  rewrite H. reflexivity.
Qed.

Lemma endswith_caret s : endswith (s ++ lit "^") [CARET] = true.
Proof. apply endswith_snoc. Qed.

Lemma lng_structure_step_rendered offset self i d b post :
  forallb isspace post = true -> lng_line_ok b = true ->
  IFSValidator.lng_structure_step offset self (i, render (d, b) ++ post) = self.
Proof.
  intros Hpost Hok. unfold IFSValidator.lng_structure_step.
  rewrite strip_rendered by exact Hpost.
  rewrite startswith_CS, startswith_Prompt.
  destruct b as [identifier f|label|label|]; cbn [is_CS is_Prompt].
  - rewrite CS_line_fields.
    cbn [lng_line_ok] in Hok. apply andb_true_iff in Hok as [Hid Hf].
    apply identifier_ok_spec in Hid as [_ Hc].
    rewrite (filter_absent _ _ Hc). cbn [length Nat.add].
    apply Nat.eqb_eq in Hf. rewrite Hf. reflexivity.
  - cbn [line_text]. rewrite app_assoc, endswith_caret. reflexivity.
  - reflexivity.
  - reflexivity.
Qed.

Lemma trs_structure_step_rendered offset self i d b post :
  forallb isspace post = true -> trs_line_ok b = true ->
  IFSValidator.trs_structure_step offset self (i, render (d, b) ++ post) = self.
Proof.
  intros Hpost Hok. unfold IFSValidator.trs_structure_step.
  rewrite strip_rendered by exact Hpost.
  rewrite startswith_CS, startswith_Prompt, startswith_P.
  destruct b as [identifier f|label|label|]; cbn [is_CS is_Prompt is_P].
  - rewrite CS_line_fields.
    cbn [trs_line_ok] in Hok. apply andb_true_iff in Hok as [Hid Hf].
    apply identifier_ok_spec in Hid as [_ Hc].
    rewrite (filter_absent _ _ Hc). cbn [length Nat.add].
    apply Nat.eqb_eq in Hf. rewrite Hf. reflexivity.
  - cbn [line_text]. rewrite app_assoc, endswith_caret. reflexivity.
  - cbn [line_text]. rewrite app_assoc, endswith_caret. reflexivity.
  - reflexivity.
Qed.

(** ** The header, as the validator reads it *)

Lemma strip_head2 c1 c2 r :
  isspace c1 = false -> isspace c2 = false ->
  strip (c1 :: c2 :: r) = c1 :: c2 :: rstrip r.
Proof.
  intros H1 H2. unfold strip. cbn [lstrip]. rewrite H1.
  change (c1 :: c2 :: r) with ([c1] ++ c2 :: r).
  rewrite rstrip_app_nonspace by exact H2. reflexivity.
Qed.

Lemma not_CS_head2 c1 c2 r :
  isspace c1 = false -> isspace c2 = false ->
  (c1 =? 67)%N && (c2 =? 83)%N = false ->
  startswith (strip (c1 :: c2 :: r)) (lit "CS:") = false.
Proof.
  intros H1 H2 H. rewrite strip_head2 by assumption.
  change (lit "CS:") with [67%N; 83%N; 58%N]. cbn [startswith].
  rewrite (N.eqb_sym 67 c1), (N.eqb_sym 83 c2).
  destruct (c1 =? 67)%N; [|reflexivity].
  destruct (c2 =? 83)%N; [discriminate | reflexivity].
Qed.

Lemma first_CS_skip k a l b :
  Forall (fun x => startswith (strip x) (lit "CS:") = false) a ->
  startswith (strip l) (lit "CS:") = true ->
  IFSValidator.first_CS (enumerate_from k (a ++ l :: b)) = Some (k + length a).
Proof.
  intros Ha Hl. revert k. induction Ha as [|x a Hx Ha IH]; intros k.
  - cbn [app enumerate_from IFSValidator.first_CS length].
    rewrite Hl, Nat.add_0_r. reflexivity.
  - cbn [app enumerate_from IFSValidator.first_CS length].
    rewrite Hx, IH, Nat.add_succ_r. reflexivity.
Qed.


Lemma str_in_concat p ls l :
  In l ls -> str_in p l = true -> str_in p (concat ls) = true.
Proof.
  induction ls as [|x ls IH]; [contradiction|].
  intros [->|Hin] Hp; cbn [concat].
  - apply str_in_app_l. exact Hp.
  - apply str_in_app_r. auto.
Qed.

Lemma str_in_field field value :
  str_in field (as_read (field ++ value)) = true.
Proof.
  unfold as_read. rewrite <- app_assoc. apply str_in_prefix, startswith_app.
Qed.

Lemma lng_header_lines_not_CS g :
  Forall (fun x => startswith (strip x) (lit "CS:") = false)
    (map as_read (LNGGenerator.header g)).
Proof.
  unfold LNGGenerator.header. cbn [map].
  repeat (constructor; [apply not_CS_head2; reflexivity|]).
  constructor.
Qed.

Lemma trs_header_lines_not_CS g :
  Forall (fun x => startswith (strip x) (lit "CS:") = false)
    (map as_read (TRSGenerator.header g)).
Proof.
  unfold TRSGenerator.header. cbn [map].
  repeat (constructor; [apply not_CS_head2; reflexivity|]).
  constructor.
Qed.

Lemma lng_header_accepted g rest self :
  IFSValidator._validate_header
    (map as_read (LNGGenerator.header g) ++ rest) true self = self.
Proof.
  unfold IFSValidator._validate_header.
  assert (Hlen : (length (map as_read (LNGGenerator.header g) ++ rest) <? 10) = false).
  { apply Nat.ltb_ge. rewrite length_app, length_map. cbn. lia. }
  rewrite Hlen. rewrite join_empty_sep.
  set (text := concat (firstn 15 (map as_read (LNGGenerator.header g) ++ rest))).
  assert (Hin : forall k l,
             nth_error (LNGGenerator.header g) k = Some l ->
             In (as_read l)
               (firstn 15 (map as_read (LNGGenerator.header g) ++ rest))).
  { intros k l Hk.
    unfold LNGGenerator.header in *. cbn [map app firstn].
    do 10 (destruct k as [|k];
           [injection Hk as <-; cbn [In]; tauto|]).
    destruct k; discriminate. }
  assert (H1 : str_in (lit "IFS Foundation Language File") text = true).
  { apply (str_in_concat _ _ _ (Hin 1 _ eq_refl)). vm_compute. reflexivity. }
  assert (H2 : str_in (lit "Type version: 10.00") text = true).
  { apply (str_in_concat _ _ _ (Hin 2 _ eq_refl)). vm_compute. reflexivity. }
  assert (H3 : str_in (lit "Module:") text = true).
  { apply (str_in_concat _ _ _ (Hin 4 _ eq_refl)).
    apply (str_in_app_l _ (lit "Module: ")). vm_compute. reflexivity. }
  assert (H4 : str_in (lit "Layer:") text = true).
  { apply (str_in_concat _ _ _ (Hin 5 _ eq_refl)).
    apply (str_in_app_l _ (lit "Layer: ")). vm_compute. reflexivity. }
  assert (H5 : str_in (lit "Main Type:") text = true).
  { apply (str_in_concat _ _ _ (Hin 6 _ eq_refl)).
    apply (str_in_app_l _ (lit "Main Type: ")). vm_compute. reflexivity. }
  assert (H6 : str_in (lit "Sub Type:") text = true).
  { apply (str_in_concat _ _ _ (Hin 7 _ eq_refl)).
    apply (str_in_app_l _ (lit "Sub Type: ")). vm_compute. reflexivity. }
  rewrite H1, H2. unfold IFSValidator.required_fields. cbn [fold_left negb].
  rewrite H3, H4, H5, H6. reflexivity.
Qed.


(** ** [validate_file] on a stored text *)

Lemma str_eqb_refl s : str_eqb s s = true.
Proof. unfold str_eqb. apply bool_decide_eq_true_2. reflexivity. Qed.

Lemma fs_read_written fs p text : fs_write fs p text p = Stored text.
Proof. unfold fs_write. rewrite str_eqb_refl. reflexivity. Qed.

Lemma validate_file_lng self p fs text :
  fs p = Stored text -> suffix p = lit ".lng" ->
  fst (IFSValidator.validate_file self p fs) = check_lines true (readlines text).
Proof.
  intros Hfs Hsuf. unfold IFSValidator.validate_file, check_lines.
  rewrite Hfs, Hsuf.
  change (str_eqb (lit ".lng") (lit ".lng")) with true.
  cbn [orb negb].
  destruct (IFSValidator._find_content_start (readlines text)); reflexivity.
Qed.

Lemma validate_file_trs self p fs text :
  fs p = Stored text -> suffix p = lit ".trs" ->
  fst (IFSValidator.validate_file self p fs) = check_lines false (readlines text).
Proof.
  intros Hfs Hsuf. unfold IFSValidator.validate_file, check_lines.
  rewrite Hfs, Hsuf.
  change (str_eqb (lit ".trs") (lit ".lng")) with false.
  change (str_eqb (lit ".trs") (lit ".trs")) with true.
  cbn [orb negb].
  destruct (IFSValidator._find_content_start (readlines text)); reflexivity.
Qed.

Lemma skipn_length_app {A} (a b : list A) : skipn (length a) (a ++ b) = b.
Proof. induction a as [|x a IH]; [reflexivity | exact IH]. Qed.

(** Lines that pass every check of their kind leave the validator as it
    is. *)
Lemma content_accepted (is_lng : bool) (hdr : list str)
    (items : list (nat * block_line)) :
  IFSValidator._validate_header
    (hdr ++ map (fun it => as_read (render it)) items) is_lng IFSValidator.init
  = IFSValidator.init ->
  Forall (fun x => startswith (strip x) (lit "CS:") = false) hdr ->
  (exists first rest, items = first :: rest /\ is_CS (snd first) = true) ->
  nested items ->
  Forall (fun it => (if is_lng then lng_line_ok (snd it) else trs_line_ok (snd it))
                    = true) items ->
  check_lines is_lng (hdr ++ map (fun it => as_read (render it)) items)
  = (true, [], [])
  /\ stack_at_end (hdr ++ map (fun it => as_read (render it)) items) = Some [].
Proof.
  intros Hhdr Hnot (first & rest & -> & Hfirst) Hnested Hok.
  set (items := first :: rest) in *.
  set (content := map (fun it => as_read (render it)) items) in *.
  assert (Hstart :
            IFSValidator._find_content_start (hdr ++ content) = Some (length hdr)).
  { unfold IFSValidator._find_content_start, enumerate, content, items.
    cbn [map]. rewrite first_CS_skip; [reflexivity | exact Hnot |].
    rewrite strip_as_read, startswith_CS. exact Hfirst. }
  assert (Hids :
            Forall (fun it => is_CS (snd it) = true ->
                              exists identifier f,
                                snd it = CS_line identifier f
                                /\ identifier_ok identifier = true) items).
  { eapply List.Forall_impl; [|exact Hok]. intros [d b] H Hcs. cbn [snd] in *.
    destruct b as [identifier f| | |]; try discriminate.
    exists identifier, f. split; [reflexivity|].
    destruct is_lng; cbn [lng_line_ok trs_line_ok] in H;
      apply andb_true_iff in H as [H _]; exact H. }
  assert (Hscan : forall s,
            IFSValidator.cs_ce_scan content (length hdr) s = (s, [])).
  { intros s. unfold IFSValidator.cs_ce_scan, enumerate, content.
    apply cs_ce_nested; assumption. }
  split.
  - unfold check_lines. rewrite Hhdr, Hstart, skipn_length_app.
    unfold IFSValidator._validate_cs_ce_pairing. rewrite Hscan. cbn [fold_left].
    assert (Hind : IFSValidator._validate_indentation content (length hdr)
                     IFSValidator.init = IFSValidator.init).
    { unfold IFSValidator._validate_indentation, enumerate.
      apply fold_left_unchanged. intros i x Hx.
      apply in_map_iff in Hx as ([d b] & <- & _).
      apply indentation_step_rendered. reflexivity. }
    rewrite Hind.
    assert (Hstr : (if is_lng
                    then IFSValidator._validate_lng_structure content (length hdr)
                           IFSValidator.init
                    else IFSValidator._validate_trs_structure content (length hdr)
                           IFSValidator.init) = IFSValidator.init).
    { rewrite List.Forall_forall in Hok.
      destruct is_lng;
        [unfold IFSValidator._validate_lng_structure
        |unfold IFSValidator._validate_trs_structure];
        unfold enumerate; apply fold_left_unchanged; intros i x Hx;
        apply in_map_iff in Hx as ([d b] & <- & Hin);
        [apply lng_structure_step_rendered | apply trs_structure_step_rendered];
        try reflexivity; apply (Hok _ Hin). }
    rewrite Hstr. reflexivity.
  - unfold stack_at_end. rewrite Hstart, skipn_length_app, Hscan. reflexivity.
Qed.

(** ** Well-formed trees give well-formed lines *)

Lemma forallb_flat_map {A B} (p : B -> bool) (f : A -> list B) (l : list A) :
  forallb p (flat_map f l) = forallb (fun x => forallb p (f x)) l.
Proof.
  induction l as [|x l IH]; [reflexivity|].
  cbn [flat_map forallb]. rewrite forallb_app, IH. reflexivity.
Qed.

Lemma forallb_impl {A} (p q : A -> bool) (l : list A) :
  (forall x, p x = true -> q x = true) ->
  forallb p l = true -> forallb q l = true.
Proof.
  intros H. induction l as [|x l IH]; [reflexivity|].
  cbn [forallb]. intros Hl. apply andb_true_iff in Hl as [Hx Hl].
  rewrite (H _ Hx), (IH Hl). reflexivity.
Qed.

Ltac split_andb :=
  repeat match goal with
         | H : _ && _ = true |- _ => apply andb_true_iff in H as [? ?]
         end.

Ltac use_true :=
  repeat match goal with
         | H : ?x = true |- context [?x] => rewrite H
         end;
  reflexivity.

Lemma lng_column_items_ok c d :
  column_ok c = true -> is_custom c = true ->
  forallb lng_item_ok (lng_column_items c d) = true.
Proof.
  unfold column_ok. intros H Hc. rewrite Hc in H. cbn [negb orb] in H.
  split_andb. unfold lng_column_items, lng_item_ok.
  cbn [forallb snd lng_line_ok line_single fields_carets Nat.eqb].
  use_true.
Qed.

Lemma lng_view_items_ok v d :
  view_ok v = true -> forallb lng_item_ok (lng_view_items v d) = true.
Proof.
  unfold view_ok. intros H. split_andb.
  unfold lng_view_items. cbn [forallb]. rewrite forallb_app, forallb_flat_map.
  match goal with
  | |- context [forallb ?p (columns v)] =>
      assert (Hcols : forallb p (columns v) = true)
  end.
  { eapply forallb_impl; [|eassumption].
    intros [k c] Hok. cbn [snd] in *.
    destruct (is_custom c) eqn:Hc; [|reflexivity].
    apply lng_column_items_ok; assumption. }
  rewrite Hcols. unfold lng_item_ok.
  cbn [forallb snd lng_line_ok line_single fields_carets Nat.eqb].
  use_true.
Qed.

Lemma lng_lu_items_ok lu d :
  lu_ok lu = true -> forallb lng_item_ok (lng_lu_items lu d) = true.
Proof.
  unfold lu_ok. intros H. split_andb.
  unfold lng_lu_items. cbn [forallb]. rewrite forallb_app, forallb_flat_map.
  match goal with
  | |- context [forallb ?p (views lu)] =>
      assert (Hviews : forallb p (views lu) = true)
  end.
  { eapply forallb_impl; [|eassumption].
    intros [k v] Hok. apply lng_view_items_ok. exact Hok. }
  rewrite Hviews. unfold lng_item_ok.
  cbn [forallb snd lng_line_ok line_single fields_carets Nat.eqb].
  use_true.
Qed.

Lemma lng_items_ok data :
  tree_ok data = true -> forallb lng_item_ok (lng_items data) = true.
Proof.
  unfold tree_ok, lng_items. intros H. rewrite forallb_flat_map.
  eapply forallb_impl; [|exact H].
  intros [k lu] Hok. apply lng_lu_items_ok. exact Hok.
Qed.

Lemma trs_column_items_ok tr c d :
  column_ok c = true -> is_custom c = true ->
  single_line (translations_get tr (col_label c)) = true ->
  forallb trs_item_ok (trs_column_items tr c d) = true.
Proof.
  unfold column_ok. intros H Hc Ht. rewrite Hc in H. cbn [negb orb] in H.
  split_andb. unfold trs_column_items, trs_item_ok.
  cbn [forallb snd trs_line_ok line_single fields_carets Nat.eqb].
  use_true.
Qed.

Lemma forallb_both {A} (p q r : A -> bool) (l : list A) :
  (forall x, p x = true -> q x = true -> r x = true) ->
  forallb p l = true -> forallb q l = true -> forallb r l = true.
Proof.
  intros H. induction l as [|x l IH]; [reflexivity|].
  cbn [forallb]. intros Hp Hq.
  apply andb_true_iff in Hp as [Hx Hp]. apply andb_true_iff in Hq as [Hy Hq].
  rewrite (H _ Hx Hy), (IH Hp Hq). reflexivity.
Qed.

Lemma trs_view_items_ok tr v d :
  view_ok v = true ->
  forallb (fun c => negb (is_custom (snd c))
                    || single_line (translations_get tr (col_label (snd c))))
    (columns v) = true ->
  forallb trs_item_ok (trs_view_items tr v d) = true.
Proof.
  unfold view_ok. intros H Ht. split_andb.
  unfold trs_view_items. cbn [forallb]. rewrite forallb_app, forallb_flat_map.
  match goal with
  | |- context [forallb ?p (columns v) && _] =>
      assert (Hcols : forallb p (columns v) = true)
  end.
  { match goal with
    | Hall : forallb (fun item => column_ok (snd item)) _ = true |- _ =>
        eapply forallb_both; [|exact Hall|exact Ht]
    end.
    intros [k c] Hok Hs. cbn [snd] in *.
    destruct (is_custom c) eqn:Hc; [|reflexivity].
    apply trs_column_items_ok; [assumption | assumption | exact Hs]. }
  rewrite Hcols. unfold trs_item_ok.
  cbn [forallb snd trs_line_ok line_single fields_carets Nat.eqb].
  use_true.
Qed.

Lemma trs_lu_items_ok tr lu d :
  lu_ok lu = true ->
  forallb
    (fun v =>
       forallb (fun c => negb (is_custom (snd c))
                         || single_line (translations_get tr (col_label (snd c))))
         (columns (snd v)))
    (views lu) = true ->
  forallb trs_item_ok (trs_lu_items tr lu d) = true.
Proof.
  unfold lu_ok. intros H Ht. split_andb.
  unfold trs_lu_items. cbn [forallb]. rewrite forallb_app, forallb_flat_map.
  match goal with
  | |- context [forallb ?p (views lu) && _] =>
      assert (Hviews : forallb p (views lu) = true)
  end.
  { match goal with
    | Hall : forallb (fun item => view_ok (snd item)) _ = true |- _ =>
        eapply forallb_both; [|exact Hall|exact Ht]
    end.
    intros [k v] Hok Hs. apply trs_view_items_ok; assumption. }
  rewrite Hviews. unfold trs_item_ok.
  cbn [forallb snd trs_line_ok line_single fields_carets Nat.eqb].
  use_true.
Qed.

Lemma trs_items_ok tr data :
  tree_ok data = true -> translations_ok tr data = true ->
  forallb trs_item_ok (trs_items tr data) = true.
Proof.
  unfold tree_ok, translations_ok, trs_items. intros H Ht.
  rewrite forallb_flat_map.
  eapply forallb_both; [|exact H|exact Ht].
  intros [k lu] Hok Hs. apply trs_lu_items_ok; assumption.
Qed.

Lemma single_line_tabs d : single_line (str_mul TAB d) = true.
Proof. induction d as [|d IH]; [reflexivity|]. exact IH. Qed.

Lemma single_line_rendered d b :
  line_single b = true -> single_line (render (d, b)) = true.
Proof.
  intros H. unfold render. cbn [fst snd].
  rewrite single_line_app, single_line_tabs. cbn [andb].
  destruct b as [identifier f|label|label|]; cbn [line_text line_single] in *;
    rewrite ?single_line_app, ?H; [destruct f|..]; reflexivity.
Qed.

Lemma lng_header_single g :
  lng_header_ok g = true -> forallb single_line (LNGGenerator.header g) = true.
Proof.
  unfold lng_header_ok, LNGGenerator.header. cbn [forallb]. intros H.
  split_andb. rewrite !single_line_app.
  repeat match goal with H : single_line _ = true |- _ => rewrite H; clear H end.
  reflexivity.
Qed.

Lemma trs_header_single g :
  trs_header_ok g = true -> forallb single_line (TRSGenerator.header g) = true.
Proof.
  unfold trs_header_ok, TRSGenerator.header. cbn [forallb]. intros H.
  split_andb. rewrite !single_line_app.
  repeat match goal with H : single_line _ = true |- _ => rewrite H; clear H end.
  reflexivity.
Qed.

Lemma forallb_Forall_true {A} (p : A -> bool) l :
  forallb p l = true -> List.Forall (fun x => p x = true) l.
Proof. intros H. apply List.Forall_forall. apply forallb_forall. exact H. Qed.

Lemma forallb_map {A B} (p : B -> bool) (f : A -> B) l :
  forallb p (map f l) = forallb (fun x => p (f x)) l.
Proof. induction l as [|x l IH]; [reflexivity|]. cbn [map forallb]. rewrite IH. reflexivity. Qed.

(** The lines the validator reads back from a written file, when nothing
    that was written has a line break. *)
Lemma readlines_written (hdr : list str) (items : list (nat * block_line)) :
  forallb single_line hdr = true ->
  forallb (fun it => line_single (snd it)) items = true ->
  readlines (concat (map (fun s => s ++ crlf) (hdr ++ map render items)))
  = map as_read hdr ++ map (fun it => as_read (render it)) items.
Proof.
  intros Hh Hi. rewrite readlines_single_segments.
  - rewrite map_app, map_map. reflexivity.
  - rewrite forallb_app, Hh, forallb_map. cbn [andb].
    eapply forallb_impl; [|exact Hi].
    intros [d b] H. apply single_line_rendered. exact H.
Qed.

Lemma lng_items_first data :
  logical_units data <> [] ->
  exists first rest, lng_items data = first :: rest /\ is_CS (snd first) = true.
Proof.
  unfold lng_items. destruct (logical_units data) as [|[k lu] lus]; [congruence|].
  intros _. cbn [flat_map snd]. unfold lng_lu_items at 1. cbn [app].
  eexists _, _. split; reflexivity.
Qed.


(** ** Texts that UTF-8 encodes *)

Lemma forallb_ext {A} (p q : A -> bool) (l : list A) :
  (forall x, p x = q x) -> forallb p l = forallb q l.
Proof.
  intros H. induction l as [|x l IH]; [reflexivity|].
  cbn [forallb]. rewrite H, IH. reflexivity.
Qed.

Lemma forallb_andb {A} (p q : A -> bool) (l : list A) :
  forallb (fun x => p x && q x) l = forallb p l && forallb q l.
Proof.
  induction l as [|x l IH]; [reflexivity|].
  cbn [forallb]. rewrite IH.
  destruct (p x), (q x), (forallb p l); reflexivity.
Qed.

Lemma encodable_app s t : encodable (s ++ t) = encodable s && encodable t.
Proof. apply forallb_app. Qed.

Lemma encodable_tabs d : encodable (str_mul TAB d) = true.
Proof. induction d as [|d IH]; [reflexivity | exact IH]. Qed.

Lemma encodable_rendered d b :
  encodable (render (d, b)) = line_holds encodable b.
Proof.
  unfold render. cbn [fst snd]. rewrite encodable_app, encodable_tabs.
  cbn [andb].
  destruct b as [identifier f|label|label|]; cbn [line_text line_holds];
    rewrite ?encodable_app.
  - replace (encodable (fields_text f)) with true by (destruct f; reflexivity).
    change (encodable (lit "CS:")) with true. cbn [andb]. apply andb_true_r.
  - change (encodable (lit "A:Prompt^")) with true.
    change (encodable (lit "^")) with true. cbn [andb]. apply andb_true_r.
  - change (encodable (lit "P:")) with true.
    change (encodable (lit "^")) with true. cbn [andb]. apply andb_true_r.
  - reflexivity.
Qed.

Lemma encodable_segments (segs : list str) :
  encodable (concat (map (fun s => s ++ crlf) segs)) = forallb encodable segs.
Proof.
  induction segs as [|s segs IH]; [reflexivity|].
  cbn [map concat forallb]. rewrite !encodable_app, IH.
  change (encodable crlf) with true. rewrite andb_true_r. reflexivity.
Qed.

Lemma lng_header_encodable g :
  forallb encodable (LNGGenerator.header g)
  = forallb encodable (lng_header_fields g).
Proof.
  unfold LNGGenerator.header, lng_header_fields. cbn [forallb].
  rewrite !encodable_app. reflexivity.
Qed.


(** ** The strings that the written lines carry *)

Lemma lng_column_items_holds p c d :
  forallb (fun it => line_holds p (snd it))
    (if is_custom c then lng_column_items c d else [])
  = column_written p c.
Proof.
  unfold column_written. destruct (is_custom c); [|reflexivity].
  cbn [lng_column_items forallb snd line_holds negb orb].
  rewrite !andb_true_r. reflexivity.
Qed.

Lemma lng_view_items_holds p v d :
  forallb (fun it => line_holds p (snd it)) (lng_view_items v d)
  = view_written p v.
Proof.
  unfold lng_view_items, view_written. cbn [forallb snd line_holds].
  rewrite forallb_app, forallb_flat_map. cbn [forallb snd line_holds].
  rewrite andb_true_r. f_equal.
  apply forallb_ext. intros [k c]. apply lng_column_items_holds.
Qed.

Lemma lng_lu_items_holds p lu d :
  forallb (fun it => line_holds p (snd it)) (lng_lu_items lu d)
  = lu_written p lu.
Proof.
  unfold lng_lu_items, lu_written. cbn [forallb snd line_holds].
  rewrite forallb_app, forallb_flat_map. cbn [forallb snd line_holds].
  rewrite andb_true_r, andb_assoc. f_equal.
  apply forallb_ext. intros [k v]. apply lng_view_items_holds.
Qed.

(** The strings on the lines of the definition encoder are those of the
    tree that it writes. *)
Lemma lng_items_holds p data :
  forallb (fun it => line_holds p (snd it)) (lng_items data)
  = tree_written p data.
Proof.
  unfold lng_items, tree_written. rewrite forallb_flat_map.
  apply forallb_ext. intros [k lu]. apply lng_lu_items_holds.
Qed.

Lemma trs_column_items_holds p tr c d :
  forallb (fun it => line_holds p (snd it))
    (if is_custom c then trs_column_items tr c d else [])
  = column_written p c
    && (negb (is_custom c) || p (translations_get tr (col_label c))).
Proof.
  unfold column_written. destruct (is_custom c); [|reflexivity].
  cbn [trs_column_items forallb snd line_holds negb orb].
  rewrite !andb_true_r, andb_assoc. reflexivity.
Qed.

Lemma trs_view_items_holds p tr v d :
  forallb (fun it => line_holds p (snd it)) (trs_view_items tr v d)
  = view_written p v
    && forallb
         (fun c => negb (is_custom (snd c))
                   || p (translations_get tr (col_label (snd c))))
         (columns v).
Proof.
  unfold trs_view_items, view_written. cbn [forallb snd line_holds].
  rewrite forallb_app, forallb_flat_map. cbn [forallb snd line_holds].
  rewrite andb_true_r, <- andb_assoc. f_equal.
  rewrite <- forallb_andb.
  apply forallb_ext. intros [k c]. apply trs_column_items_holds.
Qed.

(** The strings on the lines of the translation encoder are among those of
    the tree and the translated labels. *)
Lemma trs_items_holds p tr data :
  tree_written p data = true ->
  translated_written p tr data = true ->
  forallb (fun it => line_holds p (snd it)) (trs_items tr data) = true.
Proof.
  unfold tree_written, translated_written, trs_items. intros Hd Ht.
  rewrite forallb_flat_map.
  eapply forallb_both; [|exact Hd|exact Ht].
  intros [k lu] Hlu Htl. cbn [snd] in *. unfold lu_written in Hlu.
  apply andb_true_iff in Hlu as [Hlu Hviews].
  apply andb_true_iff in Hlu as [Hname _].
  unfold trs_lu_items. cbn [forallb snd line_holds].
  rewrite forallb_app, forallb_flat_map, Hname. cbn [forallb snd line_holds andb].
  rewrite andb_true_r.
  eapply forallb_both; [|exact Hviews|exact Htl].
  intros [kv v] Hv Htv. cbn [snd] in *.
  rewrite trs_view_items_holds, Hv, Htv. reflexivity.
Qed.

(** Translation dicts that agree on [p] give lines that agree on it. *)
Lemma trs_items_holds_ext p tr tr' data :
  (forall label,
     p label && p (translations_get tr label)
     = p label && p (translations_get tr' label)) ->
  forallb (fun it => line_holds p (snd it)) (trs_items tr data)
  = forallb (fun it => line_holds p (snd it)) (trs_items tr' data).
Proof.
  intros H. unfold trs_items. rewrite !forallb_flat_map.
  apply forallb_ext. intros [k lu]. unfold trs_lu_items.
  cbn [forallb snd line_holds]. rewrite !forallb_app, !forallb_flat_map.
  f_equal. f_equal.
  apply forallb_ext. intros [kv v]. cbn [snd]. rewrite !trs_view_items_holds.
  unfold view_written. rewrite <- !andb_assoc. f_equal.
  rewrite <- !forallb_andb.
  apply forallb_ext. intros [kc c]. cbn [snd]. unfold column_written.
  destruct (is_custom c); [|reflexivity]. cbn [negb orb].
  rewrite <- !andb_assoc. f_equal. apply H.
Qed.

(** The text of a file can be encoded when the fields of its header and the
    strings on its lines can. *)
Lemma file_text_encodable (hdr : list str) (items : list (nat * block_line)) :
  encodable (concat (map (fun s => s ++ crlf) (hdr ++ map render items)))
  = forallb encodable hdr
    && forallb (fun it => line_holds encodable (snd it)) items.
Proof.
  rewrite encodable_segments, forallb_app, forallb_map. f_equal.
  apply forallb_ext. intros [d b]. apply encodable_rendered.
Qed.

Lemma lng_text_encodable g data :
  encodable (LNGGenerator.generate_header g ++ LNGGenerator.generate_content data)
  = forallb encodable (lng_header_fields g) && tree_written encodable data.
Proof.
  rewrite lng_file_text, file_text_encodable, lng_header_encodable, lng_items_holds.
  reflexivity.
Qed.


(** ** What [generate_file] leaves *)

Lemma lng_generate_file_written g data p fs :
  encodable (LNGGenerator.generate_header g ++ LNGGenerator.generate_content data)
  = true ->
  LNGGenerator.generate_file g data p fs
  = (Returned (path_str p),
     fs_write fs p
       (LNGGenerator.generate_header g ++ LNGGenerator.generate_content data)).
Proof.
  intros H. unfold LNGGenerator.generate_file, write_text. rewrite H. reflexivity.
Qed.

Lemma lng_generate_file_raised g data p fs :
  encodable (LNGGenerator.generate_header g ++ LNGGenerator.generate_content data)
  = false ->
  LNGGenerator.generate_file g data p fs
  = (Raised UnicodeEncodeError, fs_write fs p []).
Proof.
  intros H. unfold LNGGenerator.generate_file, write_text. rewrite H. reflexivity.
Qed.

Lemma trs_generate_file_written g data tr p fs :
  encodable (TRSGenerator.generate_header g ++ TRSGenerator.generate_content data tr)
  = true ->
  TRSGenerator.generate_file g data tr p fs
  = (Returned (path_str p),
     fs_write fs p
       (TRSGenerator.generate_header g ++ TRSGenerator.generate_content data tr)).
Proof.
  intros H. unfold TRSGenerator.generate_file, write_text. rewrite H. reflexivity.
Qed.

Lemma trs_generate_file_raised g data tr p fs :
  encodable (TRSGenerator.generate_header g ++ TRSGenerator.generate_content data tr)
  = false ->
  TRSGenerator.generate_file g data tr p fs
  = (Raised UnicodeEncodeError, fs_write fs p []).
Proof.
  intros H. unfold TRSGenerator.generate_file, write_text. rewrite H. reflexivity.
Qed.

(** The text of the definition file of a well-formed tree is accepted. *)
Lemma lng_text_accepted g data :
  logical_units data <> [] ->
  lng_header_ok g = true ->
  tree_ok data = true ->
  let text := LNGGenerator.generate_header g ++ LNGGenerator.generate_content data in
  check_lines true (readlines text) = (true, [], [])
  /\ stack_at_end (readlines text) = Some [].
Proof.
  intros Hne Hg Hd text.
  assert (Hitems := lng_items_ok _ Hd).
  assert (Hlines : readlines text
                   = map as_read (LNGGenerator.header g)
                     ++ map (fun it => as_read (render it)) (lng_items data)).
  { unfold text. rewrite lng_file_text. apply readlines_written.
    - apply lng_header_single. exact Hg.
    - eapply forallb_impl; [|exact Hitems].
      intros it H. unfold lng_item_ok in H. split_andb. assumption. }
  rewrite Hlines.
  apply (content_accepted true).
  - apply lng_header_accepted.
  - apply lng_header_lines_not_CS.
  - apply lng_items_first. exact Hne.
  - apply lng_items_nested.
  - apply forallb_Forall_true. eapply forallb_impl; [|exact Hitems].
    intros it H. unfold lng_item_ok in H. split_andb. assumption.
Qed.

(** The definition file of a well-formed tree, when its text can be
    encoded, is written and accepted. *)
Lemma lng_round_trip g data p fs self :
  suffix p = lit ".lng" ->
  logical_units data <> [] ->
  lng_header_ok g = true ->
  tree_ok data = true ->
  forallb encodable (lng_header_fields g) = true ->
  tree_written encodable data = true ->
  let text := LNGGenerator.generate_header g ++ LNGGenerator.generate_content data in
  fst (LNGGenerator.generate_file g data p fs) = Returned (path_str p)
  /\ fst (IFSValidator.validate_file self p
            (snd (LNGGenerator.generate_file g data p fs)))
     = (true, [], [])
  /\ stack_at_end (readlines text) = Some [].
Proof.
  intros Hsuf Hne Hg Hd Heg Hed text.
  destruct (lng_text_accepted g data Hne Hg Hd) as [Hcheck Hstack].
  rewrite lng_generate_file_written
    by (rewrite lng_text_encodable, Heg, Hed; reflexivity).
  cbn [fst snd]. split; [reflexivity|]. split; [|exact Hstack].
  rewrite (validate_file_lng self p _ text);
    [exact Hcheck | apply fs_read_written | exact Hsuf].
Qed.



(** ** Files that differ in translated labels only *)

Section Agree.
Context {A : Type} (R : A -> A -> Prop).
Hypothesis R_refl : forall x, R x x.

Lemma agree_refl k l : agree R k l l.
Proof using R_refl.
  split; [|reflexivity]. induction l; constructor; auto.
Qed.

Lemma agree_weaken j k l l' : j <= k -> agree R k l l' -> agree R j l l'.
Proof using Type.
  intros Hjk [HR Hk]. split; [exact HR|].
  replace j with (Nat.min j k) by lia.
  rewrite <- !firstn_firstn, Hk. reflexivity.
Qed.

Lemma agree_app k a a' b b' :
  agree R k a a' -> agree R k b b' -> agree R k (a ++ b) (a' ++ b').
Proof using Type.
  intros [Ha Hka] [Hb Hkb]. split.
  - apply Forall2_app; assumption.
  - rewrite !firstn_app, Hka. f_equal.
    rewrite (Forall2_length _ _ _ Ha).
    assert (Hw : agree R (k - length a') b b').
    { apply (agree_weaken _ k); [lia | split; assumption]. }
    apply Hw.
Qed.

Lemma agree_cons k x l l' : agree R k l l' -> agree R (S k) (x :: l) (x :: l').
Proof using R_refl.
  intros [Hl Hk]. split.
  - constructor; auto.
  - cbn [firstn]. rewrite Hk. reflexivity.
Qed.

Lemma agree_flat_map {B} k (f g : B -> list A) l :
  (forall x, agree R k (f x) (g x)) ->
  agree R k (flat_map f l) (flat_map g l).
Proof using R_refl.
  intros H. induction l as [|x l IH]; cbn [flat_map].
  - apply agree_refl.
  - apply agree_app; auto.
Qed.
End Agree.

Lemma same_or_prompt_refl x : same_or_prompt x x.
Proof. left. reflexivity. Qed.

Section Translations.
Variables tr tr' : gmap (list N) (list N).
Hypothesis Hrel :
  forall label,
    translations_get tr label = translations_get tr' label
    \/ (single_line (translations_get tr label) = true
        /\ single_line (translations_get tr' label) = true).

Lemma trs_column_agree c d :
  agree same_or_prompt 2 (trs_column_items tr c d) (trs_column_items tr' c d).
Proof using Hrel.
  unfold trs_column_items. split; [|reflexivity].
  constructor; [apply same_or_prompt_refl|].
  constructor; [apply same_or_prompt_refl|].
  constructor; [|constructor; [apply same_or_prompt_refl | constructor]].
  destruct (Hrel (col_label c)) as [->|[H1 H2]].
  - apply same_or_prompt_refl.
  - right. eexists _, _, _. repeat split; assumption.
Qed.

Lemma trs_view_agree v d :
  agree same_or_prompt 3 (trs_view_items tr v d) (trs_view_items tr' v d).
Proof using Hrel.
  unfold trs_view_items.
  apply (agree_cons _ same_or_prompt_refl 2).
  apply agree_app; [|apply (agree_refl _ same_or_prompt_refl)].
  apply (agree_flat_map _ same_or_prompt_refl). intros [k c]. cbn [snd].
  destruct (is_custom c);
    [apply trs_column_agree | apply (agree_refl _ same_or_prompt_refl)].
Qed.

Lemma trs_lu_agree lu d :
  agree same_or_prompt 4 (trs_lu_items tr lu d) (trs_lu_items tr' lu d).
Proof using Hrel.
  unfold trs_lu_items.
  apply (agree_cons _ same_or_prompt_refl 3).
  apply agree_app; [|apply (agree_refl _ same_or_prompt_refl)].
  apply (agree_flat_map _ same_or_prompt_refl). intros [k v].
  apply trs_view_agree.
Qed.

Lemma trs_items_agree data :
  agree same_or_prompt 4 (trs_items tr data) (trs_items tr' data).
Proof using Hrel.
  unfold trs_items.
  apply (agree_flat_map _ same_or_prompt_refl). intros [k lu].
  apply trs_lu_agree.
Qed.
End Translations.

(** Blocks of lines, none empty: the first [j] lines lie in the first [k]
    blocks when [j <= k]. *)
Lemma firstn_concat_blocks {A} (bs : list (list A)) :
  Forall (fun b => b <> []) bs ->
  forall j k, j <= k -> firstn j (concat (firstn k bs)) = firstn j (concat bs).
Proof.
  induction 1 as [|b bs Hb Hbs IH]; intros j k Hjk.
  - rewrite firstn_nil. reflexivity.
  - destruct k as [|k].
    + replace j with 0 by lia. reflexivity.
    + cbn [firstn concat]. rewrite !firstn_app. f_equal.
      apply IH. destruct b; [congruence | cbn [length]; lia].
Qed.

Lemma Forall2_concat_rel {A} (R : A -> A -> Prop) bs bs' :
  Forall2 (Forall2 R) bs bs' -> Forall2 R (concat bs) (concat bs').
Proof.
  induction 1; cbn [concat]; [constructor | apply Forall2_app; assumption].
Qed.

Lemma same_or_quiet_refl x : same_or_quiet x x.
Proof. left. reflexivity. Qed.

Lemma Forall2_same {A} (R : A -> A -> Prop) l :
  (forall x, R x x) -> Forall2 R l l.
Proof. intros H. induction l; constructor; auto. Qed.

Lemma blocks_related items items' :
  Forall2 same_or_prompt items items' ->
  Forall2 (Forall2 same_or_quiet)
    (map (fun it => readlines (render it ++ crlf)) items)
    (map (fun it => readlines (render it ++ crlf)) items').
Proof.
  induction 1 as [|x y l l' Hxy HR IH]; [constructor|].
  cbn [map]. constructor; [|exact IH].
  destruct Hxy as [->|(d & label & label' & -> & -> & H1 & H2)].
  - apply Forall2_same, same_or_quiet_refl.
  - rewrite !readlines_single by (apply single_line_rendered; assumption).
    constructor; [|constructor].
    right. split; eexists _, _; reflexivity.
Qed.

(** The lines read from two lists of written lines that agree. *)
Lemma readlines_agree hdr items items' :
  agree same_or_prompt 4 items items' ->
  12 <= length hdr ->
  agree same_or_quiet 15
    (readlines (concat (map (fun s => s ++ crlf) (hdr ++ map render items))))
    (readlines (concat (map (fun s => s ++ crlf) (hdr ++ map render items')))).
Proof.
  intros [HR Hk] Hlen.
  rewrite !readlines_segments.
  set (block := fun s : str => readlines (s ++ crlf)).
  split.
  - apply Forall2_concat_rel. rewrite !map_app.
    apply Forall2_app.
    + apply Forall2_same. intros b. apply Forall2_same, same_or_quiet_refl.
    + rewrite !map_map. apply blocks_related. exact HR.
  - assert (Hne : forall segs, Forall (fun b => b <> []) (map block segs)).
    { intros segs. apply List.Forall_forall. intros b Hb.
      apply in_map_iff in Hb as (s & <- & _). apply readlines_nonempty. }
    rewrite <- (firstn_concat_blocks _ (Hne _) 15 15) by lia.
    rewrite <- (firstn_concat_blocks _ (Hne (hdr ++ map render items')) 15 15) by lia.
    rewrite !firstn_map, !firstn_app, !firstn_map.
    assert (Hw : agree same_or_prompt (15 - length hdr) items items').
    { apply (agree_weaken _ _ 4); [lia | split; assumption]. }
    destruct Hw as [_ ->]. reflexivity.
Qed.

Lemma validate_file_stored self p fs text :
  fs p = Stored text ->
  fst (IFSValidator.validate_file self p fs)
  = if negb (str_eqb (suffix p) (lit ".lng") || str_eqb (suffix p) (lit ".trs"))
    then (false, [lit "Unknown file type: " ++ suffix p], [])
    else check_lines (str_eqb (suffix p) (lit ".lng")) (readlines text).
Proof.
  intros Hfs. unfold IFSValidator.validate_file, check_lines. rewrite Hfs.
  destruct (negb _); [reflexivity|].
  destruct (IFSValidator._find_content_start (readlines text)); reflexivity.
Qed.

Lemma validate_header_ext l l' is_lng self :
  length l = length l' -> firstn 15 l = firstn 15 l' ->
  IFSValidator._validate_header l is_lng self
  = IFSValidator._validate_header l' is_lng self.
Proof.
  intros Hlen Hk. unfold IFSValidator._validate_header. rewrite Hlen, Hk.
  reflexivity.
Qed.

Lemma quiet_not_CS x : quiet x -> startswith (strip x) (lit "CS:") = false.
Proof.
  intros (d & label & ->). rewrite strip_as_read. reflexivity.
Qed.

Lemma first_CS_related l l' :
  Forall2 same_or_quiet l l' ->
  forall k, IFSValidator.first_CS (enumerate_from k l)
            = IFSValidator.first_CS (enumerate_from k l').
Proof.
  induction 1 as [|x y l l' Hxy HR IH]; intros k; [reflexivity|].
  cbn [enumerate_from IFSValidator.first_CS].
  destruct Hxy as [->|[Hx Hy]].
  - rewrite IH. reflexivity.
  - rewrite (quiet_not_CS _ Hx), (quiet_not_CS _ Hy). apply IH.
Qed.

Lemma fold_left_related {S A} (R : A -> A -> Prop) (step : S -> nat * A -> S)
    (l l' : list A) :
  (forall s i x y, R x y -> step s (i, x) = step s (i, y)) ->
  Forall2 R l l' ->
  forall k s,
    fold_left step (enumerate_from k l) s = fold_left step (enumerate_from k l') s.
Proof.
  intros Hstep. induction 1 as [|x y l l' Hxy HR IH]; intros k s; [reflexivity|].
  cbn [enumerate_from fold_left]. rewrite (Hstep s k x y Hxy). apply IH.
Qed.

Lemma cs_ce_step_quiet offset st i x y :
  same_or_quiet x y ->
  IFSValidator.cs_ce_step offset st (i, x) = IFSValidator.cs_ce_step offset st (i, y).
Proof.
  intros [->|[(d & label & ->) (d' & label' & ->)]]; [reflexivity|].
  rewrite !cs_ce_step_as_read. reflexivity.
Qed.

Lemma indentation_step_quiet offset self i x y :
  same_or_quiet x y ->
  IFSValidator.indentation_step offset self (i, x)
  = IFSValidator.indentation_step offset self (i, y).
Proof.
  intros [->|[(d & label & ->) (d' & label' & ->)]]; [reflexivity|].
  unfold as_read. rewrite !indentation_step_rendered; reflexivity.
Qed.

Lemma lng_structure_step_quiet offset self i x y :
  same_or_quiet x y ->
  IFSValidator.lng_structure_step offset self (i, x)
  = IFSValidator.lng_structure_step offset self (i, y).
Proof.
  intros [->|[(d & label & ->) (d' & label' & ->)]]; [reflexivity|].
  unfold as_read. rewrite !lng_structure_step_rendered; reflexivity.
Qed.

Lemma trs_structure_step_quiet offset self i x y :
  same_or_quiet x y ->
  IFSValidator.trs_structure_step offset self (i, x)
  = IFSValidator.trs_structure_step offset self (i, y).
Proof.
  intros [->|[(d & label & ->) (d' & label' & ->)]]; [reflexivity|].
  unfold as_read. rewrite !trs_structure_step_rendered; reflexivity.
Qed.

(** The verdict on two files whose lines agree. *)
Lemma check_lines_agree is_lng l l' :
  agree same_or_quiet 15 l l' -> check_lines is_lng l = check_lines is_lng l'.
Proof.
  intros [HR Hk]. unfold check_lines.
  rewrite (validate_header_ext l l') by (eauto using Forall2_length).
  unfold IFSValidator._find_content_start, enumerate.
  rewrite (first_CS_related _ _ HR).
  destruct (IFSValidator.first_CS (enumerate_from 0 l')) as [k|]; [|reflexivity].
  assert (HRk := Forall2_drop _ _ _ k HR).
  set (self := IFSValidator._validate_header l' is_lng IFSValidator.init).
  assert (H1 : IFSValidator._validate_cs_ce_pairing (skipn k l) k self
               = IFSValidator._validate_cs_ce_pairing (skipn k l') k self).
  { unfold IFSValidator._validate_cs_ce_pairing, IFSValidator.cs_ce_scan, enumerate.
    rewrite (fold_left_related same_or_quiet _ _ _
               (fun s i x y => cs_ce_step_quiet k s i x y) HRk).
    reflexivity. }
  rewrite H1.
  set (self1 := IFSValidator._validate_cs_ce_pairing (skipn k l') k self).
  assert (H2 : IFSValidator._validate_indentation (skipn k l) k self1
               = IFSValidator._validate_indentation (skipn k l') k self1).
  { unfold IFSValidator._validate_indentation, enumerate.
    apply (fold_left_related same_or_quiet); [|exact HRk].
    intros s i x y. apply indentation_step_quiet. }
  rewrite H2.
  set (self2 := IFSValidator._validate_indentation (skipn k l') k self1).
  destruct is_lng.
  - assert (H3 : IFSValidator._validate_lng_structure (skipn k l) k self2
                 = IFSValidator._validate_lng_structure (skipn k l') k self2).
    { unfold IFSValidator._validate_lng_structure, enumerate.
      apply (fold_left_related same_or_quiet); [|exact HRk].
      intros s i x y. apply lng_structure_step_quiet. }
    rewrite H3. reflexivity.
  - assert (H3 : IFSValidator._validate_trs_structure (skipn k l) k self2
                 = IFSValidator._validate_trs_structure (skipn k l') k self2).
    { unfold IFSValidator._validate_trs_structure, enumerate.
      apply (fold_left_related same_or_quiet); [|exact HRk].
      intros s i x y. apply trs_structure_step_quiet. }
    rewrite H3. reflexivity.
Qed.

(** Translated labels without line breaks, which can be encoded alike, do
    not change the verdict. *)
Lemma translations_irrelevant g data tr tr' p fs self :
  (forall label,
     translations_get tr label = translations_get tr' label
     \/ (single_line (translations_get tr label) = true
         /\ single_line (translations_get tr' label) = true)) ->
  (forall label,
     encodable label && encodable (translations_get tr label)
     = encodable label && encodable (translations_get tr' label)) ->
  fst (IFSValidator.validate_file self p
         (snd (TRSGenerator.generate_file g data tr p fs)))
  = fst (IFSValidator.validate_file self p
           (snd (TRSGenerator.generate_file g data tr' p fs))).
Proof.
  intros Hrel Henc.
  assert (Hsame :
            encodable (TRSGenerator.generate_header g
                       ++ TRSGenerator.generate_content data tr)
            = encodable (TRSGenerator.generate_header g
                         ++ TRSGenerator.generate_content data tr')).
  { rewrite !trs_file_text, !file_text_encodable. f_equal.
    apply trs_items_holds_ext. exact Henc. }
  destruct (encodable (TRSGenerator.generate_header g
                       ++ TRSGenerator.generate_content data tr')) eqn:E.
  - rewrite !trs_generate_file_written by assumption. cbn [snd].
    rewrite !(validate_file_stored self p _ _ (fs_read_written _ _ _)).
    destruct (negb _); [reflexivity|].
    apply check_lines_agree. rewrite !trs_file_text.
    apply readlines_agree.
    + apply trs_items_agree. exact Hrel.
    + cbn. lia.
  - rewrite !trs_generate_file_raised by assumption. reflexivity.
Qed.

(** * The claims of the specification *)

(** ** Round trip *)




(** ** Scenarios A and B *)

(** C2: Scenario A.  For the tree with the logical unit [TestLU], the view
    [TEST_VIEW] and the custom column [C_TEST_FIELD], the definition encoder
    returns exactly the content of the specification, and the file made of
    the header (module [ESSPRO], layer [Cust]) and this content is accepted
    without error. *)
Theorem scenario_A_encoding :
  LNGGenerator.generate_content test_data = scenario_A_content
  /\ forall (self : IFSValidator.t) (fs : FS),
       fst (IFSValidator.validate_file self lng_path
              (snd (LNGGenerator.generate_file lng_generator test_data lng_path
                      fs)))
       = (true, [], []).
Proof.
  split; [vm_compute; reflexivity|].
  intros self fs.
  apply (lng_round_trip lng_generator test_data lng_path fs self);
    [reflexivity | discriminate | vm_compute; reflexivity ..].
Qed.

(** C3, as the specification states it, fails: the column block the
    translation encoder writes for the tree of the scenario is not the text
    of the specification, and that text occurs nowhere in the content. *)
Lemma scenario_B_counterexample :
  join [] (TRSGenerator._generate_column_block C_TEST_FIELD test_translations 2)
  <> scenario_B_block_of_spec
  /\ str_in scenario_B_block_of_spec
       (TRSGenerator.generate_content test_data test_translations) = false.
Proof.
  split; [|vm_compute; reflexivity].
  intros H. vm_compute in H. discriminate H.
Qed.

(** C3, amended: Scenario B.  The column of the scenario lies at depth 2,
    under its logical unit and its view, and its block is
    [\t\tCS:C_TEST_FIELD^LU\r\n\t\t\tP:Test Field^\r\n]
    [\t\t\tA:Prompt^Testfält^\r\n\t\tCE:\r\n]; the content is this block
    between the opening and the closing lines of the view and of the
    logical unit. *)
Theorem scenario_B_column_block :
  join [] (TRSGenerator._generate_column_block C_TEST_FIELD test_translations 2)
  = scenario_B_block
  /\ TRSGenerator.generate_content test_data test_translations
     = lit "CS:TestLU^LU" ++ crlf
       ++ [TAB] ++ lit "CS:TEST_VIEW^LU" ++ crlf
       ++ scenario_B_block
       ++ [TAB] ++ lit "CE:" ++ crlf
       ++ lit "CE:" ++ crlf.
Proof. split; vm_compute; reflexivity. Qed.

(** ** The field-count contract *)

Lemma CS_not_prompt s :
  startswith s (lit "CS:") = true ->
  startswith s (lit "A:Prompt^") = false /\ startswith s (lit "P:") = false.
Proof.
  intros H. apply startswith_spec in H as [r ->]. split; reflexivity.
Qed.

Lemma lng_structure_step_CS offset self i line :
  startswith (strip line) (lit "CS:") = true ->
  IFSValidator.errors (IFSValidator.lng_structure_step offset self (i, line))
  = IFSValidator.errors self
    ++ (if length (split (strip line) CARET) =? 5 then []
        else [ IFSValidator.line_prefix (i + offset + 1)
               ++ lit "Invalid CS format. Expected 5 parts, got "
               ++ str_of_nat (length (split (strip line) CARET)) ]).
Proof.
  intros H. unfold IFSValidator.lng_structure_step.
  destruct (CS_not_prompt _ H) as [Hp _]. rewrite H, Hp.
  destruct (length (split (strip line) CARET) =? 5); cbn [negb].
  - rewrite app_nil_r. reflexivity.
  - reflexivity.
Qed.

Lemma trs_structure_step_CS offset self i line :
  startswith (strip line) (lit "CS:") = true ->
  IFSValidator.errors (IFSValidator.trs_structure_step offset self (i, line))
  = IFSValidator.errors self
    ++ (if length (split (strip line) CARET) =? 2 then []
        else [ IFSValidator.line_prefix (i + offset + 1)
               ++ lit "Invalid CS format for .trs. Expected 2 parts, got "
               ++ str_of_nat (length (split (strip line) CARET)) ]).
Proof.
  intros H. unfold IFSValidator.trs_structure_step.
  destruct (CS_not_prompt _ H) as [Hp HP]. rewrite H, Hp, HP.
  destruct (length (split (strip line) CARET) =? 2); cbn [negb].
  - rewrite app_nil_r. reflexivity.
  - reflexivity.
Qed.

(** The structure loops only add to the errors. *)
Lemma lng_structure_step_grows offset self il :
  exists extra,
    IFSValidator.errors (IFSValidator.lng_structure_step offset self il)
    = IFSValidator.errors self ++ extra.
Proof.
  destruct il as [i line]. unfold IFSValidator.lng_structure_step.
  repeat match goal with
         | |- context [if ?c then _ else _] => destruct c
         end;
    cbn [IFSValidator.errors_append IFSValidator.errors];
    rewrite <- ?app_assoc; eexists; try reflexivity.
  all: symmetry; apply app_nil_r.
Qed.

Lemma trs_structure_step_grows offset self il :
  exists extra,
    IFSValidator.errors (IFSValidator.trs_structure_step offset self il)
    = IFSValidator.errors self ++ extra.
Proof.
  destruct il as [i line]. unfold IFSValidator.trs_structure_step.
  repeat match goal with
         | |- context [if ?c then _ else _] => destruct c
         end;
    cbn [IFSValidator.errors_append IFSValidator.errors];
    rewrite <- ?app_assoc; eexists; try reflexivity.
  all: symmetry; apply app_nil_r.
Qed.

Lemma fold_left_grows (step : IFSValidator.t -> nat * str -> IFSValidator.t)
    (l : list (nat * str)) :
  (forall s il, exists extra,
      IFSValidator.errors (step s il) = IFSValidator.errors s ++ extra) ->
  forall s, exists extra,
    IFSValidator.errors (fold_left step l s) = IFSValidator.errors s ++ extra.
Proof.
  intros H. induction l as [|il l IH]; intros s; cbn [fold_left].
  - exists []. symmetry. apply app_nil_r.
  - destruct (IH (step s il)) as [e2 ->]. destruct (H s il) as [e1 ->].
    exists (e1 ++ e2). rewrite app_assoc. reflexivity.
Qed.

(** An error that the step at line [i] adds is in the list at the end of the
    loop. *)
Lemma recorded_at_end (step : IFSValidator.t -> nat * str -> IFSValidator.t)
    (content_lines : list str) (i : nat) (line m : str) (self : IFSValidator.t) :
  (forall s il, exists extra,
      IFSValidator.errors (step s il) = IFSValidator.errors s ++ extra) ->
  nth_error content_lines i = Some line ->
  (forall s, In m (IFSValidator.errors (step s (i, line)))) ->
  In m (IFSValidator.errors (fold_left step (enumerate content_lines) self)).
Proof.
  intros Hgrow Hnth Hm.
  destruct (nth_error_split _ _ Hnth) as (a & b & -> & <-).
  unfold enumerate. rewrite enumerate_from_app, fold_left_app.
  cbn [enumerate_from fold_left Nat.add].
  destruct (fold_left_grows step (enumerate_from (S (length a)) b) Hgrow
              (step (fold_left step (enumerate_from 0 a) self) (length a, line)))
    as [extra ->].
  apply in_or_app. left. apply Hm.
Qed.

Lemma in_identifiers_lu data k lu :
  In (k, lu) (logical_units data) -> In (lu_name lu) (identifiers data).
Proof.
  intros H. unfold identifiers. apply in_flat_map. exists (k, lu).
  split; [exact H | left; reflexivity].
Qed.

Lemma in_identifiers_view data k lu kv v :
  In (k, lu) (logical_units data) -> In (kv, v) (views lu) ->
  In (view_control v) (identifiers data).
Proof.
  intros H Hv. unfold identifiers. apply in_flat_map. exists (k, lu).
  split; [exact H|]. right. apply in_flat_map. exists (kv, v).
  split; [exact Hv | left; reflexivity].
Qed.

Lemma in_identifiers_column data k lu kv v kc c :
  In (k, lu) (logical_units data) -> In (kv, v) (views lu) ->
  In (kc, c) (columns v) ->
  In (col_control c) (identifiers data).
Proof.
  intros H Hv Hc. unfold identifiers. apply in_flat_map. exists (k, lu).
  split; [exact H|]. right. apply in_flat_map. exists (kv, v).
  split; [exact Hv|]. right. apply in_map_iff. exists (kc, c).
  split; [reflexivity | exact Hc].
Qed.

(** The [CS:] lines of the definition encoder carry an identifier of the
    tree and four more fields. *)
Lemma lng_items_CS data it :
  In it (lng_items data) -> is_CS (snd it) = true ->
  exists identifier f,
    snd it = CS_line identifier f /\ fields_carets f = 4
    /\ In identifier (identifiers data).
Proof.
  unfold lng_items. intros Hin Hcs.
  apply in_flat_map in Hin as ([k lu] & Hlu & Hin). cbn [snd] in Hin.
  unfold lng_lu_items in Hin.
  destruct Hin as [<-|[<-|Hin]]; try discriminate.
  { eexists _, _. repeat split. eapply in_identifiers_lu; eassumption. }
  apply in_app_or in Hin as [Hin|[<-|[]]]; try discriminate.
  apply in_flat_map in Hin as ([kv v] & Hv & Hin). cbn [snd] in Hin.
  unfold lng_view_items in Hin.
  destruct Hin as [<-|Hin].
  { eexists _, _. repeat split. eapply in_identifiers_view; eassumption. }
  apply in_app_or in Hin as [Hin|[<-|[]]]; try discriminate.
  apply in_flat_map in Hin as ([kc c] & Hc & Hin). cbn [snd] in Hin.
  destruct (is_custom c); [|contradiction].
  unfold lng_column_items in Hin.
  destruct Hin as [<-|[<-|[<-|[]]]]; try discriminate.
  eexists _, _. repeat split. eapply in_identifiers_column; eassumption.
Qed.

(** The [CS:] lines of the translation encoder carry an identifier of the
    tree and one more field. *)
Lemma trs_items_CS tr data it :
  In it (trs_items tr data) -> is_CS (snd it) = true ->
  exists identifier f,
    snd it = CS_line identifier f /\ fields_carets f = 1
    /\ In identifier (identifiers data).
Proof.
  unfold trs_items. intros Hin Hcs.
  apply in_flat_map in Hin as ([k lu] & Hlu & Hin). cbn [snd] in Hin.
  unfold trs_lu_items in Hin.
  destruct Hin as [<-|Hin].
  { eexists _, _. repeat split. eapply in_identifiers_lu; eassumption. }
  apply in_app_or in Hin as [Hin|[<-|[]]]; try discriminate.
  apply in_flat_map in Hin as ([kv v] & Hv & Hin). cbn [snd] in Hin.
  unfold trs_view_items in Hin.
  destruct Hin as [<-|Hin].
  { eexists _, _. repeat split. eapply in_identifiers_view; eassumption. }
  apply in_app_or in Hin as [Hin|[<-|[]]]; try discriminate.
  apply in_flat_map in Hin as ([kc c] & Hc & Hin). cbn [snd] in Hin.
  destruct (is_custom c); [|contradiction].
  unfold trs_column_items in Hin.
  destruct Hin as [<-|[<-|[<-|[<-|[]]]]]; try discriminate.
  eexists _, _. repeat split. eapply in_identifiers_column; eassumption.
Qed.

(** A [CS:] line that is read back has one field more than it has
    carets. *)
Lemma read_CS_fields (items : list (nat * block_line)) (ids : list str)
    (carets : nat) (l : str) :
  (forall it, In it items -> is_CS (snd it) = true ->
              exists identifier f,
                snd it = CS_line identifier f /\ fields_carets f = carets
                /\ In identifier ids) ->
  forallb (fun identifier => negb (has_char CARET identifier)) ids = true ->
  In l (map (fun it => as_read (render it)) items) ->
  starts_block l = true ->
  length (split (strip l) CARET) = S carets.
Proof.
  intros Hitems Hids Hl Hcs. unfold starts_block in Hcs.
  apply in_map_iff in Hl as (it & <- & Hin).
  rewrite strip_as_read in *. rewrite startswith_CS in Hcs.
  destruct (Hitems it Hin Hcs) as (identifier & f & -> & Hf & Hid).
  rewrite CS_line_fields, Hf.
  rewrite forallb_forall in Hids. specialize (Hids _ Hid).
  apply negb_true_iff in Hids. rewrite (filter_absent _ _ Hids). reflexivity.
Qed.

(** The [CS:] lines that are read back are those that were written. *)
Lemma read_CS_count (items : list (nat * block_line)) :
  length (List.filter starts_block (map (fun it => as_read (render it)) items))
  = length (List.filter (fun it => is_CS (snd it)) items).
Proof.
  induction items as [|it items IH]; [reflexivity|].
  cbn [map List.filter]. unfold starts_block at 1.
  rewrite strip_as_read, startswith_CS.
  destruct (is_CS (snd it)); cbn [length]; rewrite IH; reflexivity.
Qed.

Lemma filter_nowhere {A} (c : A -> bool) (l : list A) :
  Forall (fun x => c x = false) l -> List.filter c l = [].
Proof.
  induction 1 as [|x l Hx Hl IH]; [reflexivity|].
  cbn [List.filter]. rewrite Hx. exact IH.
Qed.

(** One [CS:] line for every column block, view block and logical-unit
    block. *)
Lemma CS_count_columns (f : Column -> list (nat * block_line))
    (cols : list (str * Column)) :
  (forall c, length (List.filter (fun it => is_CS (snd it)) (f c)) = 1) ->
  length (List.filter (fun it => is_CS (snd it))
            (flat_map (fun item => if is_custom (snd item) then f (snd item) else [])
               cols))
  = length (List.filter (fun c => is_custom (snd c)) cols).
Proof.
  intros Hf. induction cols as [|c cols IH]; [reflexivity|].
  cbn [flat_map List.filter]. rewrite List.filter_app, length_app, IH.
  destruct (is_custom (snd c)); [rewrite Hf|]; reflexivity.
Qed.

Lemma CS_count_views (f : View -> list (nat * block_line))
    (vs : list (str * View)) :
  (forall v,
      length (List.filter (fun it => is_CS (snd it)) (f v))
      = 1 + length (List.filter (fun c => is_custom (snd c)) (columns v))) ->
  length (List.filter (fun it => is_CS (snd it))
            (flat_map (fun item => f (snd item)) vs))
  = length vs
    + length (List.filter (fun c => is_custom (snd c))
                (flat_map (fun v => columns (snd v)) vs)).
Proof.
  intros Hf. induction vs as [|v vs IH]; [reflexivity|].
  cbn [flat_map length]. rewrite !List.filter_app, !length_app, IH, Hf. lia.
Qed.

Lemma CS_count_lus (f : LogicalUnit -> list (nat * block_line))
    (lus : list (str * LogicalUnit)) :
  (forall lu,
      length (List.filter (fun it => is_CS (snd it)) (f lu))
      = 1 + length (views lu)
        + length (List.filter (fun c => is_custom (snd c))
                    (flat_map (fun v => columns (snd v)) (views lu)))) ->
  length (List.filter (fun it => is_CS (snd it))
            (flat_map (fun item => f (snd item)) lus))
  = length lus
    + length (flat_map (fun lu => views (snd lu)) lus)
    + length (List.filter (fun c => is_custom (snd c))
                (flat_map (fun v => columns (snd v))
                   (flat_map (fun lu => views (snd lu)) lus))).
Proof.
  intros Hf. induction lus as [|lu lus IH]; [reflexivity|].
  cbn [flat_map length].
  rewrite flat_map_app, !List.filter_app, !length_app, IH, Hf. lia.
Qed.

Lemma lng_items_CS_count data :
  length (List.filter (fun it => is_CS (snd it)) (lng_items data))
  = length (logical_units data) + length (all_views data)
    + length (List.filter (fun c => is_custom (snd c)) (all_columns data)).
Proof.
  unfold lng_items, all_columns, all_views.
  apply (CS_count_lus (fun lu => lng_lu_items lu 0)).
  intros lu. unfold lng_lu_items. cbn [List.filter snd is_CS length].
  rewrite List.filter_app, length_app.
  rewrite (CS_count_views (fun v => lng_view_items v (0 + 1))).
  { cbn [List.filter snd is_CS length]. lia. }
  intros v. unfold lng_view_items. cbn [List.filter snd is_CS length].
  rewrite List.filter_app, length_app.
  rewrite (CS_count_columns (fun c => lng_column_items c (0 + 1 + 1)))
    by reflexivity.
  cbn [List.filter snd is_CS length]. lia.
Qed.

Lemma trs_items_CS_count tr data :
  length (List.filter (fun it => is_CS (snd it)) (trs_items tr data))
  = length (logical_units data) + length (all_views data)
    + length (List.filter (fun c => is_custom (snd c)) (all_columns data)).
Proof.
  unfold trs_items, all_columns, all_views.
  apply (CS_count_lus (fun lu => trs_lu_items tr lu 0)).
  intros lu. unfold trs_lu_items. cbn [List.filter snd is_CS length].
  rewrite List.filter_app, length_app.
  rewrite (CS_count_views (fun v => trs_view_items tr v (0 + 1))).
  { cbn [List.filter snd is_CS length]. lia. }
  intros v. unfold trs_view_items. cbn [List.filter snd is_CS length].
  rewrite List.filter_app, length_app.
  rewrite (CS_count_columns (fun c => trs_column_items tr c (0 + 1 + 1)))
    by reflexivity.
  cbn [List.filter snd is_CS length]. lia.
Qed.

(** The [CS:] lines of a written text, as they are read back: each has one
    field more than the carets that follow its identifier, and they are as
    many as the lines that open a block. *)
Lemma read_CS_lines (hdr : list str) (items : list (nat * block_line))
    (ids : list str) (carets : nat) :
  forallb single_line hdr = true ->
  forallb (fun it => line_holds single_line (snd it)) items = true ->
  Forall (fun x => startswith (strip x) (lit "CS:") = false) (map as_read hdr) ->
  (forall it, In it items -> is_CS (snd it) = true ->
              exists identifier f,
                snd it = CS_line identifier f /\ fields_carets f = carets
                /\ In identifier ids) ->
  forallb (fun identifier => negb (has_char CARET identifier)) ids = true ->
  let lines :=
    readlines (concat (map (fun s => s ++ crlf) (hdr ++ map render items))) in
  (forall l, In l lines -> starts_block l = true ->
             length (split (strip l) CARET) = S carets)
  /\ length (List.filter starts_block lines)
     = length (List.filter (fun it => is_CS (snd it)) items).
Proof.
  intros Hh Hi Hnot Hitems Hids lines.
  assert (Hlines : lines = map as_read hdr
                           ++ map (fun it => as_read (render it)) items).
  { apply readlines_written; assumption. }
  rewrite Hlines. split.
  - intros l Hl Hcs. apply in_app_or in Hl as [Hl|Hl].
    + rewrite List.Forall_forall in Hnot. specialize (Hnot l Hl).
      unfold starts_block in Hcs. congruence.
    + apply (read_CS_fields items ids); assumption.
  - rewrite List.filter_app, length_app, read_CS_count.
    rewrite (filter_nowhere starts_block _ Hnot). reflexivity.
Qed.

(** C4, as the specification states it, fails for the lines of the files:
    in the tree of the scenario with the name [Order], a line break and
    [Line] for its logical unit, no identifier has a caret, and the line
    [CS:Order] of either file has one field.  [validate_file] reports it for
    the definition file (5 expected) and for the translation file (2
    expected). *)
Lemma field_count_counterexample :
  forallb (fun identifier => negb (has_char CARET identifier))
    (identifiers split_name_data) = true
  /\ nth_error
       (readlines (LNGGenerator.generate_header lng_generator
                   ++ LNGGenerator.generate_content split_name_data)) 10
     = Some (lit "CS:Order" ++ [LF])
  /\ nth_error
       (readlines (TRSGenerator.generate_header trs_generator
                   ++ TRSGenerator.generate_content split_name_data
                        test_translations)) 12
     = Some (lit "CS:Order" ++ [LF])
  /\ starts_block (lit "CS:Order" ++ [LF]) = true
  /\ length (split (strip (lit "CS:Order" ++ [LF])) CARET) = 1
  /\ fst (IFSValidator.validate_file IFSValidator.init lng_path
            (snd (LNGGenerator.generate_file lng_generator split_name_data
                    lng_path no_files)))
     = (false, [ lit "Line 11: Invalid CS format. Expected 5 parts, got 1" ], [])
  /\ fst (IFSValidator.validate_file IFSValidator.init trs_path
            (snd (TRSGenerator.generate_file trs_generator split_name_data
                    test_translations trs_path no_files)))
     = (false,
        [ lit "Line 13: Invalid CS format for .trs. Expected 2 parts, got 1" ],
        []).
Proof. repeat split; vm_compute; reflexivity. Qed.

(** C4, amended: the field-count contract.  On a line of the content
    section whose trimmed text begins with [CS:], the structure check of the
    definition kind adds exactly one error, naming the expected 5 and the
    actual number of caret-separated fields, unless there are exactly 5, and
    that of the translation kind does the same with 2; such an error is in
    the list when the loop ends.  When the identifiers of the tree have no
    caret and no string that is written (identifier, label, translated
    label, header field) has a line break, every line with [CS:] of the text
    that the definition encoder writes to the file, read back as
    [validate_file] reads it, has 5 such fields, and every such line of the
    text of the translation encoder has 2; in either text these lines are as
    many as the logical units, the views and the custom columns of the
    tree. *)
Theorem field_count_contract
    (content_lines : list str) (offset i : nat) (line : str)
    (self : IFSValidator.t) (lng : LNGGenerator.t) (trs : TRSGenerator.t)
    (data : ResourceTree) (translations : gmap (list N) (list N)) :
  nth_error content_lines i = Some line ->
  startswith (strip line) (lit "CS:") = true ->
  forallb (fun identifier => negb (has_char CARET identifier)) (identifiers data)
  = true ->
  tree_written single_line data = true ->
  translated_written single_line translations data = true ->
  lng_header_ok lng = true ->
  trs_header_ok trs = true ->
  let n := length (split (strip line) CARET) in
  let lng_error :=
    IFSValidator.line_prefix (i + offset + 1)
    ++ lit "Invalid CS format. Expected 5 parts, got " ++ str_of_nat n in
  let trs_error :=
    IFSValidator.line_prefix (i + offset + 1)
    ++ lit "Invalid CS format for .trs. Expected 2 parts, got " ++ str_of_nat n in
  let lng_lines :=
    readlines (LNGGenerator.generate_header lng
               ++ LNGGenerator.generate_content data) in
  let trs_lines :=
    readlines (TRSGenerator.generate_header trs
               ++ TRSGenerator.generate_content data translations) in
  let nodes :=
    length (logical_units data) + length (all_views data)
    + length (List.filter (fun c => is_custom (snd c)) (all_columns data)) in
  IFSValidator.errors (IFSValidator.lng_structure_step offset self (i, line))
  = IFSValidator.errors self ++ (if n =? 5 then [] else [lng_error])
  /\ (n <> 5 ->
      In lng_error
        (IFSValidator.errors
           (IFSValidator._validate_lng_structure content_lines offset self)))
  /\ IFSValidator.errors (IFSValidator.trs_structure_step offset self (i, line))
     = IFSValidator.errors self ++ (if n =? 2 then [] else [trs_error])
  /\ (n <> 2 ->
      In trs_error
        (IFSValidator.errors
           (IFSValidator._validate_trs_structure content_lines offset self)))
  /\ (forall l, In l lng_lines -> starts_block l = true ->
                length (split (strip l) CARET) = 5)
  /\ length (List.filter starts_block lng_lines) = nodes
  /\ (forall l, In l trs_lines -> starts_block l = true ->
                length (split (strip l) CARET) = 2)
  /\ length (List.filter starts_block trs_lines) = nodes.
Proof.
  intros Hnth Hcs Hids Hd Ht Hlg Htg n lng_error trs_error lng_lines trs_lines
    nodes.
  split; [apply lng_structure_step_CS; exact Hcs|].
  split.
  { intros Hn. unfold IFSValidator._validate_lng_structure.
    apply (recorded_at_end _ _ i line);
      [apply lng_structure_step_grows | exact Hnth |].
    intros s. rewrite lng_structure_step_CS by exact Hcs.
    apply Nat.eqb_neq in Hn. fold n. rewrite Hn.
    apply in_or_app. right. left. reflexivity. }
  split; [apply trs_structure_step_CS; exact Hcs|].
  split.
  { intros Hn. unfold IFSValidator._validate_trs_structure.
    apply (recorded_at_end _ _ i line);
      [apply trs_structure_step_grows | exact Hnth |].
    intros s. rewrite trs_structure_step_CS by exact Hcs.
    apply Nat.eqb_neq in Hn. fold n. rewrite Hn.
    apply in_or_app. right. left. reflexivity. }
  assert (Hl : (forall l, In l lng_lines -> starts_block l = true ->
                          length (split (strip l) CARET) = 5)
               /\ length (List.filter starts_block lng_lines)
                  = length (List.filter (fun it => is_CS (snd it))
                              (lng_items data))).
  { unfold lng_lines. rewrite lng_file_text.
    apply (read_CS_lines _ _ (identifiers data) 4).
    - apply lng_header_single. exact Hlg.
    - rewrite lng_items_holds. exact Hd.
    - apply lng_header_lines_not_CS.
    - apply lng_items_CS.
    - exact Hids. }
  assert (Hr : (forall l, In l trs_lines -> starts_block l = true ->
                          length (split (strip l) CARET) = 2)
               /\ length (List.filter starts_block trs_lines)
                  = length (List.filter (fun it => is_CS (snd it))
                              (trs_items translations data))).
  { unfold trs_lines. rewrite trs_file_text.
    apply (read_CS_lines _ _ (identifiers data) 1).
    - apply trs_header_single. exact Htg.
    - apply trs_items_holds; assumption.
    - apply trs_header_lines_not_CS.
    - apply trs_items_CS.
    - exact Hids. }
  destruct Hl as [Hl1 Hl2]. destruct Hr as [Hr1 Hr2].
  split; [exact Hl1|].
  split; [rewrite Hl2; apply lng_items_CS_count|].
  split; [exact Hr1|].
  rewrite Hr2. apply trs_items_CS_count.
Qed.

Lemma field_count_contract_witness :
  nth_error (readlines scenario_C_text) 1 = Some (lit "CS:B^LU" ++ [LF])
  /\ startswith (strip (lit "CS:B^LU" ++ [LF])) (lit "CS:") = true
  /\ forallb (fun identifier => negb (has_char CARET identifier))
       (identifiers test_data) = true
  /\ tree_written single_line test_data = true
  /\ translated_written single_line test_translations test_data = true
  /\ lng_header_ok lng_generator = true
  /\ trs_header_ok trs_generator = true
  /\ IFSValidator.errors
       (IFSValidator.lng_structure_step 12 IFSValidator.init
          (1, lit "CS:B^LU" ++ [LF]))
     = [ lit "Line 14: Invalid CS format. Expected 5 parts, got 2" ]
  /\ IFSValidator.errors
       (IFSValidator.trs_structure_step 12 IFSValidator.init
          (1, lit "CS:B^LU" ++ [LF]))
     = []
  /\ length
       (List.filter starts_block
          (readlines (LNGGenerator.generate_header lng_generator
                      ++ LNGGenerator.generate_content test_data)))
     = 3.
Proof.
  assert (H1 : nth_error (readlines scenario_C_text) 1
               = Some (lit "CS:B^LU" ++ [LF])) by (vm_compute; reflexivity).
  assert (H2 : startswith (strip (lit "CS:B^LU" ++ [LF])) (lit "CS:") = true)
    by (vm_compute; reflexivity).
  assert (H3 : forallb (fun identifier => negb (has_char CARET identifier))
                 (identifiers test_data) = true) by (vm_compute; reflexivity).
  assert (H4 : tree_written single_line test_data = true)
    by (vm_compute; reflexivity).
  assert (H5 : translated_written single_line test_translations test_data = true)
    by (vm_compute; reflexivity).
  assert (H6 : lng_header_ok lng_generator = true) by (vm_compute; reflexivity).
  assert (H7 : trs_header_ok trs_generator = true) by (vm_compute; reflexivity).
  destruct (field_count_contract (readlines scenario_C_text) 12 1
              (lit "CS:B^LU" ++ [LF]) IFSValidator.init lng_generator
              trs_generator test_data test_translations H1 H2 H3 H4 H5 H6 H7)
    as (Ha & _ & Hb & _ & _ & Hc & _).
  split; [exact H1|]. split; [exact H2|]. split; [exact H3|].
  split; [exact H4|]. split; [exact H5|]. split; [exact H6|].
  split; [exact H7|]. split; [exact Ha|]. split; [exact Hb | exact Hc].
Defined.

(** ** The fallback law *)

(** Splits conjunctions only, leaving equations to be computed. *)
Ltac split_conj := repeat match goal with |- _ /\ _ => split end.

(** C5, as the specification states it, fails: the label [Test Field] of the
    scenario, absent from the empty translation dict, gives an accepted
    file; the same label with an explicit translation that has a line break
    in it gives a rejected one; and with an explicit translation that is a
    lone surrogate the write raises [UnicodeEncodeError] and leaves an empty
    file, which is rejected. *)
Lemma fallback_counterexample :
  translations_get (∅ : gmap (list N) (list N)) (lit "Test Field")
  = lit "Test Field"
  /\ fst (IFSValidator.validate_file IFSValidator.init trs_path
            (snd (TRSGenerator.generate_file trs_generator test_data ∅ trs_path
                    no_files)))
     = (true, [], [])
  /\ broken_translations = <[ lit "Test Field" := lit "Test" ++ [LF] ++ lit "Field" ]> ∅
  /\ fst (IFSValidator.validate_file IFSValidator.init trs_path
            (snd (TRSGenerator.generate_file trs_generator test_data
                    broken_translations trs_path no_files)))
     = (false, [ lit "Line 17: A:Prompt should end with ^" ], [])
  /\ surrogate_translations = <[ lit "Test Field" := [55296%N] ]> ∅
  /\ single_line [55296%N] = true
  /\ fst (TRSGenerator.generate_file trs_generator test_data
            surrogate_translations trs_path no_files)
     = Raised UnicodeEncodeError
  /\ fst (IFSValidator.validate_file IFSValidator.init trs_path
            (snd (TRSGenerator.generate_file trs_generator test_data
                    surrogate_translations trs_path no_files)))
     = (false,
        [ lit "File too short, missing header";
          lit "Could not find content section" ],
        []).
Proof. split_conj; vm_compute; reflexivity. Qed.

(** C5, amended: the fallback law.  For a column whose label [L] is absent
    from the translation dict, the translation encoder writes
    [A:Prompt^L^], the label unchanged; and when neither [L] nor an explicit
    translation [T] for it has a line break, and [T] can be encoded in UTF-8
    (it has no surrogate code point), the file written without the entry
    and the file written with the entry [L -> T] get the same verdict, the
    same errors and the same warnings from [validate_file]. *)
Theorem fallback_law
    (g : TRSGenerator.t) (data : ResourceTree)
    (translations : gmap (list N) (list N)) (L T : str)
    (c : Column) (indent_level : nat)
    (file : Path) (fs : FS) (self : IFSValidator.t) :
  translations !! L = None ->
  col_label c = L ->
  single_line L = true ->
  single_line T = true ->
  encodable T = true ->
  nth_error (TRSGenerator._generate_column_block c translations indent_level) 2
  = Some (str_mul TAB indent_level ++ [TAB] ++ lit "A:Prompt^" ++ L ++ lit "^" ++ crlf)
  /\ fst (IFSValidator.validate_file self file
            (snd (TRSGenerator.generate_file g data translations file fs)))
     = fst (IFSValidator.validate_file self file
              (snd (TRSGenerator.generate_file g data (<[L := T]> translations)
                      file fs))).
Proof.
  intros Habsent Hc HL HT HeT.
  assert (Hget : translations_get translations L = L).
  { unfold translations_get. rewrite Habsent. reflexivity. }
  split.
  - unfold TRSGenerator._generate_column_block. cbn [nth_error].
    rewrite Hc, Hget. reflexivity.
  - apply translations_irrelevant; intros label.
    + destruct (decide (L = label)) as [<-|Hne].
      * right. rewrite Hget. unfold translations_get.
        rewrite lookup_insert_eq. cbn [default]. split; assumption.
      * left. unfold translations_get. rewrite lookup_insert_ne by exact Hne.
        reflexivity.
    + destruct (decide (L = label)) as [<-|Hne].
      * rewrite Hget. unfold translations_get.
        rewrite lookup_insert_eq. change (default L (Some T)) with T.
        rewrite HeT. destruct (encodable L); reflexivity.
      * unfold translations_get. rewrite lookup_insert_ne by exact Hne.
        reflexivity.
Qed.

Lemma fallback_law_witness :
  (∅ : gmap (list N) (list N)) !! lit "Test Field" = None
  /\ col_label C_TEST_FIELD = lit "Test Field"
  /\ single_line (lit "Test Field") = true
  /\ single_line Testfalt = true
  /\ encodable Testfalt = true
  /\ nth_error (TRSGenerator._generate_column_block C_TEST_FIELD ∅ 2) 2
     = Some ([TAB; TAB; TAB] ++ lit "A:Prompt^Test Field^" ++ crlf)
  /\ fst (IFSValidator.validate_file IFSValidator.init trs_path
            (snd (TRSGenerator.generate_file trs_generator test_data ∅ trs_path
                    no_files)))
     = fst (IFSValidator.validate_file IFSValidator.init trs_path
              (snd (TRSGenerator.generate_file trs_generator test_data
                      (<[ lit "Test Field" := Testfalt ]> ∅) trs_path no_files))).
Proof.
  assert (H1 : (∅ : gmap (list N) (list N)) !! lit "Test Field" = None)
    by apply lookup_empty.
  assert (H2 : col_label C_TEST_FIELD = lit "Test Field") by reflexivity.
  assert (H3 : single_line (lit "Test Field") = true) by (vm_compute; reflexivity).
  assert (H4 : single_line Testfalt = true) by (vm_compute; reflexivity).
  assert (H5 : encodable Testfalt = true) by (vm_compute; reflexivity).
  destruct (fallback_law trs_generator test_data ∅ (lit "Test Field") Testfalt
              C_TEST_FIELD 2 trs_path no_files IFSValidator.init H1 H2 H3 H4 H5)
    as [Ha Hb].
  split; [exact H1|]. split; [exact H2|]. split; [exact H3|].
  split; [exact H4|]. split; [exact H5|]. split; [exact Ha|exact Hb].
Defined.

(** ** Scenarios C and D *)

Lemma scenario_C_lines :
  readlines scenario_C_text
  = [ render (0, CS_line (lit "A") TrsFields) ++ [LF];
      render (0, CS_line (lit "B") TrsFields) ++ [LF];
      render (0, CE_line) ++ [LF] ].
Proof. vm_compute. reflexivity. Qed.

(** C6: Scenario C.  The nesting check over the lines [CS:A^LU], [CS:B^LU],
    [CE:] records exactly one error, that [A] is not closed, at the line
    where [A] was opened, and no warning: both blocks are on the stack after
    the second line, and the [CE:] line pops [B], the one opened last.
    Behind the header of a translation file the same text gives this one
    error. *)
Theorem scenario_C_unclosed_block :
  forall (offset : nat) (self : IFSValidator.t),
    IFSValidator.errors
      (IFSValidator._validate_cs_ce_pairing (readlines scenario_C_text) offset self)
    = IFSValidator.errors self
      ++ [ IFSValidator.line_prefix (offset + 1) ++ lit "CS 'A' not closed with CE" ]
    /\ IFSValidator.warnings
         (IFSValidator._validate_cs_ce_pairing (readlines scenario_C_text) offset self)
       = IFSValidator.warnings self
    /\ snd (IFSValidator.cs_ce_scan (firstn 2 (readlines scenario_C_text)) offset self)
       = [ (lit "A", offset + 1); (lit "B", offset + 2) ]
    /\ snd (IFSValidator.cs_ce_scan (readlines scenario_C_text) offset self)
       = [ (lit "A", offset + 1) ]
    /\ fst (IFSValidator.validate_file self trs_path
              (fs_write no_files trs_path
                 (TRSGenerator.generate_header trs_generator ++ scenario_C_text)))
       = (false, [ lit "Line 13: CS 'A' not closed with CE" ], []).
Proof.
  intros offset self. rewrite scenario_C_lines.
  unfold IFSValidator._validate_cs_ce_pairing, IFSValidator.cs_ce_scan, enumerate.
  cbn [firstn enumerate_from fold_left].
  rewrite !cs_ce_step_rendered by reflexivity.
  replace (offset + 2) with (1 + offset + 1) by lia.
  split; [reflexivity|]. split; [reflexivity|]. split; [reflexivity|].
  split; [reflexivity|]. vm_compute. reflexivity.
Qed.




(** ** The header *)

(** C8, as the specification states it, fails for the translation kind: its
    header has twelve lines, not ten. *)
Lemma header_counterexample :
  length (TRSGenerator.header trs_generator) = 12
  /\ length (readlines (TRSGenerator.generate_header trs_generator)) = 12
  /\ nth_error (readlines (TRSGenerator.generate_header trs_generator)) 5
     = Some (lit "Language: sv" ++ [LF])
  /\ nth_error (readlines (TRSGenerator.generate_header trs_generator)) 6
     = Some (lit "Culture: sv-SE" ++ [LF]).
Proof. split_conj; vm_compute; reflexivity. Qed.

(** C8, amended: the header.  The header generator of the definition kind
    writes ten lines and that of the translation kind twelve, the two more
    being [Language:] and [Culture:] behind [Module:]; on both, the lines
    are the separator rule, the file type, the version [10.00], the
    separator rule, the fields, the [Content:] marker and the closing
    separator rule, each followed by carriage return and line feed.  Main
    type and sub type are [LU] and [Logical Unit] by default.  Read back,
    the headers have ten and twelve lines when no field has a line
    break. *)
Theorem header_preamble (lng : LNGGenerator.t) (trs : TRSGenerator.t) :
  lng_header_ok lng = true ->
  trs_header_ok trs = true ->
  LNGGenerator.generate_header lng
  = separator ++ crlf
    ++ lit "File Type: IFS Foundation Language File" ++ crlf
    ++ lit "Type version: 10.00" ++ crlf
    ++ separator ++ crlf
    ++ lit "Module: " ++ LNGGenerator.module lng ++ crlf
    ++ lit "Layer: " ++ LNGGenerator.layer lng ++ crlf
    ++ lit "Main Type: " ++ LNGGenerator.main_type lng ++ crlf
    ++ lit "Sub Type: " ++ LNGGenerator.sub_type lng ++ crlf
    ++ lit "Content: " ++ crlf
    ++ separator ++ crlf
  /\ TRSGenerator.generate_header trs
     = separator ++ crlf
       ++ lit "File Type: IFS Foundation Translation File" ++ crlf
       ++ lit "Type version: 10.00" ++ crlf
       ++ separator ++ crlf
       ++ lit "Module: " ++ TRSGenerator.module trs ++ crlf
       ++ lit "Language: " ++ TRSGenerator.lang_code trs ++ crlf
       ++ lit "Culture: " ++ TRSGenerator.culture trs ++ crlf
       ++ lit "Layer: " ++ TRSGenerator.layer trs ++ crlf
       ++ lit "Main Type: " ++ TRSGenerator.main_type trs ++ crlf
       ++ lit "Sub Type: " ++ TRSGenerator.sub_type trs ++ crlf
       ++ lit "Content: " ++ crlf
       ++ separator ++ crlf
  /\ readlines (LNGGenerator.generate_header lng)
     = map as_read (LNGGenerator.header lng)
  /\ length (readlines (LNGGenerator.generate_header lng)) = 10
  /\ readlines (TRSGenerator.generate_header trs)
     = map as_read (TRSGenerator.header trs)
  /\ length (readlines (TRSGenerator.generate_header trs)) = 12
  /\ (forall module layer,
        LNGGenerator.main_type (LNGGenerator.init module layer) = lit "LU"
        /\ LNGGenerator.sub_type (LNGGenerator.init module layer)
           = lit "Logical Unit")
  /\ (forall module layer language,
        TRSGenerator.main_type (TRSGenerator.init module layer language) = lit "LU"
        /\ TRSGenerator.sub_type (TRSGenerator.init module layer language)
           = lit "Logical Unit").
Proof.
  intros Hl Ht.
  assert (Rl : readlines (LNGGenerator.generate_header lng)
               = map as_read (LNGGenerator.header lng)).
  { unfold LNGGenerator.generate_header. rewrite join_terminated by discriminate.
    apply readlines_single_segments, lng_header_single, Hl. }
  assert (Rt : readlines (TRSGenerator.generate_header trs)
               = map as_read (TRSGenerator.header trs)).
  { unfold TRSGenerator.generate_header. rewrite join_terminated by discriminate.
    apply readlines_single_segments, trs_header_single, Ht. }
  split.
  { unfold LNGGenerator.generate_header, LNGGenerator.header. cbn [join].
    rewrite <- !app_assoc. reflexivity. }
  split.
  { unfold TRSGenerator.generate_header, TRSGenerator.header. cbn [join].
    rewrite <- !app_assoc. reflexivity. }
  split; [exact Rl|].
  split; [rewrite Rl; reflexivity|].
  split; [exact Rt|].
  split; [rewrite Rt; reflexivity|].
  split; intros; split; reflexivity.
Qed.

Lemma header_preamble_witness :
  lng_header_ok lng_generator = true
  /\ trs_header_ok trs_generator = true
  /\ length (readlines (LNGGenerator.generate_header lng_generator)) = 10
  /\ length (readlines (TRSGenerator.generate_header trs_generator)) = 12.
Proof.
  assert (H1 : lng_header_ok lng_generator = true) by (vm_compute; reflexivity).
  assert (H2 : trs_header_ok trs_generator = true) by (vm_compute; reflexivity).
  destruct (header_preamble lng_generator trs_generator H1 H2)
    as (_ & _ & _ & Ha & _ & Hb & _).
  split; [exact H1|]. split; [exact H2|]. split; [exact Ha|exact Hb].
Defined.

(** ** Malformed [CS:] lines *)

Lemma malformed_CS_lines :
  readlines malformed_CS_text
  = [ render (0, CS_line (lit "A") TrsFields) ++ [LF];
      render (0, CS_line [] TrsFields) ++ [LF];
      render (0, CE_line) ++ [LF];
      render (0, CE_line) ++ [LF] ].
Proof. vm_compute. reflexivity. Qed.

(** C9: a [CS:] line whose trimmed text has nothing between [CS:] and the
    first caret, or is [CS:] alone, is reported as malformed and is not
    pushed on the stack.  So in the text [CS:A^LU], [CS:^LU], [CE:], [CE:]
    the first [CE:] pops the enclosing block [A], which empties the stack,
    and the second one is reported as [CE without matching CS]: the one
    malformed line at line 2 gives a second error at line 4. *)
Theorem malformed_CS_not_pushed
    (offset i : nat) (line rest : str)
    (self : IFSValidator.t) (stack : list (str * nat)) :
  strip line = lit "CS:" ++ rest ->
  rest = [] \/ hd_error rest = Some CARET ->
  IFSValidator.cs_ce_step offset (self, stack) (i, line)
  = (IFSValidator.errors_append
       (IFSValidator.line_prefix (i + offset + 1)
          ++ lit "Malformed CS line: " ++ strip line) self,
     stack)
  /\ snd (IFSValidator.cs_ce_scan (firstn 2 (readlines malformed_CS_text)) 0
            IFSValidator.init)
     = [ (lit "A", 1) ]
  /\ snd (IFSValidator.cs_ce_scan (firstn 3 (readlines malformed_CS_text)) 0
            IFSValidator.init)
     = []
  /\ IFSValidator.errors
       (IFSValidator._validate_cs_ce_pairing (readlines malformed_CS_text) 0
          IFSValidator.init)
     = [ lit "Line 2: Malformed CS line: CS:^LU";
         lit "Line 4: CE without matching CS" ].
Proof.
  intros Hstrip Hrest. split.
  - unfold IFSValidator.cs_ce_step. rewrite Hstrip.
    rewrite startswith_app.
    assert (Hre : re_match_CS (lit "CS:" ++ rest) = None).
    { unfold re_match_CS. rewrite startswith_app.
      change (skipn 3 (lit "CS:" ++ rest)) with rest.
      destruct Hrest as [->|Hhd]; [reflexivity|].
      destruct rest as [|c rest]; [discriminate|].
      injection Hhd as ->. reflexivity. }
    rewrite Hre. reflexivity.
  - split_conj; vm_compute; reflexivity.
Qed.

Lemma malformed_CS_not_pushed_witness :
  strip (lit "CS:^LU" ++ [LF]) = lit "CS:" ++ lit "^LU"
  /\ (lit "^LU" = [] \/ hd_error (lit "^LU") = Some CARET)
  /\ IFSValidator.cs_ce_step 0 (IFSValidator.init, [ (lit "A", 1) ])
       (1, lit "CS:^LU" ++ [LF])
     = ({| IFSValidator.errors := [ lit "Line 2: Malformed CS line: CS:^LU" ];
           IFSValidator.warnings := [] |},
        [ (lit "A", 1) ]).
Proof.
  assert (H1 : strip (lit "CS:^LU" ++ [LF]) = lit "CS:" ++ lit "^LU")
    by (vm_compute; reflexivity).
  assert (H2 : lit "^LU" = [] \/ hd_error (lit "^LU") = Some CARET)
    by (right; reflexivity).
  destruct (malformed_CS_not_pushed 0 1 (lit "CS:^LU" ++ [LF]) (lit "^LU")
              IFSValidator.init [ (lit "A", 1) ] H1 H2) as [Ha _].
  split; [exact H1|]. split; [exact H2|].
  rewrite Ha. vm_compute. reflexivity.
Defined.

(** ** No state between calls *)

(** C10: [validate_file] starts from empty error and warning lists, whatever
    the validator holds from an earlier call: what it returns for a stored
    file depends on the suffix of the path and on the text only, not on the
    validator, the path or the rest of the file system, and a second call on
    the same validator and the same file returns what the first one did.
    The validator holds the returned lists afterwards. *)
Theorem validate_file_stateless
    (self self' : IFSValidator.t) (file file' : Path) (fs fs' : FS) (text : str) :
  fs file = Stored text ->
  fs' file' = Stored text ->
  suffix file = suffix file' ->
  fst (IFSValidator.validate_file self file fs)
  = fst (IFSValidator.validate_file self' file' fs')
  /\ fst (IFSValidator.validate_file
            (snd (IFSValidator.validate_file self file fs)) file fs)
     = fst (IFSValidator.validate_file self file fs)
  /\ (forall (s s' : IFSValidator.t) (p : Path) (any : FS),
        IFSValidator.validate_file s p any = IFSValidator.validate_file s' p any)
  /\ (let '(is_valid, errors, warnings) :=
        fst (IFSValidator.validate_file self file fs) in
      IFSValidator.errors (snd (IFSValidator.validate_file self file fs)) = errors
      /\ IFSValidator.warnings (snd (IFSValidator.validate_file self file fs))
         = warnings).
Proof.
  intros Hfs Hfs' Hsuf.
  split.
  { rewrite (validate_file_stored self file fs text Hfs).
    rewrite (validate_file_stored self' file' fs' text Hfs').
    rewrite Hsuf. reflexivity. }
  split; [reflexivity|].
  split; [reflexivity|].
  unfold IFSValidator.validate_file. rewrite Hfs.
  destruct (negb _); [split; reflexivity|].
  destruct (IFSValidator._find_content_start (readlines text));
    split; reflexivity.
Qed.

Lemma validate_file_stateless_witness :
  fs_write no_files lng_path scenario_A_content lng_path = Stored scenario_A_content
  /\ fs_write no_files {| path_str := lit "other.lng"; suffix := lit ".lng" |}
       scenario_A_content {| path_str := lit "other.lng"; suffix := lit ".lng" |}
     = Stored scenario_A_content
  /\ suffix lng_path = suffix {| path_str := lit "other.lng"; suffix := lit ".lng" |}
  /\ fst (IFSValidator.validate_file
            {| IFSValidator.errors := [ lit "stale" ]; IFSValidator.warnings := [] |}
            lng_path (fs_write no_files lng_path scenario_A_content))
     = fst (IFSValidator.validate_file IFSValidator.init
              {| path_str := lit "other.lng"; suffix := lit ".lng" |}
              (fs_write no_files
                 {| path_str := lit "other.lng"; suffix := lit ".lng" |}
                 scenario_A_content)).
Proof.
  assert (H1 : fs_write no_files lng_path scenario_A_content lng_path
               = Stored scenario_A_content) by apply fs_read_written.
  assert (H2 : fs_write no_files
                 {| path_str := lit "other.lng"; suffix := lit ".lng" |}
                 scenario_A_content
                 {| path_str := lit "other.lng"; suffix := lit ".lng" |}
               = Stored scenario_A_content) by apply fs_read_written.
  assert (H3 : suffix lng_path
               = suffix {| path_str := lit "other.lng"; suffix := lit ".lng" |})
    by reflexivity.
  destruct (validate_file_stateless
              {| IFSValidator.errors := [ lit "stale" ]; IFSValidator.warnings := [] |}
              IFSValidator.init lng_path
              {| path_str := lit "other.lng"; suffix := lit ".lng" |}
              _ _ scenario_A_content H1 H2 H3) as [Ha _].
  split; [exact H1|]. split; [exact H2|]. split; [exact H3|exact Ha].
Defined.

(** * More of the code *)

(** ** Dicts that are built *)

Lemma str_eqb_eq a b : str_eqb a b = true <-> a = b.
Proof. unfold str_eqb. apply bool_decide_eq_true. Qed.

Lemma str_eqb_neq a b : str_eqb a b = false <-> a <> b.
Proof. unfold str_eqb. apply bool_decide_eq_false. Qed.

Lemma dict_set_fresh {V} k (v : V) d :
  ~ In k (map fst d) -> dict_set k v d = d ++ [(k, v)].
Proof.
  induction d as [|[k' v'] d IH]; [reflexivity|].
  cbn [map fst In dict_set app]. intros Hk.
  destruct (str_eqb k' k) eqn:E.
  - apply str_eqb_eq in E. tauto.
  - rewrite IH by tauto. reflexivity.
Qed.

Lemma dict_set_keys {V} k (v : V) d :
  In k (map fst d) -> map fst (dict_set k v d) = map fst d.
Proof.
  induction d as [|[k' v'] d IH]; [contradiction|].
  cbn [map fst In dict_set]. intros Hk.
  destruct (str_eqb k' k) eqn:E; [reflexivity|].
  apply str_eqb_neq in E. cbn [map fst]. rewrite IH; [reflexivity|].
  destruct Hk; [contradiction | assumption].
Qed.

Lemma dict_set_NoDup {V} k (v : V) d :
  NoDup (map fst d) -> NoDup (map fst (dict_set k v d)).
Proof.
  intros Hd. destruct (decide (k ∈ map fst d)) as [Hin|Hout].
  - rewrite dict_set_keys by (apply list_elem_of_In; exact Hin). exact Hd.
  - rewrite list_elem_of_In in Hout. rewrite dict_set_fresh by exact Hout.
    rewrite map_app. cbn [map fst].
    apply NoDup_app. split; [exact Hd|]. split.
    + intros x Hx [->|[]]%list_elem_of_In. apply Hout.
      apply list_elem_of_In. exact Hx.
    + apply NoDup_singleton.
Qed.

Lemma dict_set_Forall {V} (P : V -> Prop) k (v : V) d :
  List.Forall (fun kv => P (snd kv)) d -> P v ->
  List.Forall (fun kv => P (snd kv)) (dict_set k v d).
Proof.
  intros Hd Hv. induction Hd as [|[k' v'] d Hx Hd IH]; cbn [dict_set].
  - constructor; [exact Hv | constructor].
  - destruct (str_eqb k' k); constructor; assumption.
Qed.

(** A loop that sets the key of some of the items it goes through. *)
Lemma fold_dict_set_Forall {A V} (P : V -> Prop)
    (step : list (str * V) -> str * A -> list (str * V))
    (f : str * A -> option V) (l : list (str * A)) :
  (forall acc item,
      step acc item
      = match f item with Some v => dict_set (fst item) v acc | None => acc end) ->
  (forall item v, In item l -> f item = Some v -> P v) ->
  forall acc,
    List.Forall (fun kv => P (snd kv)) acc ->
    List.Forall (fun kv => P (snd kv)) (fold_left step l acc).
Proof.
  intros Hstep. induction l as [|item l IH]; intros HP acc Hacc; [exact Hacc|].
  cbn [fold_left]. apply IH.
  - intros i v Hi. apply HP. right. exact Hi.
  - rewrite Hstep. destruct (f item) as [v|] eqn:E; [|exact Hacc].
    apply dict_set_Forall; [exact Hacc|].
    apply (HP item v); [left; reflexivity | exact E].
Qed.

Lemma fold_dict_set_NoDup {A V}
    (step : list (str * V) -> str * A -> list (str * V))
    (f : str * A -> option V) (l : list (str * A)) :
  (forall acc item,
      step acc item
      = match f item with Some v => dict_set (fst item) v acc | None => acc end) ->
  forall acc,
    NoDup (map fst acc) -> NoDup (map fst (fold_left step l acc)).
Proof.
  intros Hstep. induction l as [|item l IH]; intros acc Hacc; [exact Hacc|].
  cbn [fold_left]. apply IH. rewrite Hstep.
  destruct (f item); [apply dict_set_NoDup|]; exact Hacc.
Qed.

(** With distinct keys, every key that is set is new. *)
Lemma fold_dict_set_distinct {A V}
    (step : list (str * V) -> str * A -> list (str * V))
    (f : str * A -> option V) (l : list (str * A)) :
  (forall acc item,
      step acc item
      = match f item with Some v => dict_set (fst item) v acc | None => acc end) ->
  forall acc,
    NoDup (map fst acc ++ map fst l) ->
    fold_left step l acc
    = acc ++ flat_map
               (fun item =>
                  match f item with Some v => [(fst item, v)] | None => [] end)
               l.
Proof.
  intros Hstep. induction l as [|item l IH]; intros acc Hnd.
  - cbn [fold_left flat_map]. symmetry. apply app_nil_r.
  - cbn [fold_left flat_map]. rewrite Hstep.
    cbn [map] in Hnd. apply NoDup_app in Hnd. destruct Hnd as (Ha & Hdisj & Hl).
    apply NoDup_cons in Hl. destruct Hl as [Hitem Hl].
    destruct (f item) as [v|] eqn:E.
    + rewrite dict_set_fresh.
      * rewrite IH.
        { rewrite <- app_assoc. reflexivity. }
        rewrite map_app. cbn [map fst]. rewrite <- app_assoc. cbn [app].
        apply NoDup_app. split; [exact Ha|]. split.
        { intros x Hx Hx'. apply (Hdisj x Hx). exact Hx'. }
        apply NoDup_cons. split; assumption.
      * intros Hin. apply (Hdisj (fst item)).
        { apply list_elem_of_In. exact Hin. }
        left.
    + cbn [app]. apply IH.
      apply NoDup_app. split; [exact Ha|]. split; [|exact Hl].
      intros x Hx Hx'. apply (Hdisj x Hx). right. exact Hx'.
Qed.

(** ** The filter of the parser *)

Lemma custom_columns_of_step (acc : list (str * Column)) (col : str * Column) :
  (if is_custom (snd col) then dict_set (fst col) (snd col) acc else acc)
  = match (if is_custom (snd col) then Some (snd col) else None) with
    | Some v => dict_set (fst col) v acc
    | None => acc
    end.
Proof. destruct (is_custom (snd col)); reflexivity. Qed.

Lemma flat_map_kept {A} (c : str * A -> bool) (l : list (str * A)) :
  flat_map
    (fun item =>
       match (if c item then Some (snd item) else None) with
       | Some v => [(fst item, v)]
       | None => []
       end) l
  = List.filter c l.
Proof.
  induction l as [|[k a] l IH]; [reflexivity|].
  cbn [flat_map List.filter]. rewrite IH.
  destruct (c (k, a)); reflexivity.
Qed.

Lemma flat_map_all_kept {A} (f : str * A -> option A) (l : list (str * A)) :
  (forall item, In item l -> f item = Some (snd item)) ->
  flat_map (fun item => match f item with Some v => [(fst item, v)] | None => [] end) l
  = l.
Proof.
  induction l as [|[k a] l IH]; intros H; [reflexivity|].
  cbn [flat_map]. rewrite (H (k, a)) by (left; reflexivity).
  cbn [fst snd app]. f_equal. apply IH. intros item Hi. apply H. right. exact Hi.
Qed.

Lemma filter_all {A} (c : A -> bool) (l : list A) :
  forallb c l = true -> List.filter c l = l.
Proof.
  induction l as [|x l IH]; [reflexivity|].
  cbn [forallb List.filter]. intros H. apply andb_true_iff in H as [Hx Hl].
  rewrite Hx, IH by exact Hl. reflexivity.
Qed.

Lemma custom_columns_of_custom v :
  List.Forall (fun kv => is_custom (snd kv) = true)
    (IFSXMLParser.custom_columns_of v).
Proof.
  unfold IFSXMLParser.custom_columns_of.
  apply (fold_dict_set_Forall (fun c => is_custom c = true) _ kept_column).
  - intros acc col. apply custom_columns_of_step.
  - intros col c _. unfold kept_column.
    destruct (is_custom (snd col)) eqn:E; [|discriminate].
    intros [= <-]. exact E.
  - constructor.
Qed.

Lemma custom_columns_of_NoDup v :
  NoDup (map fst (IFSXMLParser.custom_columns_of v)).
Proof.
  unfold IFSXMLParser.custom_columns_of.
  apply (fold_dict_set_NoDup _ kept_column).
  - intros acc col. apply custom_columns_of_step.
  - constructor.
Qed.

Lemma custom_columns_of_distinct v :
  NoDup (map fst (columns v)) ->
  IFSXMLParser.custom_columns_of v
  = List.filter (fun c => is_custom (snd c)) (columns v).
Proof.
  intros Hnd. unfold IFSXMLParser.custom_columns_of.
  rewrite (fold_dict_set_distinct _ kept_column).
  - cbn [app]. unfold kept_column. apply flat_map_kept.
  - intros acc col. apply custom_columns_of_step.
  - exact Hnd.
Qed.

Lemma filtered_views_step (acc : list (str * View)) (view : str * View) :
  match IFSXMLParser.custom_columns_of (snd view) with
  | [] => acc
  | _ :: _ =>
      dict_set (fst view)
        {| view_control := view_control (snd view);
           view_label := view_label (snd view);
           columns := IFSXMLParser.custom_columns_of (snd view) |}
        acc
  end
  = match kept_view view with
    | Some v => dict_set (fst view) v acc
    | None => acc
    end.
Proof.
  unfold kept_view. destruct (IFSXMLParser.custom_columns_of (snd view)); reflexivity.
Qed.

Lemma Forall_forallb {A} (p : A -> bool) l :
  List.Forall (fun x => p x = true) l -> forallb p l = true.
Proof. intros H. apply forallb_forall. apply List.Forall_forall. exact H. Qed.

Lemma kept_view_filtered view v :
  kept_view view = Some v ->
  view_filtered v = true /\ NoDup (map fst (columns v)).
Proof.
  unfold kept_view.
  pose proof (custom_columns_of_custom (snd view)) as Hc.
  pose proof (custom_columns_of_NoDup (snd view)) as Hn.
  destruct (IFSXMLParser.custom_columns_of (snd view)) as [|c cs]; [discriminate|].
  intros [= <-]. unfold view_filtered. cbn [columns]. split; [|exact Hn].
  cbn [length Nat.eqb negb andb]. apply Forall_forallb. exact Hc.
Qed.

Lemma filtered_views_filtered lu :
  List.Forall
    (fun kv => view_filtered (snd kv) = true /\ NoDup (map fst (columns (snd kv))))
    (IFSXMLParser.filtered_views lu).
Proof.
  unfold IFSXMLParser.filtered_views.
  apply (fold_dict_set_Forall
           (fun v => view_filtered v = true /\ NoDup (map fst (columns v)))
           _ kept_view).
  - intros acc view. apply filtered_views_step.
  - intros view v _. apply kept_view_filtered.
  - constructor.
Qed.

Lemma filtered_views_NoDup lu :
  NoDup (map fst (IFSXMLParser.filtered_views lu)).
Proof.
  unfold IFSXMLParser.filtered_views.
  apply (fold_dict_set_NoDup _ kept_view).
  - intros acc view. apply filtered_views_step.
  - constructor.
Qed.

Lemma extract_step (acc : list (str * LogicalUnit)) (lu : str * LogicalUnit) :
  match
    views {| lu_name := lu_name (snd lu); lu_label := lu_label (snd lu);
             views := IFSXMLParser.filtered_views (snd lu) |}
  with
  | [] => acc
  | _ :: _ =>
      dict_set (fst lu)
        {| lu_name := lu_name (snd lu); lu_label := lu_label (snd lu);
           views := IFSXMLParser.filtered_views (snd lu) |}
        acc
  end
  = match kept_lu lu with
    | Some v => dict_set (fst lu) v acc
    | None => acc
    end.
Proof.
  unfold kept_lu. cbn [views].
  destruct (IFSXMLParser.filtered_views (snd lu)); reflexivity.
Qed.

Lemma kept_lu_filtered lu l :
  kept_lu lu = Some l -> lu_filtered l = true /\ lu_keys_distinct l.
Proof.
  unfold kept_lu.
  pose proof (filtered_views_filtered (snd lu)) as Hv.
  pose proof (filtered_views_NoDup (snd lu)) as Hn.
  destruct (IFSXMLParser.filtered_views (snd lu)) as [|v vs]; [discriminate|].
  intros [= <-]. unfold lu_filtered, lu_keys_distinct. cbn [views]. split.
  - cbn [length Nat.eqb negb andb]. apply Forall_forallb.
    eapply List.Forall_impl; [|exact Hv]. intros kv [H _]. exact H.
  - split; [exact Hn|].
    eapply List.Forall_impl; [|exact Hv]. intros kv [_ H]. exact H.
Qed.

Lemma extract_filtered data :
  List.Forall (fun kv => lu_filtered (snd kv) = true /\ lu_keys_distinct (snd kv))
    (logical_units (IFSXMLParser.extract_custom_fields data)).
Proof.
  unfold IFSXMLParser.extract_custom_fields. cbn [logical_units].
  apply (fold_dict_set_Forall
           (fun l => lu_filtered l = true /\ lu_keys_distinct l) _ kept_lu).
  - intros acc lu. apply extract_step.
  - intros lu l _. apply kept_lu_filtered.
  - constructor.
Qed.

Lemma extract_keys_distinct data :
  keys_distinct (IFSXMLParser.extract_custom_fields data).
Proof.
  split.
  - unfold IFSXMLParser.extract_custom_fields. cbn [logical_units].
    apply (fold_dict_set_NoDup _ kept_lu).
    + intros acc lu. apply extract_step.
    + constructor.
  - eapply List.Forall_impl; [|apply extract_filtered].
    intros kv [_ H]. exact H.
Qed.

Lemma extract_custom_only data :
  custom_only (IFSXMLParser.extract_custom_fields data) = true.
Proof.
  change (forallb (fun lu => lu_filtered (snd lu))
            (logical_units (IFSXMLParser.extract_custom_fields data)) = true).
  apply Forall_forallb.
  eapply List.Forall_impl; [|apply extract_filtered].
  intros kv [H _]. exact H.
Qed.

(** On a tree that is filtered already, the filter changes nothing. *)
Lemma custom_columns_of_fixed v :
  NoDup (map fst (columns v)) -> view_filtered v = true ->
  IFSXMLParser.custom_columns_of v = columns v.
Proof.
  intros Hn Hv. rewrite custom_columns_of_distinct by exact Hn.
  apply filter_all. unfold view_filtered in Hv.
  apply andb_true_iff in Hv as [_ Hv]. exact Hv.
Qed.

Lemma kept_view_fixed view :
  NoDup (map fst (columns (snd view))) -> view_filtered (snd view) = true ->
  kept_view view = Some (snd view).
Proof.
  intros Hn Hv. unfold kept_view.
  rewrite custom_columns_of_fixed by assumption.
  unfold view_filtered in Hv. apply andb_true_iff in Hv as [Hlen _].
  destruct view as [k [vc vl cols]]. cbn [snd columns view_control view_label] in *.
  destruct cols; [discriminate | reflexivity].
Qed.

Lemma filtered_views_fixed lu :
  lu_keys_distinct lu -> lu_filtered lu = true ->
  IFSXMLParser.filtered_views lu = views lu.
Proof.
  intros [Hn Hcols] Hlu. unfold IFSXMLParser.filtered_views.
  rewrite (fold_dict_set_distinct _ kept_view).
  - cbn [app]. apply flat_map_all_kept. intros view Hin.
    unfold lu_filtered in Hlu. apply andb_true_iff in Hlu as [_ Hvs].
    rewrite forallb_forall in Hvs. rewrite List.Forall_forall in Hcols.
    apply kept_view_fixed; [apply Hcols | apply Hvs]; exact Hin.
  - intros acc view. apply filtered_views_step.
  - exact Hn.
Qed.

Lemma kept_lu_fixed lu :
  lu_keys_distinct (snd lu) -> lu_filtered (snd lu) = true ->
  kept_lu lu = Some (snd lu).
Proof.
  intros Hn Hlu. unfold kept_lu.
  rewrite filtered_views_fixed by assumption.
  unfold lu_filtered in Hlu. apply andb_true_iff in Hlu as [Hlen _].
  destruct lu as [k [n l vs]]. cbn [snd views lu_name lu_label] in *.
  destruct vs; [discriminate | reflexivity].
Qed.

Lemma extract_fixed data :
  keys_distinct data -> custom_only data = true ->
  IFSXMLParser.extract_custom_fields data = data.
Proof.
  intros [Hn Hlus] Hc. unfold IFSXMLParser.extract_custom_fields.
  rewrite (fold_dict_set_distinct _ kept_lu).
  - cbn [app]. rewrite flat_map_all_kept.
    + destruct data; reflexivity.
    + intros lu Hin.
      change (forallb (fun lu => lu_filtered (snd lu)) (logical_units data) = true)
        in Hc.
      rewrite forallb_forall in Hc. rewrite List.Forall_forall in Hlus.
      apply kept_lu_fixed; [apply Hlus | apply Hc]; exact Hin.
  - intros acc lu. apply extract_step.
  - exact Hn.
Qed.

(** ** The statistics of the parser *)

Lemma statistics_eq (s t : IFSXMLParser.Statistics) :
  IFSXMLParser.total_logical_units s = IFSXMLParser.total_logical_units t ->
  IFSXMLParser.total_views s = IFSXMLParser.total_views t ->
  IFSXMLParser.total_columns s = IFSXMLParser.total_columns t ->
  IFSXMLParser.custom_columns s = IFSXMLParser.custom_columns t ->
  IFSXMLParser.standard_columns s = IFSXMLParser.standard_columns t ->
  s = t.
Proof. destruct s, t. cbn. intros -> -> -> -> ->. reflexivity. Qed.

Lemma counted_nothing s : counted s 0 0 [] = s.
Proof. apply statistics_eq; cbn; lia. Qed.

Lemma counted_counted s a b c a' b' c' :
  counted (counted s a b c) a' b' c' = counted s (a + a') (b + b') (c ++ c').
Proof.
  apply statistics_eq; cbn; rewrite ?List.filter_app, ?length_app; lia.
Qed.

Lemma count_column_counted s col :
  IFSXMLParser.count_column s col = counted s 0 0 [col].
Proof.
  unfold IFSXMLParser.count_column.
  destruct (is_custom (snd col)) eqn:E;
    apply statistics_eq; cbn; rewrite ?E; cbn; lia.
Qed.

Lemma fold_count_column cols s :
  fold_left IFSXMLParser.count_column cols s = counted s 0 0 cols.
Proof.
  revert s. induction cols as [|col cols IH]; intros s; cbn [fold_left].
  - symmetry. apply counted_nothing.
  - rewrite IH, count_column_counted, counted_counted. reflexivity.
Qed.

Lemma count_view_counted s view :
  IFSXMLParser.count_view s view = counted s 0 1 (columns (snd view)).
Proof.
  unfold IFSXMLParser.count_view. rewrite fold_count_column.
  apply statistics_eq; cbn; lia.
Qed.

Lemma fold_count_view vs s :
  fold_left IFSXMLParser.count_view vs s
  = counted s 0 (length vs) (flat_map (fun v => columns (snd v)) vs).
Proof.
  revert s. induction vs as [|v vs IH]; intros s; cbn [fold_left flat_map length].
  - symmetry. apply counted_nothing.
  - rewrite IH, count_view_counted, counted_counted. reflexivity.
Qed.

Lemma count_logical_unit_counted s lu :
  IFSXMLParser.count_logical_unit s lu
  = counted s 1 (length (views (snd lu)))
      (flat_map (fun v => columns (snd v)) (views (snd lu))).
Proof.
  unfold IFSXMLParser.count_logical_unit. rewrite fold_count_view.
  apply statistics_eq; cbn; lia.
Qed.

Lemma fold_count_logical_unit lus s :
  fold_left IFSXMLParser.count_logical_unit lus s
  = counted s (length lus)
      (length (flat_map (fun lu => views (snd lu)) lus))
      (flat_map (fun v => columns (snd v))
         (flat_map (fun lu => views (snd lu)) lus)).
Proof.
  revert s. induction lus as [|lu lus IH]; intros s; cbn [fold_left flat_map length].
  - symmetry. apply counted_nothing.
  - rewrite IH, count_logical_unit_counted, counted_counted.
    rewrite flat_map_app, length_app. reflexivity.
Qed.

Lemma get_statistics_counted data :
  IFSXMLParser.get_statistics data
  = {| IFSXMLParser.total_logical_units := length (logical_units data);
       IFSXMLParser.total_views := length (all_views data);
       IFSXMLParser.total_columns := length (all_columns data);
       IFSXMLParser.custom_columns :=
         length (List.filter (fun c => is_custom (snd c)) (all_columns data));
       IFSXMLParser.standard_columns :=
         length (List.filter (fun c => negb (is_custom (snd c))) (all_columns data)) |}.
Proof.
  unfold IFSXMLParser.get_statistics. rewrite fold_count_logical_unit.
  apply statistics_eq; reflexivity.
Qed.

Lemma filter_split_length {A} (c : A -> bool) (l : list A) :
  length l
  = length (List.filter c l) + length (List.filter (fun x => negb (c x)) l).
Proof.
  induction l as [|x l IH]; [reflexivity|].
  cbn [List.filter]. destruct (c x); cbn [negb length]; lia.
Qed.

Lemma filter_flat_map {A B} (c : B -> bool) (f : A -> list B) (l : list A) :
  List.filter c (flat_map f l) = flat_map (fun x => List.filter c (f x)) l.
Proof.
  induction l as [|x l IH]; [reflexivity|].
  cbn [flat_map]. rewrite List.filter_app, IH. reflexivity.
Qed.

Lemma flat_map_nested {A B C} (g : B -> list C) (f : A -> list B) (l : list A) :
  flat_map g (flat_map f l) = flat_map (fun x => flat_map g (f x)) l.
Proof.
  induction l as [|x l IH]; [reflexivity|].
  cbn [flat_map]. rewrite flat_map_app, IH. reflexivity.
Qed.

Lemma flat_map_ext_within {A B} (f g : A -> list B) (l : list A) :
  (forall x, In x l -> f x = g x) -> flat_map f l = flat_map g l.
Proof.
  induction l as [|x l IH]; intros H; [reflexivity|].
  cbn [flat_map]. rewrite (H x) by (left; reflexivity).
  rewrite IH; [reflexivity|]. intros y Hy. apply H. right. exact Hy.
Qed.

(** ** The columns that the filter keeps *)

Lemma kept_view_columns view :
  NoDup (map fst (columns (snd view))) ->
  flat_map (fun v => columns (snd v))
    (match kept_view view with Some v => [(fst view, v)] | None => [] end)
  = List.filter (fun c => is_custom (snd c)) (columns (snd view)).
Proof.
  intros Hn. unfold kept_view. rewrite custom_columns_of_distinct by exact Hn.
  destruct (List.filter _ (columns (snd view))); [reflexivity|].
  cbn [flat_map snd columns]. apply app_nil_r.
Qed.

Lemma filtered_views_columns lu :
  lu_keys_distinct lu ->
  flat_map (fun v => columns (snd v)) (IFSXMLParser.filtered_views lu)
  = List.filter (fun c => is_custom (snd c))
      (flat_map (fun v => columns (snd v)) (views lu)).
Proof.
  intros [Hn Hcols]. unfold IFSXMLParser.filtered_views.
  rewrite (fold_dict_set_distinct _ kept_view);
    [|intros acc view; apply filtered_views_step|exact Hn].
  cbn [app]. rewrite flat_map_nested, filter_flat_map.
  apply flat_map_ext_within. intros view Hin. apply kept_view_columns.
  rewrite List.Forall_forall in Hcols. apply Hcols. exact Hin.
Qed.

Lemma kept_lu_columns lu :
  lu_keys_distinct (snd lu) ->
  flat_map (fun v => columns (snd v))
    (flat_map (fun l => views (snd l))
       (match kept_lu lu with Some l => [(fst lu, l)] | None => [] end))
  = List.filter (fun c => is_custom (snd c))
      (flat_map (fun v => columns (snd v)) (views (snd lu))).
Proof.
  intros Hd. rewrite <- filtered_views_columns by exact Hd.
  unfold kept_lu. destruct (IFSXMLParser.filtered_views (snd lu)); [reflexivity|].
  cbn [flat_map snd views]. rewrite !app_nil_r. reflexivity.
Qed.

Lemma extract_columns data :
  keys_distinct data ->
  all_columns (IFSXMLParser.extract_custom_fields data)
  = List.filter (fun c => is_custom (snd c)) (all_columns data).
Proof.
  intros [Hn Hlus]. unfold all_columns, all_views.
  unfold IFSXMLParser.extract_custom_fields. cbn [logical_units].
  rewrite (fold_dict_set_distinct _ kept_lu);
    [|intros acc lu; apply extract_step|exact Hn].
  cbn [app]. rewrite !flat_map_nested, filter_flat_map.
  apply flat_map_ext_within. intros lu Hin.
  rewrite <- kept_lu_columns.
  - rewrite flat_map_nested. reflexivity.
  - rewrite List.Forall_forall in Hlus. apply Hlus. exact Hin.
Qed.

Lemma filter_filter_same {A} (c : A -> bool) (l : list A) :
  List.filter c (List.filter c l) = List.filter c l.
Proof.
  induction l as [|x l IH]; [reflexivity|].
  cbn [List.filter]. destruct (c x) eqn:E; [|exact IH].
  cbn [List.filter]. rewrite E, IH. reflexivity.
Qed.

Lemma filter_none {A} (c : A -> bool) (l : list A) :
  List.filter (fun x => negb (c x)) (List.filter c l) = [].
Proof.
  induction l as [|x l IH]; [reflexivity|].
  cbn [List.filter]. destruct (c x) eqn:E; [|exact IH].
  cbn [List.filter]. rewrite E. exact IH.
Qed.

(** ** The number of lines that the encoders write *)

Lemma length_flat_map_if {A B} (c : A -> bool) (f : A -> list B) (k : nat)
    (l : list A) :
  (forall x, length (f x) = k) ->
  length (flat_map (fun x => if c x then f x else []) l)
  = k * length (List.filter c l).
Proof.
  intros Hk. induction l as [|x l IH]; [cbn; lia|].
  cbn [flat_map List.filter]. rewrite length_app, IH.
  destruct (c x); cbn [length]; [rewrite Hk|]; lia.
Qed.

Lemma length_lng_view_items v d :
  length (lng_view_items v d)
  = 2 + 3 * length (List.filter (fun c => is_custom (snd c)) (columns v)).
Proof.
  unfold lng_view_items. cbn [length]. rewrite length_app.
  rewrite (length_flat_map_if (fun c => is_custom (snd c))
             (fun c => lng_column_items (snd c) (d + 1)) 3) by reflexivity.
  cbn [length]. lia.
Qed.

Lemma length_trs_view_items tr v d :
  length (trs_view_items tr v d)
  = 2 + 4 * length (List.filter (fun c => is_custom (snd c)) (columns v)).
Proof.
  unfold trs_view_items. cbn [length]. rewrite length_app.
  rewrite (length_flat_map_if (fun c => is_custom (snd c))
             (fun c => trs_column_items tr (snd c) (d + 1)) 4) by reflexivity.
  cbn [length]. lia.
Qed.

Lemma length_view_blocks (f : View -> list (nat * block_line)) (k : nat)
    (vs : list (str * View)) :
  (forall v,
      length (f v)
      = 2 + k * length (List.filter (fun c => is_custom (snd c)) (columns v))) ->
  length (flat_map (fun item => f (snd item)) vs)
  = 2 * length vs
    + k * length (List.filter (fun c => is_custom (snd c))
                    (flat_map (fun v => columns (snd v)) vs)).
Proof.
  intros Hf. induction vs as [|v vs IH]; [cbn; lia|].
  cbn [flat_map length]. rewrite List.filter_app, !length_app, IH, Hf. lia.
Qed.

Lemma length_lu_blocks (f : LogicalUnit -> list (nat * block_line)) (h k : nat)
    (lus : list (str * LogicalUnit)) :
  (forall lu,
      length (f lu)
      = h + 2 * length (views lu)
        + k * length (List.filter (fun c => is_custom (snd c))
                        (flat_map (fun v => columns (snd v)) (views lu)))) ->
  length (flat_map (fun item => f (snd item)) lus)
  = h * length lus
    + 2 * length (flat_map (fun lu => views (snd lu)) lus)
    + k * length (List.filter (fun c => is_custom (snd c))
                    (flat_map (fun v => columns (snd v))
                       (flat_map (fun lu => views (snd lu)) lus))).
Proof.
  intros Hf. induction lus as [|lu lus IH]; [cbn; lia|].
  cbn [flat_map length].
  rewrite flat_map_app, List.filter_app, !length_app, IH, Hf. lia.
Qed.

Lemma length_lng_items data :
  length (lng_items data)
  = 3 * length (logical_units data) + 2 * length (all_views data)
    + 3 * length (List.filter (fun c => is_custom (snd c)) (all_columns data)).
Proof.
  unfold lng_items, all_columns, all_views.
  apply (length_lu_blocks (fun lu => lng_lu_items lu 0) 3 3).
  intros lu. unfold lng_lu_items. cbn [length]. rewrite length_app.
  rewrite (length_view_blocks (fun v => lng_view_items v (0 + 1)) 3)
    by (intros v; apply length_lng_view_items).
  cbn [length]. lia.
Qed.

Lemma length_trs_items tr data :
  length (trs_items tr data)
  = 2 * length (logical_units data) + 2 * length (all_views data)
    + 4 * length (List.filter (fun c => is_custom (snd c)) (all_columns data)).
Proof.
  unfold trs_items, all_columns, all_views.
  apply (length_lu_blocks (fun lu => trs_lu_items tr lu 0) 2 4).
  intros lu. unfold trs_lu_items. cbn [length]. rewrite length_app.
  rewrite (length_view_blocks (fun v => trs_view_items tr v (0 + 1)) 4)
    by (intros v; apply length_trs_view_items).
  cbn [length]. lia.
Qed.

Lemma custom_only_columns data :
  custom_only data = true ->
  forallb (fun c => is_custom (snd c)) (all_columns data) = true.
Proof.
  intros Hc. unfold all_columns, all_views.
  rewrite flat_map_nested, forallb_flat_map.
  eapply forallb_impl; [|exact Hc].
  intros lu Hlu. cbv beta in Hlu. apply andb_true_iff in Hlu as [_ Hvs].
  rewrite forallb_flat_map.
  eapply forallb_impl; [|exact Hvs].
  intros v Hv. cbv beta in Hv. apply andb_true_iff in Hv as [_ Hv]. exact Hv.
Qed.

Lemma filter_negb_all {A} (c : A -> bool) (l : list A) :
  forallb c l = true -> List.filter (fun x => negb (c x)) l = [].
Proof.
  induction l as [|x l IH]; [reflexivity|].
  cbn [forallb List.filter]. intros H. apply andb_true_iff in H as [Hx Hl].
  rewrite Hx. cbn [negb]. apply IH. exact Hl.
Qed.

(** * The parser, the statistics and the encoders *)

(** X1: the filter.  In the tree that [extract_custom_fields] returns every
    column is custom, every view has a column and every logical unit has a
    view, whatever the tree it is given; module and layer are those of the
    tree it is given. *)
Theorem extract_custom_fields_filtered (parsed_data : ResourceTree) :
  custom_only (IFSXMLParser.extract_custom_fields parsed_data) = true
  /\ tree_module (IFSXMLParser.extract_custom_fields parsed_data)
     = tree_module parsed_data
  /\ tree_layer (IFSXMLParser.extract_custom_fields parsed_data)
     = tree_layer parsed_data.
Proof.
  split; [apply extract_custom_only|]. split; reflexivity.
Qed.

(** X2: filtering twice is filtering once. *)
Theorem extract_custom_fields_idempotent (parsed_data : ResourceTree) :
  IFSXMLParser.extract_custom_fields
    (IFSXMLParser.extract_custom_fields parsed_data)
  = IFSXMLParser.extract_custom_fields parsed_data.
Proof.
  apply extract_fixed; [apply extract_keys_distinct | apply extract_custom_only].
Qed.

(** X3: the statistics.  [get_statistics] counts the logical units, the
    views and the columns of the tree; every column is counted once as
    custom or once as standard, so that the total is the sum of the two;
    the custom columns are as many as the labels to translate; and a tree
    that went through the filter has no standard column. *)
Theorem get_statistics_totals (parsed_data : ResourceTree) :
  let stats := IFSXMLParser.get_statistics parsed_data in
  IFSXMLParser.total_logical_units stats = length (logical_units parsed_data)
  /\ IFSXMLParser.total_views stats = length (all_views parsed_data)
  /\ IFSXMLParser.total_columns stats = length (all_columns parsed_data)
  /\ IFSXMLParser.total_columns stats
     = IFSXMLParser.custom_columns stats + IFSXMLParser.standard_columns stats
  /\ IFSXMLParser.custom_columns stats = length (custom_labels parsed_data)
  /\ IFSXMLParser.standard_columns
       (IFSXMLParser.get_statistics
          (IFSXMLParser.extract_custom_fields parsed_data))
     = 0.
Proof.
  cbv zeta. rewrite !get_statistics_counted.
  cbn [IFSXMLParser.total_logical_units IFSXMLParser.total_views
       IFSXMLParser.total_columns IFSXMLParser.custom_columns
       IFSXMLParser.standard_columns].
  split; [reflexivity|]. split; [reflexivity|]. split; [reflexivity|].
  split; [apply filter_split_length|].
  split; [unfold custom_labels; rewrite length_map; reflexivity|].
  rewrite filter_negb_all; [reflexivity|].
  apply custom_only_columns, extract_custom_only.
Qed.

(** X4: what the filter keeps.  When the keys of the parsed tree are
    distinct at every level, as the keys of a dict are, the filtered tree
    has the custom columns of the parsed tree and no other, in the same
    order; so the labels to translate are the same, and the number of
    columns of the filtered tree is the parsed tree's count of custom
    columns. *)
Theorem extract_keeps_custom_columns (parsed_data : ResourceTree) :
  keys_distinct parsed_data ->
  all_columns (IFSXMLParser.extract_custom_fields parsed_data)
  = List.filter (fun c => is_custom (snd c)) (all_columns parsed_data)
  /\ custom_labels (IFSXMLParser.extract_custom_fields parsed_data)
     = custom_labels parsed_data
  /\ IFSXMLParser.total_columns
       (IFSXMLParser.get_statistics
          (IFSXMLParser.extract_custom_fields parsed_data))
     = IFSXMLParser.custom_columns (IFSXMLParser.get_statistics parsed_data).
Proof.
  intros Hd. split; [apply extract_columns; exact Hd|]. split.
  - unfold custom_labels. rewrite extract_columns by exact Hd.
    rewrite filter_filter_same. reflexivity.
  - rewrite !get_statistics_counted.
    cbn [IFSXMLParser.total_columns IFSXMLParser.custom_columns].
    rewrite extract_columns by exact Hd. reflexivity.
Qed.

Lemma extract_keeps_custom_columns_witness :
  keys_distinct mixed_data
  /\ custom_labels (IFSXMLParser.extract_custom_fields mixed_data)
     = [ lit "Test Field" ]
  /\ IFSXMLParser.total_columns
       (IFSXMLParser.get_statistics
          (IFSXMLParser.extract_custom_fields mixed_data))
     = 1.
Proof.
  assert (H : keys_distinct mixed_data).
  { unfold keys_distinct. apply (bool_decide_unpack _). vm_compute. exact I. }
  destruct (extract_keeps_custom_columns mixed_data H) as (_ & Hb & Hc).
  split; [exact H|]. split.
  - rewrite Hb. vm_compute. reflexivity.
  - rewrite Hc. vm_compute. reflexivity.
Defined.

(** X5: the number of lines.  The definition encoder writes three lines for
    every logical unit, two for every view and three for every custom
    column that [get_statistics] counts; the translation encoder writes
    two, two and four. *)
Theorem content_line_counts
    (data : ResourceTree) (translations : gmap (list N) (list N)) :
  let stats := IFSXMLParser.get_statistics data in
  length (LNGGenerator.content_lines data)
  = 3 * IFSXMLParser.total_logical_units stats
    + 2 * IFSXMLParser.total_views stats
    + 3 * IFSXMLParser.custom_columns stats
  /\ length (TRSGenerator.content_lines data translations)
     = 2 * IFSXMLParser.total_logical_units stats
       + 2 * IFSXMLParser.total_views stats
       + 4 * IFSXMLParser.custom_columns stats.
Proof.
  cbv zeta. rewrite get_statistics_counted.
  cbn [IFSXMLParser.total_logical_units IFSXMLParser.total_views
       IFSXMLParser.custom_columns].
  rewrite lng_content_lines, trs_content_lines, !length_map.
  split; [apply length_lng_items | apply length_trs_items].
Qed.

(** ** The language code *)

Lemma hd_split s c : hd [] (split s c) = span_not c s.
Proof.
  induction s as [|x s IH]; [reflexivity|].
  cbn [split span_not]. destruct (x =? c)%N; [reflexivity|].
  destruct (split s c) as [|h t]; cbn [hd] in *; rewrite <- IH; reflexivity.
Qed.

Lemma has_char_span_not c s : has_char c (span_not c s) = false.
Proof.
  unfold has_char. induction s as [|x s IH]; [reflexivity|].
  cbn [span_not]. destruct (x =? c)%N eqn:E; [reflexivity|].
  cbn [existsb]. rewrite IH, N.eqb_sym, E. reflexivity.
Qed.

(** X6: the language code of the translation encoder.  It is the part of
    the language before its first hyphen, but for [nb-NO], whose code is
    [no]; it has no hyphen; and the culture is the language as given. *)
Theorem lang_code_of_language (module layer language : str) :
  let g := TRSGenerator.init module layer language in
  TRSGenerator.lang_code g
  = (if str_eqb language (lit "nb-NO") then lit "no" else span_not 45%N language)
  /\ has_char 45%N (TRSGenerator.lang_code g) = false
  /\ TRSGenerator.culture g = language.
Proof.
  cbv zeta. unfold TRSGenerator.init, TRSGenerator.init_with.
  cbn [TRSGenerator.lang_code TRSGenerator.culture].
  unfold TRSGenerator.LANGUAGES. cbn [TRSGenerator.LANGUAGES_code].
  destruct (str_eqb language (lit "sv-SE")) eqn:Esv.
  - apply str_eqb_eq in Esv. subst language.
    split; [vm_compute; reflexivity|]. split; reflexivity.
  - destruct (str_eqb language (lit "nb-NO")) eqn:Enb.
    + split; [reflexivity|]. split; reflexivity.
    + rewrite hd_split. split; [reflexivity|].
      split; [apply has_char_span_not | reflexivity].
Qed.

(** * More of the validator *)

(** ** The verdict *)

Lemma length_zero_nil {A} (l : list A) : (length l =? 0) = true <-> l = [].
Proof. destruct l; cbn; split; intros H; congruence. Qed.

(** X7: the verdict and the errors.  On every path through
    [validate_file], for a missing file, an unreadable one, an unknown
    suffix, a file without content section or a file that was checked, the
    returned verdict is [True] exactly when the returned error list is
    empty. *)
Theorem validate_file_verdict (self : IFSValidator.t) (file : Path) (fs : FS) :
  let '(is_valid, errors, warnings) :=
    fst (IFSValidator.validate_file self file fs) in
  is_valid = true <-> errors = [].
Proof.
  unfold IFSValidator.validate_file.
  destruct (fs file) as [|e|text]; cbn [fst];
    try (split; intros H; discriminate H).
  destruct (negb _); cbn [fst]; [split; intros H; discriminate H|].
  destruct (IFSValidator._find_content_start (readlines text)); cbn [fst].
  - apply length_zero_nil.
  - cbn [IFSValidator.errors_append IFSValidator.errors].
    split; intros H; [discriminate H|].
    apply app_eq_nil in H as [_ H]. discriminate H.
Qed.

(** ** The pairing check and balanced lines *)

Lemma length_removelast_cons {A} (x : A) (l : list A) :
  length (removelast (x :: l)) = length l.
Proof.
  revert x. induction l as [|y l IH]; intros x; [reflexivity|].
  change (removelast (x :: y :: l)) with (x :: removelast (y :: l)).
  cbn [length]. rewrite IH. reflexivity.
Qed.

Lemma cs_ce_step_cases offset self stack i line :
  IFSValidator.cs_ce_step offset (self, stack) (i, line)
  = if startswith (strip line) (lit "CS:") then
      match re_match_CS (strip line) with
      | Some identifier => (self, stack ++ [(identifier, i + offset + 1)])
      | None =>
          (IFSValidator.errors_append
             (IFSValidator.line_prefix (i + offset + 1)
                ++ lit "Malformed CS line: " ++ strip line) self,
           stack)
      end
    else if startswith (strip line) (lit "CE:") then
      match stack with
      | [] =>
          (IFSValidator.errors_append
             (IFSValidator.line_prefix (i + offset + 1)
                ++ lit "CE without matching CS") self,
           [])
      | _ :: _ => (self, removelast stack)
      end
    else (self, stack).
Proof.
  unfold IFSValidator.cs_ce_step.
  destruct (startswith (strip line) (lit "CS:")); [reflexivity|].
  destruct (startswith (strip line) (lit "CE:")); [|reflexivity].
  destruct stack; reflexivity.
Qed.

Lemma cs_ce_scan_balanced offset lines :
  forall k self stack,
    exists extra,
      IFSValidator.errors
        (fst (fold_left (IFSValidator.cs_ce_step offset) (enumerate_from k lines)
                (self, stack)))
      = IFSValidator.errors self ++ extra
      /\ IFSValidator.warnings
           (fst (fold_left (IFSValidator.cs_ce_step offset) (enumerate_from k lines)
                   (self, stack)))
         = IFSValidator.warnings self
      /\ ((extra = []
           /\ snd (fold_left (IFSValidator.cs_ce_step offset)
                     (enumerate_from k lines) (self, stack)) = [])
          <-> balanced_from (length stack) (map classify lines) = true).
Proof.
  induction lines as [|line lines IH]; intros k self stack.
  - exists []. cbn [enumerate_from fold_left fst snd map balanced_from].
    split; [symmetry; apply app_nil_r|]. split; [reflexivity|].
    rewrite length_zero_nil. tauto.
  - cbn [enumerate_from fold_left map].
    rewrite cs_ce_step_cases. unfold classify at 1. cbv zeta.
    destruct (startswith (strip line) (lit "CS:")).
    + destruct (re_match_CS (strip line)) as [identifier|].
      * destruct (IH (S k) self (stack ++ [(identifier, k + offset + 1)]))
          as (extra & He & Hw & Hb).
        exists extra. split; [exact He|]. split; [exact Hw|].
        rewrite length_app in Hb. cbn [length] in Hb.
        rewrite (Nat.add_1_r (length stack)) in Hb. exact Hb.
      * destruct (IH (S k)
                    (IFSValidator.errors_append
                       (IFSValidator.line_prefix (k + offset + 1)
                          ++ lit "Malformed CS line: " ++ strip line) self)
                    stack) as (extra & He & Hw & _).
        eexists (_ :: extra). split.
        { rewrite He. cbn [IFSValidator.errors_append IFSValidator.errors].
          rewrite <- app_assoc. reflexivity. }
        split; [exact Hw|].
        cbn [balanced_from]. split; [intros [H _]; discriminate H | discriminate].
    + destruct (startswith (strip line) (lit "CE:")).
      * destruct stack as [|top stack].
        -- destruct (IH (S k)
                       (IFSValidator.errors_append
                          (IFSValidator.line_prefix (k + offset + 1)
                             ++ lit "CE without matching CS") self)
                       []) as (extra & He & Hw & _).
           eexists (_ :: extra). split.
           { rewrite He. cbn [IFSValidator.errors_append IFSValidator.errors].
             rewrite <- app_assoc. reflexivity. }
           split; [exact Hw|].
           cbn [length balanced_from].
           split; [intros [H _]; discriminate H | discriminate].
        -- destruct (IH (S k) self (removelast (top :: stack)))
             as (extra & He & Hw & Hb).
           exists extra. split; [exact He|]. split; [exact Hw|].
           rewrite length_removelast_cons in Hb. exact Hb.
      * apply IH.
Qed.

Lemma unclosed_errors (stack : list (str * nat)) (self : IFSValidator.t) :
  let self' :=
    fold_left
      (fun self entry =>
         IFSValidator.errors_append
           (IFSValidator.line_prefix (snd entry) ++ lit "CS '" ++ fst entry
              ++ lit "' not closed with CE") self)
      stack self in
  IFSValidator.errors self'
  = IFSValidator.errors self
    ++ map (fun entry =>
              IFSValidator.line_prefix (snd entry) ++ lit "CS '" ++ fst entry
              ++ lit "' not closed with CE") stack
  /\ IFSValidator.warnings self' = IFSValidator.warnings self.
Proof.
  cbv zeta. revert self. induction stack as [|entry stack IH]; intros self.
  - cbn [fold_left map]. rewrite app_nil_r. split; reflexivity.
  - cbn [fold_left map]. destruct (IH (IFSValidator.errors_append
       (IFSValidator.line_prefix (snd entry) ++ lit "CS '" ++ fst entry
          ++ lit "' not closed with CE") self)) as [He Hw].
    rewrite He, Hw. cbn [IFSValidator.errors_append IFSValidator.errors
                           IFSValidator.warnings].
    rewrite <- app_assoc. split; reflexivity.
Qed.

(** X8: what the pairing check accepts.  [_validate_cs_ce_pairing] only
    adds to the errors and leaves the warnings as they are, and it adds no
    error exactly when the lines are balanced: no [CS:] line is malformed,
    every [CE:] line finds a block open, and no block is open when the
    lines end. *)
Theorem pairing_accepts_balanced
    (content_lines : list str) (offset : nat) (self : IFSValidator.t) :
  let self' := IFSValidator._validate_cs_ce_pairing content_lines offset self in
  (IFSValidator.errors self' = IFSValidator.errors self
   <-> balanced_from 0 (map classify content_lines) = true)
  /\ (exists extra,
         IFSValidator.errors self' = IFSValidator.errors self ++ extra)
  /\ IFSValidator.warnings self' = IFSValidator.warnings self.
Proof.
  cbv zeta. unfold IFSValidator._validate_cs_ce_pairing, IFSValidator.cs_ce_scan,
    enumerate.
  destruct (cs_ce_scan_balanced offset content_lines 0 self [])
    as (extra & He & Hw & Hb).
  destruct (fold_left (IFSValidator.cs_ce_step offset)
              (enumerate_from 0 content_lines) (self, [])) as [scanned stack].
  cbn [fst snd length] in He, Hw, Hb.
  destruct (unclosed_errors stack scanned) as [He' Hw'].
  rewrite He', Hw', He, Hw, <- app_assoc.
  split; [|split; [eexists; reflexivity | reflexivity]].
  rewrite <- Hb. split.
  - intros H. rewrite <- (app_nil_r (IFSValidator.errors self)) in H at 2.
    apply app_inv_head in H. apply app_eq_nil in H as [H1 H2].
    split; [exact H1|]. destruct stack; [reflexivity | discriminate H2].
  - intros [-> ->]. cbn [map app]. apply app_nil_r.
Qed.

(** ** The start of the content *)

Lemma first_CS_spec lines :
  forall k,
    match IFSValidator.first_CS (enumerate_from k lines) with
    | Some i =>
        exists j line,
          i = k + j /\ nth_error lines j = Some line
          /\ startswith (strip line) (lit "CS:") = true
          /\ List.Forall (fun l => startswith (strip l) (lit "CS:") = false)
               (firstn j lines)
    | None =>
        List.Forall (fun l => startswith (strip l) (lit "CS:") = false) lines
    end.
Proof.
  induction lines as [|line lines IH]; intros k; [constructor|].
  cbn [enumerate_from IFSValidator.first_CS].
  destruct (startswith (strip line) (lit "CS:")) eqn:E.
  - exists 0, line. rewrite Nat.add_0_r. repeat split; try assumption. constructor.
  - specialize (IH (S k)).
    destruct (IFSValidator.first_CS (enumerate_from (S k) lines)) as [i|].
    + destruct IH as (j & l & -> & Hn & Hl & Hf).
      exists (S j), l. rewrite Nat.add_succ_r. cbn [nth_error firstn].
      repeat split; try assumption. constructor; assumption.
    + constructor; assumption.
Qed.

(** X9: where the content starts.  [_find_content_start] returns the index
    of the first line that begins with [CS:] once trimmed, wherever in the
    file it is, and [None] exactly when no line does. *)
Theorem find_content_start_first (lines : list str) :
  match IFSValidator._find_content_start lines with
  | Some i =>
      (exists line,
          nth_error lines i = Some line
          /\ startswith (strip line) (lit "CS:") = true)
      /\ List.Forall (fun l => startswith (strip l) (lit "CS:") = false)
           (firstn i lines)
  | None =>
      List.Forall (fun l => startswith (strip l) (lit "CS:") = false) lines
  end.
Proof.
  unfold IFSValidator._find_content_start, enumerate.
  pose proof (first_CS_spec lines 0) as H.
  destruct (IFSValidator.first_CS (enumerate_from 0 lines)) as [i|]; [|exact H].
  destruct H as (j & line & -> & Hn & Hl & Hf). cbn [Nat.add].
  split; [exists line; split; assumption | exact Hf].
Qed.

(** ** The indentation check *)

Lemma indentation_step_spec offset self i line :
  IFSValidator.indentation_step offset self (i, line)
  = if space_indented line
    then IFSValidator.warnings_append
           (IFSValidator.line_prefix (i + offset + 1)
              ++ lit "Uses spaces instead of tabs for indentation") self
    else self.
Proof.
  unfold IFSValidator.indentation_step, space_indented.
  destruct (strip line); [reflexivity|].
  destruct line as [|c line]; [reflexivity|].
  cbn [startswith]. rewrite !andb_true_r.
  destruct (N.eqb_spec c SPACE) as [->|Hne]; [reflexivity|].
  destruct (N.eqb_spec SPACE c) as [<-|_]; [contradiction | reflexivity].
Qed.

Lemma indentation_fold offset lines :
  forall k self,
    let self' :=
      fold_left (IFSValidator.indentation_step offset) (enumerate_from k lines) self in
    IFSValidator.errors self' = IFSValidator.errors self
    /\ IFSValidator.warnings self'
       = IFSValidator.warnings self
         ++ map (fun il =>
                   IFSValidator.line_prefix (fst il + offset + 1)
                   ++ lit "Uses spaces instead of tabs for indentation")
              (List.filter (fun il => space_indented (snd il))
                 (enumerate_from k lines)).
Proof.
  cbv zeta. induction lines as [|line lines IH]; intros k self.
  - cbn [enumerate_from fold_left List.filter map]. rewrite app_nil_r.
    split; reflexivity.
  - cbn [enumerate_from fold_left List.filter snd].
    rewrite indentation_step_spec.
    destruct (space_indented line).
    + destruct (IH (S k) (IFSValidator.warnings_append
         (IFSValidator.line_prefix (k + offset + 1)
            ++ lit "Uses spaces instead of tabs for indentation") self)) as [He Hw].
      rewrite He, Hw. cbn [IFSValidator.warnings_append IFSValidator.errors
                             IFSValidator.warnings map fst].
      rewrite <- app_assoc. split; reflexivity.
    + apply IH.
Qed.

(** X10: the indentation check.  [_validate_indentation] never adds an
    error.  It adds one warning for every line that has a character other
    than white space and begins with a space, in the order of the lines,
    and for no other line: a line that begins with a tab is never warned
    about, whatever follows the tab. *)
Theorem indentation_only_warns
    (content_lines : list str) (offset : nat) (self : IFSValidator.t) :
  let self' := IFSValidator._validate_indentation content_lines offset self in
  IFSValidator.errors self' = IFSValidator.errors self
  /\ IFSValidator.warnings self'
     = IFSValidator.warnings self
       ++ map (fun il =>
                 IFSValidator.line_prefix (fst il + offset + 1)
                 ++ lit "Uses spaces instead of tabs for indentation")
            (List.filter (fun il => space_indented (snd il))
               (enumerate content_lines))
  /\ (forall rest, space_indented (TAB :: rest) = false).
Proof.
  cbv zeta. unfold IFSValidator._validate_indentation, enumerate.
  destruct (indentation_fold offset content_lines 0 self) as [He Hw].
  split; [exact He|]. split; [exact Hw|].
  intros rest. unfold space_indented. destruct (strip (TAB :: rest)); reflexivity.
Qed.

(** * The two kinds of file *)

Lemma in_errors_invalid (errors : list str) (m : str) :
  In m errors -> (length errors =? 0) = false.
Proof. destruct errors; [contradiction | reflexivity]. Qed.

(** A file whose first [CS:] line has not the number of fields of the kind
    it is checked as is rejected. *)
Lemma wrong_field_count_rejected (is_lng : bool) (hdr : list str)
    (d : nat) (identifier : str) (f : cs_fields)
    (rest : list (nat * block_line)) :
  List.Forall (fun x => startswith (strip x) (lit "CS:") = false) hdr ->
  S (length (List.filter (N.eqb CARET) identifier) + fields_carets f)
  <> (if is_lng then 5 else 2) ->
  fst (fst (check_lines is_lng
              (hdr ++ map (fun it => as_read (render it))
                        ((d, CS_line identifier f) :: rest))))
  = false.
Proof.
  intros Hnot Hn.
  set (items := (d, CS_line identifier f) :: rest).
  set (content := map (fun it => as_read (render it)) items).
  assert (Hline : strip (as_read (render (d, CS_line identifier f)))
                  = line_text (CS_line identifier f)) by apply strip_as_read.
  assert (Hcs : startswith (strip (as_read (render (d, CS_line identifier f))))
                  (lit "CS:") = true).
  { rewrite Hline, startswith_CS. reflexivity. }
  assert (Hstart :
            IFSValidator._find_content_start (hdr ++ content) = Some (length hdr)).
  { unfold IFSValidator._find_content_start, enumerate, content, items.
    cbn [map]. rewrite first_CS_skip; [reflexivity | exact Hnot | exact Hcs]. }
  unfold check_lines. rewrite Hstart, skipn_length_app. cbn [fst].
  assert (Hnth : nth_error content 0 = Some (as_read (render (d, CS_line identifier f))))
    by reflexivity.
  destruct is_lng.
  - eapply in_errors_invalid.
    unfold IFSValidator._validate_lng_structure.
    apply (recorded_at_end _ _ 0 _ _ _ (lng_structure_step_grows (length hdr)) Hnth).
    intros s. rewrite lng_structure_step_CS by exact Hcs.
    rewrite Hline, CS_line_fields.
    apply Nat.eqb_neq in Hn. rewrite Hn.
    apply in_or_app. right. left. reflexivity.
  - eapply in_errors_invalid.
    unfold IFSValidator._validate_trs_structure.
    apply (recorded_at_end _ _ 0 _ _ _ (trs_structure_step_grows (length hdr)) Hnth).
    intros s. rewrite trs_structure_step_CS by exact Hcs.
    rewrite Hline, CS_line_fields.
    apply Nat.eqb_neq in Hn. rewrite Hn.
    apply in_or_app. right. left. reflexivity.
Qed.

(** A file that a failed write has left empty is rejected. *)
Lemma empty_file_rejected (is_lng : bool) :
  fst (fst (check_lines is_lng (readlines []))) = false.
Proof. destruct is_lng; reflexivity. Qed.

(** X11: the two kinds are not interchangeable.  For a well-formed tree
    with a logical unit, the definition file is rejected when it is stored
    and checked as a translation file, and the translation file is
    rejected when it is stored and checked as a definition file: the first
    [CS:] line has five fields in the one and two in the other. *)
Theorem kinds_not_interchangeable
    (lng : LNGGenerator.t) (trs : TRSGenerator.t) (data : ResourceTree)
    (translations : gmap (list N) (list N)) (as_trs as_lng : Path) (fs : FS)
    (self : IFSValidator.t) :
  suffix as_trs = lit ".trs" ->
  suffix as_lng = lit ".lng" ->
  logical_units data <> [] ->
  tree_ok data = true ->
  translations_ok translations data = true ->
  lng_header_ok lng = true ->
  trs_header_ok trs = true ->
  fst (fst (fst (IFSValidator.validate_file self as_trs
                   (snd (LNGGenerator.generate_file lng data as_trs fs)))))
  = false
  /\ fst (fst (fst (IFSValidator.validate_file self as_lng
                      (snd (TRSGenerator.generate_file trs data translations
                              as_lng fs)))))
     = false.
Proof.
  intros Htrs Hlng Hne Hd Ht Hlg Htg.
  destruct (logical_units data) as [|[k lu] lus] eqn:Hlus; [congruence|].
  assert (Hlu : lu_ok lu = true).
  { unfold tree_ok in Hd. rewrite Hlus in Hd. cbn [forallb snd] in Hd.
    apply andb_true_iff in Hd as [Hd _]. exact Hd. }
  assert (Hid : has_char CARET (lu_name lu) = false).
  { unfold lu_ok in Hlu. split_andb.
    match goal with H : identifier_ok _ = true |- _ =>
      apply identifier_ok_spec in H as [_ H]; exact H end. }
  split.
  - destruct (encodable (LNGGenerator.generate_header lng
                         ++ LNGGenerator.generate_content data)) eqn:E.
    2:{ rewrite lng_generate_file_raised by exact E. cbn [snd].
        rewrite (validate_file_trs self as_trs _ []);
          [apply empty_file_rejected | apply fs_read_written | exact Htrs]. }
    rewrite lng_generate_file_written by exact E. cbn [snd].
    assert (Hitems := lng_items_ok _ Hd).
    rewrite (validate_file_trs self as_trs _
               (LNGGenerator.generate_header lng
                ++ LNGGenerator.generate_content data));
      [|apply fs_read_written | exact Htrs].
    rewrite lng_file_text, readlines_written;
      [|apply lng_header_single; exact Hlg
       |eapply forallb_impl; [|exact Hitems];
        intros it H; unfold lng_item_ok in H; split_andb; assumption].
    unfold lng_items. rewrite Hlus. cbn [flat_map snd].
    unfold lng_lu_items at 1. cbn [app].
    apply wrong_field_count_rejected; [apply lng_header_lines_not_CS|].
    cbn [fields_carets]. lia.
  - destruct (encodable (TRSGenerator.generate_header trs
                         ++ TRSGenerator.generate_content data translations))
      eqn:E.
    2:{ rewrite trs_generate_file_raised by exact E. cbn [snd].
        rewrite (validate_file_lng self as_lng _ []);
          [apply empty_file_rejected | apply fs_read_written | exact Hlng]. }
    rewrite trs_generate_file_written by exact E. cbn [snd].
    assert (Hitems := trs_items_ok translations _ Hd Ht).
    rewrite (validate_file_lng self as_lng _
               (TRSGenerator.generate_header trs
                ++ TRSGenerator.generate_content data translations));
      [|apply fs_read_written | exact Hlng].
    rewrite trs_file_text, readlines_written;
      [|apply trs_header_single; exact Htg
       |eapply forallb_impl; [|exact Hitems];
        intros it H; unfold trs_item_ok in H; split_andb; assumption].
    unfold trs_items. rewrite Hlus. cbn [flat_map snd].
    unfold trs_lu_items at 1. cbn [app].
    apply wrong_field_count_rejected; [apply trs_header_lines_not_CS|].
    cbn [fields_carets]. rewrite (filter_absent _ _ Hid). cbn [length]. lia.
Qed.

Lemma kinds_not_interchangeable_witness :
  suffix trs_path = lit ".trs"
  /\ suffix lng_path = lit ".lng"
  /\ logical_units test_data <> []
  /\ tree_ok test_data = true
  /\ translations_ok test_translations test_data = true
  /\ lng_header_ok lng_generator = true
  /\ trs_header_ok trs_generator = true
  /\ fst (fst (fst (IFSValidator.validate_file IFSValidator.init trs_path
                      (snd (LNGGenerator.generate_file lng_generator test_data
                              trs_path no_files)))))
     = false
  /\ fst (fst (fst (IFSValidator.validate_file IFSValidator.init lng_path
                      (snd (TRSGenerator.generate_file trs_generator test_data
                              test_translations lng_path no_files)))))
     = false.
Proof.
  assert (H1 : suffix trs_path = lit ".trs") by reflexivity.
  assert (H2 : suffix lng_path = lit ".lng") by reflexivity.
  assert (H3 : logical_units test_data <> []) by discriminate.
  assert (H4 : tree_ok test_data = true) by (vm_compute; reflexivity).
  assert (H5 : translations_ok test_translations test_data = true)
    by (vm_compute; reflexivity).
  assert (H6 : lng_header_ok lng_generator = true) by (vm_compute; reflexivity).
  assert (H7 : trs_header_ok trs_generator = true) by (vm_compute; reflexivity).
  destruct (kinds_not_interchangeable lng_generator trs_generator test_data
              test_translations trs_path lng_path no_files IFSValidator.init
              H1 H2 H3 H4 H5 H6 H7) as [Ha Hb].
  split; [exact H1|]. split; [exact H2|]. split; [exact H3|].
  split; [exact H4|]. split; [exact H5|]. split; [exact H6|].
  split; [exact H7|]. split; [exact Ha | exact Hb].
Defined.

(** * A tree without custom column *)

Lemma filter_nil_none {A} (c : A -> bool) (l : list A) :
  List.filter c l = [] -> forall x, In x l -> c x = false.
Proof.
  induction l as [|y l IH]; [contradiction|].
  cbn [List.filter]. destruct (c y) eqn:E; [discriminate|].
  intros H x [<-|Hx]; [exact E | apply IH; assumption].
Qed.






(** * The dictionary backend of the translator *)

Lemma fold_insert_lookup (g : str -> str) (texts : list str) (t : str) :
  forall acc : gmap (list N) (list N),
    fold_left (fun translations text => <[ text := g text ]> translations) texts acc
    !! t
    = if bool_decide (t ∈ texts) then Some (g t) else acc !! t.
Proof.
  induction texts as [|x texts IH]; intros acc; [reflexivity|].
  cbn [fold_left]. rewrite IH.
  destruct (bool_decide (t ∈ texts)) eqn:E.
  - apply bool_decide_eq_true in E.
    rewrite (bool_decide_eq_true_2 (t ∈ x :: texts)) by (apply list_elem_of_further; exact E).
    reflexivity.
  - apply bool_decide_eq_false in E.
    destruct (decide (x = t)) as [->|Hne].
    + rewrite lookup_insert_eq.
      rewrite (bool_decide_eq_true_2 (t ∈ t :: texts)) by apply list_elem_of_here.
      reflexivity.
    + rewrite lookup_insert_ne by exact Hne.
      rewrite (bool_decide_eq_false_2 (t ∈ x :: texts)); [reflexivity|].
      intros [H|H]%elem_of_cons; [exact (Hne (eq_sym H)) | exact (E H)].
Qed.

Lemma translate_with_dictionary_lookup loaded builtin texts t :
  IFSTranslator._translate_with_dictionary loaded builtin texts !! t
  = if bool_decide (t ∈ texts)
    then Some (translations_get (IFSTranslator.term_dict loaded builtin) t)
    else None.
Proof.
  unfold IFSTranslator._translate_with_dictionary, translations_get.
  rewrite (fold_insert_lookup
             (fun text => default text (IFSTranslator.term_dict loaded builtin !! text))).
  rewrite lookup_empty. reflexivity.
Qed.

(** The translation encoder reads the translations of the labels of the
    custom columns only. *)
Lemma in_custom_labels data lu v c :
  In lu (logical_units data) -> In v (views (snd lu)) -> In c (columns (snd v)) ->
  is_custom (snd c) = true ->
  In (col_label (snd c)) (custom_labels data).
Proof.
  intros Hlu Hv Hc Hcustom. unfold custom_labels.
  apply (in_map (fun c => col_label (snd c))).
  apply List.filter_In. split; [|exact Hcustom].
  unfold all_columns, all_views.
  apply in_flat_map. exists v. split; [|exact Hc].
  apply in_flat_map. exists lu. split; assumption.
Qed.

Lemma trs_items_same_labels tr tr' data :
  (forall label, In label (custom_labels data) ->
                 translations_get tr label = translations_get tr' label) ->
  trs_items tr data = trs_items tr' data.
Proof.
  intros H. unfold trs_items.
  apply flat_map_ext_within. intros lu Hlu.
  unfold trs_lu_items. do 2 f_equal.
  apply flat_map_ext_within. intros v Hv.
  unfold trs_view_items. do 2 f_equal.
  apply flat_map_ext_within. intros c Hc.
  destruct (is_custom (snd c)) eqn:E; [|reflexivity].
  unfold trs_column_items.
  rewrite (H _ (in_custom_labels data lu v c Hlu Hv Hc E)). reflexivity.
Qed.

(** X13: the dictionary backend.  [_translate_with_dictionary] returns an
    entry for every text it is given and for no other; the entry is the
    term of the dictionary, or the text itself when the dictionary has no
    term for it.  When the texts given are at least the labels of the
    custom columns, the translation encoder writes with the returned dict
    what it writes with the dictionary itself. *)
Theorem dictionary_translation_applied
    (loaded : option (gmap (list N) (list N))) (builtin : gmap (list N) (list N))
    (texts : list str) (data : ResourceTree) :
  (forall label, In label (custom_labels data) -> In label texts) ->
  let translations := IFSTranslator._translate_with_dictionary loaded builtin texts in
  (forall text, In text texts ->
     translations !! text
     = Some (default text (IFSTranslator.term_dict loaded builtin !! text)))
  /\ (forall text, ~ In text texts -> translations !! text = None)
  /\ TRSGenerator.generate_content data translations
     = TRSGenerator.generate_content data (IFSTranslator.term_dict loaded builtin).
Proof.
  intros Hcover translations. split; [|split].
  - intros text Hin. unfold translations.
    rewrite translate_with_dictionary_lookup.
    rewrite bool_decide_eq_true_2 by (apply list_elem_of_In; exact Hin).
    reflexivity.
  - intros text Hout. unfold translations.
    rewrite translate_with_dictionary_lookup.
    rewrite bool_decide_eq_false_2 by (rewrite list_elem_of_In; exact Hout).
    reflexivity.
  - unfold TRSGenerator.generate_content. rewrite !trs_content_lines.
    do 2 f_equal. apply trs_items_same_labels. intros label Hlabel.
    unfold translations, translations_get at 1.
    rewrite translate_with_dictionary_lookup.
    rewrite bool_decide_eq_true_2
      by (apply list_elem_of_In, Hcover; exact Hlabel).
    reflexivity.
Qed.

Lemma dictionary_translation_applied_witness :
  (forall label, In label (custom_labels test_data) -> In label [ lit "Test Field" ])
  /\ TRSGenerator.generate_content test_data
       (IFSTranslator._translate_with_dictionary None test_translations
          [ lit "Test Field" ])
     = TRSGenerator.generate_content test_data test_translations.
Proof.
  assert (H : forall label,
             In label (custom_labels test_data) -> In label [ lit "Test Field" ]).
  { intros label Hl. vm_compute in Hl. vm_compute. exact Hl. }
  destruct (dictionary_translation_applied None test_translations
              [ lit "Test Field" ] test_data H) as (_ & _ & Hc).
  split; [exact H | exact Hc].
Defined.

(** * The cache of the translator *)

Lemma from_cache_fold (cached : gmap (list N) (list N)) (texts : list str) :
  forall (acc : gmap (list N) (list N)) (todo : list str),
    let r :=
      fold_left
        (fun st text =>
           match cached !! text with
           | Some translated => (<[ text := translated ]> (fst st), snd st)
           | None => (fst st, snd st ++ [text])
           end)
        texts (acc, todo) in
    (forall t,
        fst r !! t
        = match cached !! t with
          | Some v => if bool_decide (t ∈ texts) then Some v else acc !! t
          | None => acc !! t
          end)
    /\ snd r
       = todo ++ List.filter (fun t => bool_decide (cached !! t = None)) texts.
Proof.
  cbv zeta. induction texts as [|x texts IH]; intros acc todo.
  - cbn [fold_left fst snd List.filter]. split.
    + intros t. destruct (cached !! t); reflexivity.
    + symmetry. apply app_nil_r.
  - cbn [fold_left List.filter fst snd].
    destruct (cached !! x) as [v|] eqn:Ex.
    + destruct (IH (<[ x := v ]> acc) todo) as [Hl Ht]. split.
      * intros t. rewrite Hl. destruct (cached !! t) as [w|] eqn:Et.
        -- destruct (bool_decide (t ∈ texts)) eqn:E.
           ++ apply bool_decide_eq_true in E.
              rewrite (bool_decide_eq_true_2 (t ∈ x :: texts)) by (apply list_elem_of_further; exact E).
              reflexivity.
           ++ apply bool_decide_eq_false in E.
              destruct (decide (x = t)) as [->|Hne].
              ** rewrite lookup_insert_eq.
                 rewrite (bool_decide_eq_true_2 (t ∈ t :: texts)) by apply list_elem_of_here.
                 congruence.
              ** rewrite lookup_insert_ne by exact Hne.
                 rewrite (bool_decide_eq_false_2 (t ∈ x :: texts));
                   [reflexivity|].
                 intros [H|H]%elem_of_cons; [exact (Hne (eq_sym H)) | exact (E H)].
        -- apply lookup_insert_ne. intros ->. congruence.
      * rewrite Ht. rewrite (bool_decide_eq_false_2 (Some v = None)) by discriminate.
        reflexivity.
    + destruct (IH acc (todo ++ [x])) as [Hl Ht]. split.
      * intros t. rewrite Hl. destruct (cached !! t) as [w|] eqn:Et; [|reflexivity].
        destruct (bool_decide (t ∈ texts)) eqn:E.
        -- apply bool_decide_eq_true in E.
           rewrite (bool_decide_eq_true_2 (t ∈ x :: texts)) by (apply list_elem_of_further; exact E).
           reflexivity.
        -- apply bool_decide_eq_false in E.
           rewrite (bool_decide_eq_false_2 (t ∈ x :: texts)); [reflexivity|].
           intros [H|H]%elem_of_cons; [subst; congruence | exact (E H)].
      * rewrite Ht. rewrite (bool_decide_eq_true_2 (None = None)) by reflexivity.
        rewrite <- app_assoc. reflexivity.
Qed.

Lemma from_cache_spec (cached : gmap (list N) (list N)) (texts : list str) :
  (forall t, In t texts ->
     fst (IFSTranslator.from_cache cached texts) !! t = cached !! t)
  /\ snd (IFSTranslator.from_cache cached texts)
     = List.filter (fun t => bool_decide (cached !! t = None)) texts.
Proof.
  unfold IFSTranslator.from_cache.
  destruct (from_cache_fold cached texts ∅ []) as [Hl Ht]. split.
  - intros t Hin. rewrite Hl.
    rewrite bool_decide_eq_true_2 by (apply list_elem_of_In; exact Hin).
    destruct (cached !! t); [reflexivity | apply lookup_empty].
  - exact Ht.
Qed.

Lemma from_cache_all_cached (cached : gmap (list N) (list N)) (texts : list str) :
  (forall t, In t texts -> is_Some (cached !! t)) ->
  snd (IFSTranslator.from_cache cached texts) = [].
Proof.
  intros H. destruct (from_cache_spec cached texts) as [_ ->].
  induction texts as [|x texts IH]; [reflexivity|].
  cbn [List.filter].
  destruct (H x (or_introl eq_refl)) as [v Hv].
  rewrite Hv. rewrite (bool_decide_eq_false_2 (Some v = None)) by discriminate.
  apply IH. intros t Ht. apply H. right. exact Ht.
Qed.

Lemma translate_batch_known
    (backend : list str -> str -> gmap (list N) (list N))
    (translation_cache : gmap (list N) (gmap (list N) (list N)))
    (texts : list str) (target_language : str) (cached : gmap (list N) (list N)) :
  translation_cache !! target_language = Some cached ->
  (forall t, In t texts -> is_Some (cached !! t)) ->
  IFSTranslator.translate_batch backend translation_cache texts target_language
  = (fst (IFSTranslator.from_cache cached texts), translation_cache).
Proof.
  intros Hc Hall. unfold IFSTranslator.translate_batch. rewrite Hc.
  cbv zeta. rewrite Hc. change (default ∅ (Some cached)) with cached.
  pose proof (from_cache_all_cached cached texts Hall) as Htodo.
  destruct (IFSTranslator.from_cache cached texts) as [tr todo].
  cbn [snd] in Htodo. subst todo. reflexivity.
Qed.

Lemma cache_entry_made (translation_cache : gmap (list N) (gmap (list N) (list N)))
    (cache_key : str) :
  match translation_cache !! cache_key with
  | None => <[ cache_key := ∅ ]> translation_cache
  | Some _ => translation_cache
  end !! cache_key
  = Some (default ∅
            (match translation_cache !! cache_key with
             | None => <[ cache_key := ∅ ]> translation_cache
             | Some _ => translation_cache
             end !! cache_key)).
Proof.
  destruct (translation_cache !! cache_key) as [c|] eqn:E.
  - rewrite E. reflexivity.
  - rewrite lookup_insert_eq. reflexivity.
Qed.

Lemma translate_batch_unfold
    (backend : list str -> str -> gmap (list N) (list N))
    (translation_cache : gmap (list N) (gmap (list N) (list N)))
    (texts : list str) (target_language : str) :
  IFSTranslator.translate_batch backend translation_cache texts target_language
  = let cache0 :=
      match translation_cache !! target_language with
      | None => <[ target_language := ∅ ]> translation_cache
      | Some _ => translation_cache
      end in
    let cached := default ∅ (cache0 !! target_language) in
    match snd (IFSTranslator.from_cache cached texts) with
    | [] => (fst (IFSTranslator.from_cache cached texts), cache0)
    | x :: todo =>
        (backend (x :: todo) target_language
         ∪ fst (IFSTranslator.from_cache cached texts),
         <[ target_language := backend (x :: todo) target_language ∪ cached ]>
           cache0)
    end.
Proof.
  unfold IFSTranslator.translate_batch. cbv zeta.
  destruct (IFSTranslator.from_cache _ texts) as [tr [|x todo]]; reflexivity.
Qed.

(** X14: the cache of [translate_batch].  When the backend returns an entry
    for every text it is asked for, as the three backends do, the returned
    dict has an entry for every text of the batch; and a second call with
    the same texts and language leaves the cache as it is and returns the
    same entry for every text, whatever the backend would answer then: the
    backend is not asked again. *)
Theorem translate_batch_cached
    (backend backend' : list str -> str -> gmap (list N) (list N))
    (translation_cache : gmap (list N) (gmap (list N) (list N)))
    (texts : list str) (target_language : str) :
  (forall asked text, In text asked ->
     is_Some (backend asked target_language !! text)) ->
  let first :=
    IFSTranslator.translate_batch backend translation_cache texts target_language in
  let second :=
    IFSTranslator.translate_batch backend' (snd first) texts target_language in
  snd second = snd first
  /\ (forall text, In text texts ->
        is_Some (fst first !! text) /\ fst second !! text = fst first !! text).
Proof.
  intros Hbackend. cbv zeta.
  rewrite (translate_batch_unfold backend). cbv zeta.
  pose proof (cache_entry_made translation_cache target_language) as Hentry.
  set (cache0 := match translation_cache !! target_language with
                 | None => <[ target_language := ∅ ]> translation_cache
                 | Some _ => translation_cache
                 end) in *.
  set (cached := default ∅ (cache0 !! target_language)) in *.
  destruct (from_cache_spec cached texts) as [Htr Htodo].
  destruct (IFSTranslator.from_cache cached texts) as [tr todo] eqn:Efc.
  cbn [fst snd] in *.
  destruct todo as [|x todo].
  - assert (Hall : forall t, In t texts -> is_Some (cached !! t)).
    { intros t Ht. symmetry in Htodo.
      pose proof (filter_nil_none _ _ Htodo t Ht) as Hf. cbv beta in Hf.
      apply bool_decide_eq_false in Hf.
      destruct (cached !! t); [eexists; reflexivity | congruence]. }
    cbn [fst snd].
    rewrite (translate_batch_known backend' cache0 texts target_language cached
               Hentry Hall).
    rewrite Efc. cbn [fst snd]. split; [reflexivity|].
    intros t Ht. split; [rewrite Htr by exact Ht; apply Hall; exact Ht | reflexivity].
  - set (new := backend (x :: todo) target_language) in *.
    cbn [fst snd].
    assert (Hall : forall t, In t texts -> is_Some ((new ∪ cached) !! t)).
    { intros t Ht. rewrite lookup_union.
      destruct (cached !! t) as [v|] eqn:Ev.
      - destruct (new !! t); eexists; reflexivity.
      - assert (Hin : In t (x :: todo)).
        { rewrite Htodo. apply List.filter_In. split; [exact Ht|].
          apply bool_decide_eq_true_2. exact Ev. }
        destruct (Hbackend (x :: todo) t Hin) as [w Hw].
        unfold new. rewrite Hw. eexists; reflexivity. }
    rewrite (translate_batch_known backend'
               (<[ target_language := new ∪ cached ]> cache0) texts target_language
               (new ∪ cached) (lookup_insert_eq _ _ _) Hall).
    cbn [fst snd]. split; [reflexivity|].
    intros t Ht.
    destruct (from_cache_spec (new ∪ cached) texts) as [Htr' _].
    rewrite (Htr' t Ht), !lookup_union, (Htr t Ht).
    split; [|reflexivity].
    rewrite <- lookup_union. apply Hall. exact Ht.
Qed.

Lemma translate_batch_cached_witness :
  (forall asked text, In text asked ->
     is_Some (dictionary_backend asked (lit "sv-SE") !! text))
  /\ fst (IFSTranslator.translate_batch dictionary_backend
            (snd (IFSTranslator.translate_batch dictionary_backend ∅
                    [ lit "Test Field"; lit "Part No" ] (lit "sv-SE")))
            [ lit "Test Field"; lit "Part No" ] (lit "sv-SE"))
     !! lit "Part No"
     = fst (IFSTranslator.translate_batch dictionary_backend ∅
              [ lit "Test Field"; lit "Part No" ] (lit "sv-SE"))
       !! lit "Part No".
Proof.
  assert (H : forall asked text, In text asked ->
                is_Some (dictionary_backend asked (lit "sv-SE") !! text)).
  { intros asked text Hin. unfold dictionary_backend.
    rewrite translate_with_dictionary_lookup.
    rewrite bool_decide_eq_true_2 by (apply list_elem_of_In; exact Hin).
    eexists. reflexivity. }
  destruct (translate_batch_cached dictionary_backend dictionary_backend ∅
              [ lit "Test Field"; lit "Part No" ] (lit "sv-SE") H) as [_ Hb].
  split; [exact H|].
  apply (Hb (lit "Part No")). right. left. reflexivity.
Defined.

(** * A file with a short header *)

Lemma pairing_grows content_lines offset self :
  exists extra,
    IFSValidator.errors
      (IFSValidator._validate_cs_ce_pairing content_lines offset self)
    = IFSValidator.errors self ++ extra.
Proof.
  unfold IFSValidator._validate_cs_ce_pairing, IFSValidator.cs_ce_scan, enumerate.
  destruct (cs_ce_scan_balanced offset content_lines 0 self [])
    as (extra & He & _ & _).
  destruct (fold_left (IFSValidator.cs_ce_step offset)
              (enumerate_from 0 content_lines) (self, [])) as [scanned stack].
  cbn [fst] in He.
  destruct (unclosed_errors stack scanned) as [He' _].
  rewrite He', He, <- app_assoc. eexists. reflexivity.
Qed.

(** The checks of the content only add to the errors. *)
Lemma content_checks_grow (is_lng : bool) content_lines offset self :
  exists extra,
    IFSValidator.errors
      (if is_lng
       then IFSValidator._validate_lng_structure content_lines offset
              (IFSValidator._validate_indentation content_lines offset
                 (IFSValidator._validate_cs_ce_pairing content_lines offset self))
       else IFSValidator._validate_trs_structure content_lines offset
              (IFSValidator._validate_indentation content_lines offset
                 (IFSValidator._validate_cs_ce_pairing content_lines offset self)))
    = IFSValidator.errors self ++ extra.
Proof.
  destruct (pairing_grows content_lines offset self) as [e1 H1].
  set (s1 := IFSValidator._validate_cs_ce_pairing content_lines offset self) in *.
  assert (H2 : IFSValidator.errors
                 (IFSValidator._validate_indentation content_lines offset s1)
               = IFSValidator.errors s1).
  { unfold IFSValidator._validate_indentation, enumerate.
    apply (indentation_fold offset content_lines 0 s1). }
  set (s2 := IFSValidator._validate_indentation content_lines offset s1) in *.
  destruct is_lng.
  - destruct (fold_left_grows (IFSValidator.lng_structure_step offset)
                (enumerate content_lines) (lng_structure_step_grows offset) s2)
      as [e3 H3].
    unfold IFSValidator._validate_lng_structure.
    rewrite H3, H2, H1, <- app_assoc. eexists. reflexivity.
  - destruct (fold_left_grows (IFSValidator.trs_structure_step offset)
                (enumerate content_lines) (trs_structure_step_grows offset) s2)
      as [e3 H3].
    unfold IFSValidator._validate_trs_structure.
    rewrite H3, H2, H1, <- app_assoc. eexists. reflexivity.
Qed.

(** X15: a file with fewer than ten lines.  Whatever its content, a stored
    file of either kind that has fewer than ten lines is rejected, and the
    first error says that the file is too short: the header check stops
    there, and the other checks only add to the errors. *)
Theorem short_file_rejected
    (self : IFSValidator.t) (file : Path) (fs : FS) (text : str) :
  fs file = Stored text ->
  suffix file = lit ".lng" \/ suffix file = lit ".trs" ->
  length (readlines text) < 10 ->
  let '(is_valid, errors, warnings) :=
    fst (IFSValidator.validate_file self file fs) in
  is_valid = false
  /\ hd_error errors = Some (lit "File too short, missing header").
Proof.
  intros Hfs Hsuf Hlen.
  rewrite (validate_file_stored self file fs text Hfs).
  assert (Hkind : negb (str_eqb (suffix file) (lit ".lng")
                        || str_eqb (suffix file) (lit ".trs")) = false).
  { destruct Hsuf as [-> | ->]; reflexivity. }
  rewrite Hkind. unfold check_lines, IFSValidator._validate_header.
  apply Nat.ltb_lt in Hlen. rewrite Hlen.
  destruct (IFSValidator._find_content_start (readlines text)) as [content_start|].
  - destruct (content_checks_grow (str_eqb (suffix file) (lit ".lng"))
                (skipn content_start (readlines text)) content_start
                (IFSValidator.errors_append (lit "File too short, missing header")
                   IFSValidator.init)) as [extra He].
    destruct (str_eqb (suffix file) (lit ".lng")); rewrite He;
      split; reflexivity.
  - split; reflexivity.
Qed.

Lemma short_file_rejected_witness :
  fs_write no_files trs_path scenario_C_text trs_path = Stored scenario_C_text
  /\ (suffix trs_path = lit ".lng" \/ suffix trs_path = lit ".trs")
  /\ length (readlines scenario_C_text) < 10
  /\ fst (fst (fst (IFSValidator.validate_file IFSValidator.init trs_path
                      (fs_write no_files trs_path scenario_C_text))))
     = false.
Proof.
  assert (H1 : fs_write no_files trs_path scenario_C_text trs_path
               = Stored scenario_C_text) by apply fs_read_written.
  assert (H2 : suffix trs_path = lit ".lng" \/ suffix trs_path = lit ".trs")
    by (right; reflexivity).
  assert (H3 : length (readlines scenario_C_text) < 10) by (vm_compute; lia).
  pose proof (short_file_rejected IFSValidator.init trs_path
                (fs_write no_files trs_path scenario_C_text) scenario_C_text
                H1 H2 H3) as H.
  split; [exact H1|]. split; [exact H2|]. split; [exact H3|].
  destruct (fst (IFSValidator.validate_file IFSValidator.init trs_path
                   (fs_write no_files trs_path scenario_C_text)))
    as [[is_valid errors] warnings].
  destruct H as [H _]. exact H.
Defined.

(** * From the parsed tree to the accepted files *)














